(** * Weighted reel generation of the slot-machine backend (src/app.py)

    A shallow embedding of [load_config], [load_symbol_weights],
    [generate_weighted_strip] and [get_reel_strip_length], with the Python
    objects they manipulate:

    - numbers are Python's: unbounded [int] as [Z], [float] as IEEE-754
      binary64 ([PrimFloat.float]), so that NaN, the infinities and the
      signed zeros behave as they do under CPython;
    - a decoded JSON document is a [pyval];
    - exceptions are explicit ([outcome]);
    - the module-level [DEFAULT_WEIGHTS] dict and the per-call copies live in
      a store of dict objects, addressed by reference, so that copying and
      in-place assignment are visible;
    - the generator of the [random] module is a sequence of raw draws that
      the calls consume in order. *)

From Stdlib Require Import ZArith NArith Floats Ascii String.
From stdpp Require Import base option list strings.

Local Open Scope Z_scope.

(** ** Exceptions and outcomes *)

Inductive exn : Set :=
| TypeError
| ValueError
| OverflowError
| AttributeError
| IndexError
| KeyError
| NameError
| OSError
| UnicodeDecodeError
| JSONDecodeError.

Inductive outcome (A : Type) : Type :=
| Ok (a : A)
| Raise (e : exn).
Arguments Ok {A} a.
Arguments Raise {A} e.

#[global] Instance outcome_ret : MRet outcome := fun A a => Ok a.
#[global] Instance outcome_bind : MBind outcome :=
  fun A B k m => match m with Ok a => k a | Raise e => Raise e end.

(** [try: x except (TypeError, ValueError): fallback]; any other exception
    keeps propagating. *)
Definition except_type_value {A : Type} (x : outcome A) (fallback : A) : outcome A :=
  match x with
  | Ok a => Ok a
  | Raise TypeError | Raise ValueError => Ok fallback
  | Raise e => Raise e
  end.

(** ** Python values *)

(** What [json.load] can return, which is also what the callers can pass for
    [bomb_multiplier]. A dict keeps its insertion order. *)
#[local] Unset Elimination Schemes.
Inductive pyval : Type :=
| PNone
| PBool (b : bool)
| PInt (z : Z)
| PFloat (f : float)
| PStr (s : string)
| PList (l : list pyval)
| PDict (d : list (string * pyval)).
#[local] Set Elimination Schemes.

(** A weight as stored in a weight table: the defaults are [int]s, the
    overrides are [float]s. *)
Inductive num : Set :=
| NInt (z : Z)
| NFloat (f : float).

(** [d.get(key, default)] on the entries of a dict. *)
Fixpoint dict_get {V : Type} (d : list (string * V)) (key : string) (default : V) : V :=
  match d with
  | [] => default
  | (k, v) :: d' => if String.eqb k key then v else dict_get d' key default
  end.

Fixpoint dict_lookup {V : Type} (d : list (string * V)) (key : string) : option V :=
  match d with
  | [] => None
  | (k, v) :: d' => if String.eqb k key then Some v else dict_lookup d' key
  end.

(** [d[key] = v]: an existing key keeps its position, a new one goes last. *)
Fixpoint dict_set {V : Type} (d : list (string * V)) (key : string) (v : V) : list (string * V) :=
  match d with
  | [] => [(key, v)]
  | (k, x) :: d' => if String.eqb k key then (k, v) :: d' else (k, x) :: dict_set d' key v
  end.

(** Truth value of an object, as [or] and [if] test it. *)
Definition truthy (v : pyval) : bool :=
  match v with
  | PNone => false
  | PBool b => b
  | PInt z => negb (z =? 0)
  | PFloat f => negb (f =? 0)%float
  | PStr s => negb (String.eqb s "")
  | PList l => match l with [] => false | _ => true end
  | PDict d => match d with [] => false | _ => true end
  end.

(** [x or {}] *)
Definition or_empty_dict (x : pyval) : pyval :=
  if truthy x then x else PDict [].

(** [obj.get(key, default)]: only a dict has the method. *)
Definition py_get (obj : pyval) (key : string) (default : pyval) : outcome pyval :=
  match obj with
  | PDict d => Ok (dict_get d key default)
  | _ => Raise AttributeError
  end.

(** [obj.items()] *)
Definition py_items (obj : pyval) : outcome (list (string * pyval)) :=
  match obj with
  | PDict d => Ok d
  | _ => Raise AttributeError
  end.

(** ** The builtins [float] and [int] *)

(** [float(z)] for an [int]: correctly rounded, [OverflowError] beyond the
    largest double. *)
Definition float_of_int (z : Z) : outcome float :=
  let f := SF2Prim (binary_normalize prec emax z 0 false) in
  if is_infinity f then Raise OverflowError else Ok f.

(** Exact value of m / 10^k (m, k >= 0) rounded once to the nearest double:
    the quotient is taken with 2 guard bits beyond the 53 kept, and a sticky
    bit records a non-zero remainder. *)
Definition round_ratio (m : Z) (k : Z) : float :=
  let d := 10 ^ k in
  let s := Z.max 0 (Z.log2 d - Z.log2 m + 56) in
  let q := Z.shiftl m s / d in
  let r := Z.shiftl m s mod d in
  let q' := 2 * q + (if r =? 0 then 0 else 1) in
  SF2Prim (binary_normalize prec emax q' (- (s + 1)) false).

(** The double nearest to m * 10^e, m >= 0. *)
Definition float_of_decimal (m : Z) (e : Z) : float :=
  if m =? 0 then 0%float
  else if 0 <=? e then SF2Prim (binary_normalize prec emax (m * 10 ^ e) 0 false)
  else round_ratio m (- e).

(** The white space that [float] and [int] take off both ends of a [str]:
    every character that [str.isspace] accepts, which below 256 are the
    code points 9-13, 28-32, 133 and 160. *)
Definition is_space (c : ascii) : bool :=
  let n := nat_of_ascii c in
  ((9 <=? n)%nat && (n <=? 13)%nat) || ((28 <=? n)%nat && (n <=? 32)%nat)
  || (n =? 133)%nat || (n =? 160)%nat.

Definition digit_of (c : ascii) : option Z :=
  let n := nat_of_ascii c in
  if ((48 <=? n)%nat && (n <=? 57)%nat) then Some (Z.of_nat (n - 48)) else None.

Definition lower (c : ascii) : ascii :=
  let n := nat_of_ascii c in
  if ((65 <=? n)%nat && (n <=? 90)%nat) then ascii_of_nat (n + 32) else c.

Fixpoint lstrip (s : list ascii) : list ascii :=
  match s with
  | c :: s' => if is_space c then lstrip s' else s
  | [] => []
  end.

(** [s.strip()] *)
Definition str_strip (s : list ascii) : list ascii :=
  rev (lstrip (rev (lstrip s))).

(** A run of digits, single underscores allowed between two digits. Returns
    the value accumulated onto [acc], the number of digits read and the
    rest of the text; [None] when no digit starts the run. *)
Fixpoint digit_run (s : list ascii) (acc : Z) (count : Z) (started : bool)
  : option (Z * Z * list ascii) :=
  match s with
  | c :: s' =>
      match digit_of c with
      | Some d => digit_run s' (10 * acc + d) (count + 1) true
      | None =>
          if started && Ascii.eqb c "_" then
            match s' with
            | c' :: _ =>
                match digit_of c' with
                | Some _ => digit_run s' acc count true
                | None => Some (acc, count, s)
                end
            | [] => Some (acc, count, s)
            end
          else if started then Some (acc, count, s) else None
      end
  | [] => if started then Some (acc, count, []) else None
  end.

Definition split_sign (s : list ascii) : bool * list ascii :=
  match s with
  | "-"%char :: s' => (true, s')
  | "+"%char :: s' => (false, s')
  | _ => (false, s)
  end.

(** The most digits that [int] converts from a [str]
    ([sys.get_int_max_str_digits()], as the interpreter starts). *)
Definition int_max_str_digits : Z := 4300.

(** [int(s)] for a [str], base 10. A text of more digits than the limit is
    a [ValueError]; the sign and the underscores do not count. *)
Definition int_of_str (s : string) : outcome Z :=
  let '(neg, body) := split_sign (str_strip (list_ascii_of_string s)) in
  match digit_run body 0 0 false with
  | Some (v, count, []) =>
      if int_max_str_digits <? count then Raise ValueError
      else Ok (if neg then - v else v)
  | _ => Raise ValueError
  end.

(** Optional exponent part [e[+-]digits]; the whole text must be used up. *)
Definition exponent_part (s : list ascii) : option Z :=
  match s with
  | [] => Some 0
  | c :: s' =>
      if Ascii.eqb (lower c) "e" then
        let '(neg, ds) := split_sign s' in
        match digit_run ds 0 0 false with
        | Some (v, _, []) => Some (if neg then - v else v)
        | _ => None
        end
      else None
  end.

(** Mantissa [digits[.[digits]]] or [.digits], then the exponent: the
    decimal m * 10^e that the text denotes. *)
Definition decimal_of (s : list ascii) : option (Z * Z) :=
  match s with
  | "."%char :: s' =>
      match digit_run s' 0 0 false with
      | Some (m, n, rest) =>
          match exponent_part rest with Some e => Some (m, e - n) | None => None end
      | None => None
      end
  | _ =>
      match digit_run s 0 0 false with
      | Some (m, _, "."%char :: rest) =>
          match digit_run rest m 0 false with
          | Some (m', n, rest') =>
              match exponent_part rest' with Some e => Some (m', e - n) | None => None end
          | None =>
              match exponent_part rest with Some e => Some (m, e) | None => None end
          end
      | Some (m, _, rest) =>
          match exponent_part rest with Some e => Some (m, e) | None => None end
      | None => None
      end
  end.

(** [float(s)] for a [str]. *)
Definition float_of_str (s : string) : outcome float :=
  let '(neg, body) := split_sign (str_strip (list_ascii_of_string s)) in
  let sgn (f : float) := if neg then (- f)%float else f in
  let word := string_of_list_ascii (map lower body) in
  if String.eqb word "inf" || String.eqb word "infinity" then Ok (sgn infinity)
  else if String.eqb word "nan" then Ok nan
  else
    match decimal_of body with
    | Some (m, e) => Ok (sgn (float_of_decimal m e))
    | None => Raise ValueError
    end.

(** [float(x)] *)
Definition py_float (x : pyval) : outcome float :=
  match x with
  | PFloat f => Ok f
  | PInt z => float_of_int z
  | PBool b => Ok (if b then 1 else 0)%float
  | PStr s => float_of_str s
  | PNone | PList _ | PDict _ => Raise TypeError
  end.

(** [int(f)] for a [float]: truncation towards zero. *)
Definition int_of_float (f : float) : outcome Z :=
  match Prim2SF f with
  | S754_nan => Raise ValueError
  | S754_infinity _ => Raise OverflowError
  | S754_zero _ => Ok 0
  | S754_finite s m e =>
      let a := if 0 <=? e then Z.shiftl (Z.pos m) e else Z.shiftr (Z.pos m) (- e) in
      Ok (if s then - a else a)
  end.

(** [int(x)] *)
Definition py_int (x : pyval) : outcome Z :=
  match x with
  | PInt z => Ok z
  | PBool b => Ok (if b then 1 else 0)
  | PFloat f => int_of_float f
  | PStr s => int_of_str s
  | PNone | PList _ | PDict _ => Raise TypeError
  end.

(** [float(v)] for a stored weight. *)
Definition num_float (v : num) : outcome float :=
  match v with
  | NInt z => float_of_int z
  | NFloat f => Ok f
  end.

(** ** The store, the random source and the monad of the program *)

Definition ref := nat.

(** A weight table: a dict from symbol to weight. *)
Definition wdict := list (string * num).

Record world : Type := World {
  heap : list wdict;   (* the dict objects, by reference *)
  rng : list N         (* raw draws left in the module-level generator *)
}.

(** A computation runs in a state and ends with a value or an exception,
    in the state it has reached by then. *)
Definition M (A : Type) : Type := world -> outcome A * world.

#[global] Instance M_ret : MRet M := fun A a w => (Ok a, w).
#[global] Instance M_bind : MBind M :=
  fun A B k m w =>
    match m w with
    | (Ok a, w') => k a w'
    | (Raise e, w') => (Raise e, w')
    end.

Definition raise {A : Type} (e : exn) : M A := fun w => (Raise e, w).
Definition lift {A : Type} (x : outcome A) : M A := fun w => (x, w).

(** [for x in l: body] *)
Fixpoint for_each {A : Type} (l : list A) (body : A -> M unit) : M unit :=
  match l with
  | [] => mret tt
  | x :: l' => body x ;; for_each l' body
  end.

(** *** Dict objects *)

(** The object behind a reference ([NameError] stands for a name that is
    bound to nothing). *)
Definition deref (r : ref) : M wdict :=
  fun w => match heap w !! r with
           | Some d => (Ok d, w)
           | None => (Raise NameError, w)
           end.

(** A new object, after all the existing ones. *)
Definition alloc (d : wdict) : M ref :=
  fun w => (Ok (length (heap w)), World (heap w ++ [d]) (rng w)).

(** The object at [r] gets the entries [d]. *)
Definition assign (r : ref) (d : wdict) : M unit :=
  fun w => (Ok tt, World (<[r := d]> (heap w)) (rng w)).

(** [d.copy()]: a new object with the same entries. *)
Definition dict_copy (r : ref) : M ref :=
  d ← deref r; alloc d.

(** [d[key] = v], in place. *)
Definition dict_setitem (r : ref) (key : string) (v : num) : M unit :=
  d ← deref r; assign r (dict_set d key v).

(** [key in d] *)
Definition dict_contains (r : ref) (key : string) : M bool :=
  d ← deref r; mret (bool_decide (is_Some (dict_lookup d key))).

(** [d[key]] *)
Definition dict_getitem (r : ref) (key : string) : M num :=
  d ← deref r;
  match dict_lookup d key with
  | Some v => mret v
  | None => raise KeyError
  end.

Definition dict_keys (r : ref) : M (list string) :=
  d ← deref r; mret (map fst d).

Definition dict_values (r : ref) : M (list num) :=
  d ← deref r; mret (map snd d).

(** *** The [random] module *)

(** The next raw draw of the generator (0 once the sequence is used up). *)
Definition next_raw : M N :=
  fun w => match rng w with
           | [] => (Ok 0%N, w)
           | r :: rs => (Ok r, World (heap w) rs)
           end.

(** [random.random()]: a multiple of 2^-53 in [0, 1). *)
Definition random : M float :=
  r ← next_raw;
  mret (of_uint63 (Uint63.of_Z (Z.of_N r mod 2 ^ 53)) / 9007199254740992)%float.

(** [random.choice(seq)]: [IndexError] on an empty sequence, else the
    element at a drawn position below [len(seq)]. *)
Definition random_choice {A : Type} (seq : list A) : M A :=
  match seq with
  | [] => raise IndexError
  | _ =>
      r ← next_raw;
      match seq !! (N.to_nat r mod length seq)%nat with
      | Some x => mret x
      | None => raise IndexError
      end
  end.

(** [a + b] on weights: exact on two ints, in floating point otherwise. *)
Definition num_add (a b : num) : outcome num :=
  match a, b with
  | NInt x, NInt y => Ok (NInt (x + y))
  | _, _ => x ← num_float a; y ← num_float b; Ok (NFloat (x + y))
  end.

(** [itertools.accumulate(weights)] *)
Fixpoint accumulate_from (acc : num) (weights : list num) : outcome (list num) :=
  match weights with
  | [] => Ok []
  | v :: weights' =>
      s ← num_add acc v; rest ← accumulate_from s weights'; Ok (s :: rest)
  end.

Definition accumulate (weights : list num) : outcome (list num) :=
  match weights with
  | [] => Ok []
  | v :: weights' => rest ← accumulate_from v weights'; Ok (v :: rest)
  end.

(** [x < z] for a float and an int, which Python compares exactly. *)
Definition float_lt_int (x : float) (z : Z) : bool :=
  match Prim2SF x with
  | S754_nan => false
  | S754_infinity s => s
  | S754_zero _ => 0 <? z
  | S754_finite s m e =>
      let v := if s then Z.neg m else Z.pos m in
      if 0 <=? e then Z.shiftl v e <? z else v <? Z.shiftl z (- e)
  end.

Definition float_lt_num (x : float) (c : num) : bool :=
  match c with
  | NFloat f => (x <? f)%float
  | NInt z => float_lt_int x z
  end.

(** [bisect.bisect_right(a, x, lo, hi)]. The loop halves [hi - lo], so
    [hi - lo] rounds are enough; [fuel] running out is reported as [None],
    which [bisect_loop_total] shows never happens. *)
Fixpoint bisect_loop (fuel : nat) (a : list num) (x : float) (lo hi : nat)
  : option (outcome nat) :=
  if (lo <? hi)%nat then
    match fuel with
    | O => None
    | S fuel' =>
        let mid := ((lo + hi) / 2)%nat in
        match a !! mid with
        | Some c =>
            if float_lt_num x c then bisect_loop fuel' a x lo mid
            else bisect_loop fuel' a x (mid + 1)%nat hi
        | None => Some (Raise IndexError)
        end
    end
  else Some (Ok lo).

(** The search with the rounds it needs. *)
Definition bisect (a : list num) (x : float) (lo hi : nat) : outcome nat :=
  default (Raise IndexError) (bisect_loop (hi - lo) a x lo hi).

(** The list comprehension of [random.choices]: [k] independent draws. *)
Fixpoint draw_samples (population : list string) (cum_weights : list num)
    (total : float) (hi : nat) (k : nat) : M (list string) :=
  match k with
  | O => mret []
  | S k' =>
      u ← random;
      i ← lift (bisect cum_weights (u * total)%float 0 hi);
      s ← lift (match population !! i with
                | Some s => Ok s
                | None => Raise IndexError
                end);
      rest ← draw_samples population cum_weights total hi k';
      mret (s :: rest)
  end.

(** [total = cum_weights[-1] + 0.0] *)
Definition total_of (cum_weights : list num) : outcome float :=
  match last cum_weights with
  | Some c => x ← num_float c; Ok (x + 0)%float
  | None => Raise IndexError
  end.

(** [random.choices(population, weights=weights, k=k)], as CPython has it
    since 3.9: the weights are accumulated, a total that is not positive or
    not finite is a [ValueError], and each sample is found by bisection of
    the cumulative weights at [random() * total]. *)
Definition random_choices (population : list string) (weights : list num) (k : nat)
  : M (list string) :=
  let n := length population in
  cum_weights ← lift (accumulate weights);
  if negb (length cum_weights =? n)%nat then raise ValueError
  else
    total ← lift (total_of cum_weights);
    if (total <=? 0)%float then raise ValueError
    else if negb (is_finite total) then raise ValueError
    else draw_samples population cum_weights total (n - 1) k.

(** ** The program *)

(** The literal bound to the module-level name [DEFAULT_WEIGHTS]. *)
Definition default_table : wdict :=
  [("coin_1", NInt 25); ("coin_stack", NInt 10); ("coin_pile", NInt 5);
   ("gem_1", NInt 15); ("gem_many", NInt 5); ("bomb_1", NInt 15);
   ("bomb_atom", NInt 5); ("card_item", NInt 10); ("random_item", NInt 5)]%string.

(** The object that [DEFAULT_WEIGHTS] names is the first one the module
    creates. *)
Definition DEFAULT_WEIGHTS : ref := 0%nat.

(** The store once the module is loaded. *)
Definition module_heap : list wdict := [default_table].

(** What opening and decoding a JSON file gives: the file is not there
    ([FileNotFoundError]), reading or decoding fails with another exception,
    or a document is decoded. *)
Inductive source : Type :=
| Missing
| Broken (e : exn)
| Doc (data : pyval).

(** [load_config()], app.py lines 32-42. Only [FileNotFoundError] is
    caught (the message it prints is not modelled). *)
Definition load_config (config_json : source) : outcome pyval :=
  match config_json with
  | Doc data => Ok data
  | Missing => Ok PNone
  | Broken e => Raise e
  end.

(** The body of the loop of [load_symbol_weights], lines 63-72. *)
Definition merge_entry (merged : ref) (sym : string) (cfg : pyval) : M unit :=
  match cfg with
  | PDict c =>
      let raw := dict_get c "probability" (dict_get c "weight" PNone) in
      match py_float raw with
      | Ok w => if (w <? 0)%float then mret tt else dict_setitem merged sym (NFloat w)
      | Raise TypeError | Raise ValueError => mret tt
      | Raise e => raise e
      end
  | _ => mret tt
  end.

(** [sum(float(v) for v in merged.values() if isinstance(v, (int, float)))],
    line 75. Every stored weight is an [int] or a [float], so the filter
    keeps them all; the [int] 0 that [sum] starts from becomes 0.0 at the
    first addition, and [acc] is that running sum. *)
Fixpoint sum_floats (acc : float) (vals : list num) : outcome float :=
  match vals with
  | [] => Ok acc
  | v :: vals' => f ← num_float v; sum_floats (acc + f)%float vals'
  end.

(** [load_symbol_weights()], lines 45-78. Both handlers return a copy of
    the defaults; past them nothing is caught. *)
Definition load_symbol_weights (symbol_weights_json : source) : M ref :=
  match symbol_weights_json with
  | Missing => dict_copy DEFAULT_WEIGHTS
  | Broken _ => dict_copy DEFAULT_WEIGHTS
  | Doc data =>
      symbols ← lift (py_get (or_empty_dict data) "symbols" (PDict []));
      merged ← dict_copy DEFAULT_WEIGHTS;
      items ← lift (py_items symbols);
      for_each items (fun '(sym, cfg) => merge_entry merged sym cfg);;
      vals ← dict_values merged;
      total ← lift (sum_floats 0 vals);
      if (total <=? 0)%float then dict_copy DEFAULT_WEIGHTS else mret merged
  end.

(** Lines 91-96: the multiplier that is applied. *)
Definition coerce_multiplier (bomb_multiplier : pyval) : outcome float :=
  bm ← except_type_value (py_float bomb_multiplier) 1%float;
  Ok (if (bm <? 0)%float then 1%float else bm).

(** Lines 98-99 and 100-101, for one bomb symbol. *)
Definition scale_weight (weights_map : ref) (sym : string) (bm : float) : M unit :=
  dict_contains weights_map sym ≫= λ present : bool,
  if present then
    v ← dict_getitem weights_map sym;
    x ← lift (num_float v);
    dict_setitem weights_map sym (NFloat (x * bm))
  else mret tt.

(** Lines 91-101. *)
Definition apply_bomb_multiplier (weights_map : ref) (bomb_multiplier : pyval) : M unit :=
  bm ← lift (coerce_multiplier bomb_multiplier);
  if negb (bm =? 1)%float then
    scale_weight weights_map "bomb_1" bm;;
    scale_weight weights_map "bomb_atom" bm
  else mret tt.

(** [[i for i, sym in enumerate(strip) if sym not in bias_symbols]],
    counting from [i]. *)
Fixpoint available_from (i : nat) (bias_symbols strip : list string) : list nat :=
  match strip with
  | [] => []
  | sym :: strip' =>
      if bool_decide (sym ∈ bias_symbols)
      then available_from (S i) bias_symbols strip'
      else i :: available_from (S i) bias_symbols strip'
  end.

(** [l[i] = x] *)
Definition list_setitem {A : Type} (l : list A) (i : nat) (x : A) : outcome (list A) :=
  if (i <? length l)%nat then Ok (<[i := x]> l) else Raise IndexError.

(** Lines 114-117: one round of the rigging loop. *)
Definition rig_insert (bias_symbols strip : list string) (bias_sym : string)
  : M (list string) :=
  let available_indices := available_from 0 bias_symbols strip in
  match available_indices with
  | [] => mret strip
  | _ =>
      replace_idx ← random_choice available_indices;
      lift (list_setitem strip replace_idx bias_sym)
  end.

(** Lines 112-117: the loop over the symbols still to insert. *)
Fixpoint rig_loop (bias_symbols todo strip : list string) : M (list string) :=
  match todo with
  | [] => mret strip
  | bias_sym :: todo' =>
      strip' ← rig_insert bias_symbols strip bias_sym;
      rig_loop bias_symbols todo' strip'
  end.

(** Lines 110-119. *)
Definition rig (bias_symbols : option (list string)) (strip : list string)
  : M (list string) :=
  match bias_symbols with
  | Some (b :: bs) => rig_loop (b :: bs) (b :: bs) strip
  | Some [] | None => mret strip
  end.

(** [generate_weighted_strip(length, bias_symbols, bomb_multiplier)],
    lines 80-119. [length] is a repeat count; [bias_symbols] is [None] or a
    list of symbols, which is what the two routes pass. *)
Definition generate_weighted_strip (symbol_weights_json : source) (length : nat)
    (bias_symbols : option (list string)) (bomb_multiplier : pyval)
  : M (list string) :=
  weights_map ← load_symbol_weights symbol_weights_json;
  apply_bomb_multiplier weights_map bomb_multiplier;;
  population ← dict_keys weights_map;
  weights ← dict_values weights_map;
  strip ← random_choices population weights length;
  rig bias_symbols strip.

(** [get_reel_strip_length()], lines 122-130. *)
Definition get_reel_strip_length (config_json : source) : outcome Z :=
  config ← load_config config_json;
  length ← py_get (or_empty_dict config) "reel_strip_length" (PInt 6);
  length ← except_type_value (py_int length) 6;
  Ok (Z.max 3 length).

(** The state in which a request finds the program: the module is loaded,
    the generator will give [draws]. *)
Definition boot (draws : list N) : world := World module_heap draws.

(** ** Vocabulary of the statements *)

(** The total that [random.choices] checks: the last accumulated weight. *)
Definition table_total (d : wdict) : outcome float :=
  cum_weights ← accumulate (map snd d); total_of cum_weights.

(** The weight of an entry as a number: an [int] is the double nearest to
    it. *)
Definition weight_value (v : num) : float :=
  match v with
  | NInt z => SF2Prim (binary_normalize prec emax z 0 false)
  | NFloat f => f
  end.

(** The total weight of a table: the sum of its weights, in the order of
    the table. *)
Definition total_weight (d : wdict) : float :=
  fold_left (λ acc v, (acc + weight_value v)%float) (map snd d) 0%float.

(** Two floats that are the same number: the same value, or two zeros of
    either sign. *)
Definition same_number (a b : float) : Prop :=
  Prim2SF a = Prim2SF b ∨
  ∃ s s', Prim2SF a = S754_zero s ∧ Prim2SF b = S754_zero s'.

(** The effect of one round of the merging loop on the entries of the
    table it assigns into. *)
Definition merge_step (d : wdict) (sym : string) (cfg : pyval) : outcome wdict :=
  match cfg with
  | PDict c =>
      match py_float (dict_get c "probability" (dict_get c "weight" PNone)) with
      | Ok w => Ok (if (w <? 0)%float then d else dict_set d sym (NFloat w))
      | Raise TypeError | Raise ValueError => Ok d
      | Raise e => Raise e
      end
  | _ => Ok d
  end.

(** The effect of the whole loop: how it ends and the entries by then. *)
Fixpoint merge_all (d : wdict) (items : list (string * pyval)) : outcome unit * wdict :=
  match items with
  | [] => (Ok tt, d)
  | (sym, cfg) :: items' =>
      match merge_step d sym cfg with
      | Ok d' => merge_all d' items'
      | Raise e => (Raise e, d)
      end
  end.

(** The effect of lines 98-99 (or 100-101) on the entries of the table. *)
Definition scale_step (d : wdict) (sym : string) (bm : float) : outcome wdict :=
  match dict_lookup d sym with
  | None => Ok d
  | Some v => x ← num_float v; Ok (dict_set d sym (NFloat (x * bm)))
  end.

(** The effect of lines 91-101: how they end and the entries by then. *)
Definition bomb_scaled (d : wdict) (bomb_multiplier : pyval) : outcome unit * wdict :=
  match coerce_multiplier bomb_multiplier with
  | Raise e => (Raise e, d)
  | Ok bm =>
      if (bm =? 1)%float then (Ok tt, d)
      else
        match scale_step d "bomb_1" bm with
        | Raise e => (Raise e, d)
        | Ok d1 =>
            match scale_step d1 "bomb_atom" bm with
            | Raise e => (Raise e, d1)
            | Ok d2 => (Ok tt, d2)
            end
        end
  end.

(** A computation that leaves every dict object as it is. *)
Definition keeps_heap {A : Type} (m : M A) : Prop :=
  ∀ w, heap (m w).2 = heap w.

(** A computation whose result and use of the generator depend on the
    generator alone. *)
Definition rng_only {A : Type} (m : M A) : Prop :=
  ∀ w1 w2, rng w1 = rng w2 ->
           (m w1).1 = (m w2).1 ∧ rng (m w1).2 = rng (m w2).2.

(** What a call returns as a function of the entries of the loaded table
    and of the draws. *)
Definition strip_from_table (d : wdict) (length : nat)
    (bias_symbols : option (list string)) (bomb_multiplier : pyval)
    (draws : list N) : outcome (list string) :=
  let d' := (bomb_scaled d bomb_multiplier).2 in
  match (bomb_scaled d bomb_multiplier).1 with
  | Raise e => Raise e
  | Ok _ =>
      ((random_choices (map fst d') (map snd d') length ≫= rig bias_symbols)
         (World [] draws)).1
  end.

(** The two guards of [load_symbol_weights], as they are written: a weight
    that is kept did not test negative, and the table did not test as having
    a total at or under zero. *)
Definition weight_guarded (v : num) : Prop :=
  ∃ f, num_float v = Ok f ∧ (f <? 0)%float = false.

Definition table_guarded (d : wdict) : Prop :=
  Forall weight_guarded (map snd d) ∧
  ∃ total, sum_floats 0 (map snd d) = Ok total ∧ (total <=? 0)%float = false.




(** The call returns a table with the entries of the default one. *)
Definition returns_defaults (symbol_weights_json : source) (w : world) : Prop :=
  ∃ r w', load_symbol_weights symbol_weights_json w = (Ok r, w') ∧
          heap w' !! r = Some default_table.

(** The objects that existed in [w] are the same in [w']. *)
Definition preserved (w w' : world) : Prop :=
  ∀ r, (r < length (heap w))%nat -> heap w' !! r = heap w !! r.

(** [DEFAULT_WEIGHTS] is bound to the table the module defines. *)
Definition defaults_intact (w : world) : Prop :=
  heap w !! DEFAULT_WEIGHTS = Some default_table.

(** *** Concrete inputs *)

(** Six draws of one half: with the default weights each lands on the
    fourth symbol, [gem_1] (cumulative weights 25, 35, 40, 55 of 95). *)
Definition all_gem_draws : list N := replicate 6 (2 ^ 52)%N.



(** [{"symbols": {"wild": {"weight": "nan"}}}] *)
Definition nan_document : pyval :=
  PDict [("symbols", PDict [("wild", PDict [("weight", PStr "nan")])])].

(** [{"symbols": {"big_1": {"weight": 8.98846567431158e+307},
    "big_2": {"weight": 8.98846567431158e+307}}}]: two weights of 2^1023,
    each a finite double. *)
Definition huge_document : pyval :=
  PDict [("symbols", PDict
    [("big_1", PDict [("weight", PFloat 0x1p1023)]);
     ("big_2", PDict [("weight", PFloat 0x1p1023)])])].

(** ** The routes *)

(** The text of a query parameter, when the request has it, is what
    [request.args.get(name, default)] returns; strings are sequences of code
    points below 256. *)

(** [str.isspace] on one character. *)
Definition py_isspace (c : ascii) : bool :=
  let n := nat_of_ascii c in
  ((9 <=? n)%nat && (n <=? 13)%nat) || ((28 <=? n)%nat && (n <=? 32)%nat)
  || (n =? 133)%nat || (n =? 160)%nat.

Fixpoint py_lstrip (s : list ascii) : list ascii :=
  match s with
  | c :: s' => if py_isspace c then py_lstrip s' else s
  | [] => []
  end.

(** [s.strip()] *)
Definition py_strip (s : list ascii) : list ascii :=
  rev (py_lstrip (rev (py_lstrip s))).

(** [s.split(sep)] for a separator of one character. *)
Fixpoint split_on (sep : ascii) (s : list ascii) : list (list ascii) :=
  match s with
  | [] => [[]]
  | c :: s' =>
      if Ascii.eqb c sep then [] :: split_on sep s'
      else
        match split_on sep s' with
        | piece :: pieces => (c :: piece) :: pieces
        | [] => [[c]]
        end
  end.

(** [[s.strip() for s in pieces if s.strip()]] *)
Fixpoint stripped_pieces (pieces : list (list ascii)) : list string :=
  match pieces with
  | [] => []
  | s :: pieces' =>
      match py_strip s with
      | [] => stripped_pieces pieces'
      | c :: t => string_of_list_ascii (c :: t) :: stripped_pieces pieces'
      end
  end.

(** Line 167 of [generate_reel]. *)
Definition parse_bias_symbols (bias_symbols_raw : string) : list string :=
  stripped_pieces (split_on "," (list_ascii_of_string bias_symbols_raw)).

(** Lines 140-143: [int(request.args.get('reel_count', 3))] with its
    [except ValueError]. *)
Definition parse_reel_count (reel_count : option string) : outcome Z :=
  match reel_count with
  | None => Ok 3%Z
  | Some s =>
      match int_of_str s with
      | Raise ValueError => Ok 3%Z
      | r => r
      end
  end.

(** Lines 145-148 and 169-172: [float(request.args.get('bomb_multiplier',
    1.0))] with its [except ValueError]. *)
Definition parse_bomb_multiplier (bomb_multiplier : option string) : outcome float :=
  match bomb_multiplier with
  | None => Ok 1%float
  | Some s =>
      match float_of_str s with
      | Raise ValueError => Ok 1%float
      | r => r
      end
  end.

(** The list comprehension of line 152: one call per reel, each reading the
    weights file again. *)
Fixpoint generate_reels (symbol_weights_json : source) (strip_length : nat)
    (bomb_multiplier : pyval) (reel_count : nat) : M (list (list string)) :=
  match reel_count with
  | O => mret []
  | S reel_count' =>
      reel ← generate_weighted_strip symbol_weights_json strip_length None bomb_multiplier;
      reels ← generate_reels symbol_weights_json strip_length bomb_multiplier reel_count';
      mret (reel :: reels)
  end.

(** [init_game()], lines 136-155: the value under ["reels"] of the response.
    [range(reel_count)] is empty for a count under 1. *)
Definition init_game (config_json symbol_weights_json : source)
    (reel_count bomb_multiplier : option string) : M (list (list string)) :=
  reel_count ← lift (parse_reel_count reel_count);
  bomb_multiplier ← lift (parse_bomb_multiplier bomb_multiplier);
  strip_length ← lift (get_reel_strip_length config_json);
  generate_reels symbol_weights_json (Z.to_nat strip_length) (PFloat bomb_multiplier)
    (Z.to_nat reel_count).

(** [generate_reel()], lines 157-180: the value under ["strip"] of the
    response. *)
Definition generate_reel (config_json symbol_weights_json : source)
    (bias_symbols bomb_multiplier : option string) : M (list string) :=
  let bias_symbols_raw := default ""%string bias_symbols in
  let bias_symbols := parse_bias_symbols bias_symbols_raw in
  bomb_multiplier ← lift (parse_bomb_multiplier bomb_multiplier);
  strip_length ← lift (get_reel_strip_length config_json);
  generate_weighted_strip symbol_weights_json (Z.to_nat strip_length)
    (match bias_symbols with [] => None | _ => Some bias_symbols end)
    (PFloat bomb_multiplier).

(** [str.lower] on one character. *)
Definition py_lower (c : ascii) : ascii :=
  let n := nat_of_ascii c in
  if ((65 <=? n)%nat && (n <=? 90)%nat)
     || ((192 <=? n)%nat && (n <=? 222)%nat && negb (n =? 215)%nat)
  then ascii_of_nat (n + 32) else c.

(** [f.lower().endswith(('.mp4', '.webm', '.ogg'))] *)
Definition is_video (f : string) : bool :=
  let name := map py_lower (list_ascii_of_string f) in
  bool_decide (list_ascii_of_string ".mp4" `suffix_of` name)
  || bool_decide (list_ascii_of_string ".webm" `suffix_of` name)
  || bool_decide (list_ascii_of_string ".ogg" `suffix_of` name).

(** What [os.path.exists] and [os.listdir] find at [ad/video]: nothing, a
    path that cannot be listed, or the names of the entries. *)
Inductive directory : Type :=
| NoDirectory
| Unlistable (e : exn)
| Listing (files : list string).

(** [get_ad_videos()], lines 182-190: the response body. *)
Definition get_ad_videos (video_dir : directory) : outcome (list string) :=
  match video_dir with
  | NoDirectory => Ok []
  | Unlistable e => Raise e
  | Listing files => Ok (filter (λ f, is_video f = true) files)
  end.

(** ** Vocabulary of the further statements *)

(** What [load_symbol_weights] returns, as a function of the file: the
    entries of the returned table, or the exception. *)
Definition loaded_table (symbol_weights_json : source) : outcome wdict :=
  match symbol_weights_json with
  | Missing | Broken _ => Ok default_table
  | Doc data =>
      symbols ← py_get (or_empty_dict data) "symbols" (PDict []);
      items ← py_items symbols;
      match merge_all default_table items with
      | (Raise e, _) => Raise e
      | (Ok _, d) =>
          total ← sum_floats 0 (map snd d);
          Ok (if (total <=? 0)%float then default_table else d)
      end
  end.

(** An entry that the merging loop passes over: its value is not an object,
    or [float] rejects its weight, or the weight tests negative. *)
Definition entry_rejected (cfg : pyval) : Prop :=
  match cfg with
  | PDict c =>
      let raw := dict_get c "probability" (dict_get c "weight" PNone) in
      py_float raw = Raise TypeError ∨ py_float raw = Raise ValueError ∨
      ∃ f, py_float raw = Ok f ∧ (f <? 0)%float = true
  | _ => True
  end.

(** An entry whose weight is not an [int] too large for a [float]. *)
Definition entry_fits (cfg : pyval) : Prop :=
  match cfg with
  | PDict c =>
      py_float (dict_get c "probability" (dict_get c "weight" PNone))
      ≠ Raise OverflowError
  | _ => True
  end.

(** The weights that are [int]s are those of the default table: between 0
    and 25. *)
Definition default_sized (v : num) : Prop :=
  match v with
  | NInt z => (0 <= z <= 25)%Z
  | NFloat _ => True
  end.

Fixpoint count_ints (vals : list num) : nat :=
  match vals with
  | [] => 0
  | NInt _ :: vals' => S (count_ints vals')
  | NFloat _ :: vals' => count_ints vals'
  end.

(** A weight that is a float and is not finite: NaN or an infinity. *)
Definition not_finite_weight (v : num) : Prop :=
  ∃ f, v = NFloat f ∧ is_finite f = false.

(** A symbol as a client can list it: not empty, without a comma, without
    white space at either end. *)
Definition clean_symbol (s : string) : Prop :=
  let l := list_ascii_of_string s in
  l ≠ [] ∧ (","%char ∉ l) ∧ py_strip l = l.

(** [",".join(pieces)] *)
Fixpoint join_pieces (pieces : list (list ascii)) : list ascii :=
  match pieces with
  | [] => []
  | [piece] => piece
  | piece :: pieces' => piece ++ ","%char :: join_pieces pieces'
  end.

Definition join_comma (symbols : list string) : string :=
  string_of_list_ascii (join_pieces (map list_ascii_of_string symbols)).

(** An ending that [get_ad_videos] accepts: [.mp4], [.webm] or [.ogg] in any
    mix of upper and lower case. *)
Definition video_extension (ext : list ascii) : Prop :=
  map py_lower ext ∈
    [list_ascii_of_string ".mp4"; list_ascii_of_string ".webm";
     list_ascii_of_string ".ogg"].

(** The number of positions of the strip open to an insertion. *)
Definition eligible (bias_symbols strip : list string) : nat :=
  length (available_from 0 bias_symbols strip).

(** *** Further concrete inputs *)

(** [{"symbols": {"coin_1": {"weight": 40}, "wild": {"probability": 2.5},
    "gem_1": {"weight": -1}, "bomb_1": 7}}] *)
Definition override_document : pyval :=
  PDict [("symbols", PDict
    [("coin_1", PDict [("weight", PInt 40)]);
     ("wild", PDict [("probability", PFloat 2.5)]);
     ("gem_1", PDict [("weight", PInt (-1))]);
     ("bomb_1", PInt 7)])].

(** The document that leaves a positive weight to the two bomb symbols
    only. *)
Definition bombs_only_document : pyval :=
  PDict [("symbols", PDict
    [("coin_1", PDict [("weight", PInt 0)]);
     ("coin_stack", PDict [("weight", PInt 0)]);
     ("coin_pile", PDict [("weight", PInt 0)]);
     ("gem_1", PDict [("weight", PInt 0)]);
     ("gem_many", PDict [("weight", PInt 0)]);
     ("card_item", PDict [("weight", PInt 0)]);
     ("random_item", PDict [("weight", PInt 0)])])].

(** * Properties *)

Local Open Scope nat_scope.

(** ** Running the monad *)

Lemma world_eta (w : world) : World (heap w) (rng w) = w.
Proof. by destruct w. Qed.

Lemma bind_run {A B : Type} (m : M A) (k : A -> M B) (w : world) :
  (m ≫= k) w =
  match m w with
  | (Ok a, w') => k a w'
  | (Raise e, w') => (Raise e, w')
  end.
Proof. reflexivity. Qed.

Lemma ret_run {A : Type} (a : A) (w : world) : mret (M := M) a w = (Ok a, w).
Proof. reflexivity. Qed.

Lemma lift_run {A : Type} (x : outcome A) (w : world) : lift x w = (x, w).
Proof. reflexivity. Qed.

Lemma raise_run {A : Type} (e : exn) (w : world) : raise (A := A) e w = (Raise e, w).
Proof. reflexivity. Qed.

(** One step of symbolic execution. *)
Ltac run :=
  repeat (rewrite ?bind_run, ?lift_run, ?ret_run, ?raise_run; cbv beta iota).

Lemma next_raw_run (w : world) :
  next_raw w = (Ok (hd 0%N (rng w)), World (heap w) (tail (rng w))).
Proof.
  unfold next_raw. destruct w as [h [|r rs]]; reflexivity.
Qed.

(** [random.choice] on a non-empty sequence returns one of its elements and
    uses up one draw. *)
Lemma random_choice_run {A : Type} (seq : list A) (w : world) :
  seq ≠ [] ->
  ∃ i x, seq !! i = Some x ∧
         random_choice seq w = (Ok x, World (heap w) (tail (rng w))).
Proof.
  intros Hne. unfold random_choice.
  destruct seq as [|a seq']; [done|].
  set (seq := a :: seq') in *.
  rewrite bind_run, next_raw_run.
  set (i := N.to_nat (hd 0%N (rng w)) mod length seq).
  assert (Hi : i < length seq) by (apply Nat.mod_upper_bound; done).
  destruct (lookup_lt_is_Some_2 seq i Hi) as [x Hx].
  exists i, x. by rewrite Hx.
Qed.

(** ** The rigging pass *)

Lemma available_from_spec (bias_symbols strip : list string) (i0 j : nat) :
  j ∈ available_from i0 bias_symbols strip ↔
  ∃ s, i0 ≤ j ∧ strip !! (j - i0) = Some s ∧ s ∉ bias_symbols.
Proof.
  revert i0. induction strip as [|sym strip IH]; intros i0; simpl.
  - split; [by intros ?%elem_of_nil | by intros (? & _ & ? & _)].
  - assert (Hrest : j ∈ available_from (S i0) bias_symbols strip ↔
                    ∃ s, i0 < j ∧ (sym :: strip) !! (j - i0) = Some s ∧ s ∉ bias_symbols).
    { rewrite IH. split; intros (s & Hle & Hs & Hn); exists s; (split; [lia|]); split; try done.
      - by replace (j - i0) with (S (j - S i0)) by lia.
      - by replace (j - i0) with (S (j - S i0)) in Hs by lia. }
    case_bool_decide as Hin.
    + rewrite Hrest. split; intros (s & Hle & Hs & Hn); exists s.
      * split; [lia|done].
      * destruct (decide (j = i0)) as [->|]; [|split; [lia|done]].
        rewrite Nat.sub_diag in Hs. simpl in Hs. by simplify_eq.
    + rewrite elem_of_cons, Hrest. split.
      * intros [->|(s & Hle & Hs & Hn)].
        -- exists sym. rewrite Nat.sub_diag. done.
        -- exists s. split; [lia|done].
      * intros (s & Hle & Hs & Hn).
        destruct (decide (j = i0)) as [->|]; [by left|].
        right. exists s. split; [lia|done].
Qed.

(** No eligible position means every slot holds a bias symbol. *)
Lemma available_from_nil (bias_symbols strip : list string) :
  available_from 0 bias_symbols strip = [] ↔ Forall (λ s, s ∈ bias_symbols) strip.
Proof.
  rewrite Forall_lookup. split.
  - intros Hnil i s Hs. destruct (decide (s ∈ bias_symbols)) as [|Hn]; [done|].
    assert (i ∈ available_from 0 bias_symbols strip) as Hi.
    { apply available_from_spec. exists s. rewrite Nat.sub_0_r. split; [lia|done]. }
    rewrite Hnil in Hi. by apply elem_of_nil in Hi.
  - intros Hall. destruct (available_from 0 bias_symbols strip) as [|j l] eqn:E; [done|].
    assert (j ∈ available_from 0 bias_symbols strip) as Hj by (rewrite E; left).
    apply available_from_spec in Hj as (s & _ & Hs & Hn).
    rewrite Nat.sub_0_r in Hs. by apply Hall in Hs.
Qed.

(** What one round of the loop does: either nothing is eligible and the
    strip and the generator are left as they are, or one eligible position
    is overwritten and one draw is used up. *)
Lemma rig_insert_run (bias_symbols strip : list string) (bias_sym : string) (w : world) :
  (available_from 0 bias_symbols strip = [] ∧
   rig_insert bias_symbols strip bias_sym w = (Ok strip, w)) ∨
  (∃ replace_idx s,
     replace_idx ∈ available_from 0 bias_symbols strip ∧
     strip !! replace_idx = Some s ∧ (s ∉ bias_symbols) ∧
     (random_choice (available_from 0 bias_symbols strip) w
        = (Ok replace_idx, World (heap w) (tail (rng w)))) ∧
     (rig_insert bias_symbols strip bias_sym w
        = (Ok (<[replace_idx := bias_sym]> strip), World (heap w) (tail (rng w))))).
Proof.
  unfold rig_insert.
  destruct (available_from 0 bias_symbols strip) as [|j l] eqn:E; [by left|right].
  destruct (random_choice_run (j :: l) w) as (i & idx & Hidx & Hrun); [done|].
  assert (Hin : idx ∈ available_from 0 bias_symbols strip).
  { rewrite E. by eapply list_elem_of_lookup_2. }
  pose proof Hin as Hin'.
  apply available_from_spec in Hin' as (s & _ & Hs & Hn).
  rewrite Nat.sub_0_r in Hs.
  exists idx, s. rewrite <- E in *. repeat split; try done.
  rewrite E in *. rewrite bind_run, Hrun. unfold lift, list_setitem.
  apply lookup_lt_Some in Hs. by apply Nat.ltb_lt in Hs as ->.
Qed.

Lemma rig_insert_ok (bias_symbols strip : list string) (bias_sym : string) (w : world) :
  ∃ strip' w', rig_insert bias_symbols strip bias_sym w = (Ok strip', w') ∧
               length strip' = length strip ∧ heap w' = heap w.
Proof.
  destruct (rig_insert_run bias_symbols strip bias_sym w)
    as [[_ ->]|(idx & s & _ & _ & _ & _ & ->)].
  - by exists strip, w.
  - eexists _, _. split; [done|]. by rewrite length_insert.
Qed.

(** A slot that holds a bias symbol survives a round. *)
Lemma rig_insert_stable (bias_symbols strip : list string) (bias_sym : string)
    (w : world) (strip' : list string) (w' : world) (i : nat) (s : string) :
  rig_insert bias_symbols strip bias_sym w = (Ok strip', w') ->
  strip !! i = Some s -> s ∈ bias_symbols ->
  strip' !! i = Some s.
Proof.
  intros Hrun Hi Hs.
  destruct (rig_insert_run bias_symbols strip bias_sym w)
    as [[_ Heq]|(idx & s0 & _ & Hidx & Hn & _ & Heq)];
    rewrite Heq in Hrun; simplify_eq; [done|].
  rewrite list_lookup_insert_ne; [done|]. intros ->. by simplify_eq.
Qed.

Lemma rig_loop_ok (bias_symbols todo strip : list string) (w : world) :
  ∃ strip' w', rig_loop bias_symbols todo strip w = (Ok strip', w') ∧
               length strip' = length strip ∧ heap w' = heap w.
Proof.
  revert strip w. induction todo as [|bias_sym todo IH]; intros strip w; simpl.
  - by exists strip, w.
  - destruct (rig_insert_ok bias_symbols strip bias_sym w) as (s1 & w1 & H1 & Hl1 & Hh1).
    destruct (IH s1 w1) as (s2 & w2 & H2 & Hl2 & Hh2).
    exists s2, w2. rewrite bind_run, H1, H2. split; [done|]. split; congruence.
Qed.

Lemma rig_loop_stable (bias_symbols todo strip : list string) (w : world)
    (strip' : list string) (w' : world) (i : nat) (s : string) :
  rig_loop bias_symbols todo strip w = (Ok strip', w') ->
  strip !! i = Some s -> s ∈ bias_symbols ->
  strip' !! i = Some s.
Proof.
  revert strip w. induction todo as [|bias_sym todo IH]; intros strip w; simpl.
  - unfold mret, M_ret. intros; by simplify_eq.
  - rewrite bind_run. intros Hrun Hi Hs.
    destruct (rig_insert_ok bias_symbols strip bias_sym w) as (s1 & w1 & H1 & _).
    rewrite H1 in Hrun. eapply IH; [done| |done].
    by eapply rig_insert_stable.
Qed.

Lemma rig_loop_app (bias_symbols todo1 todo2 strip : list string) (w : world) :
  rig_loop bias_symbols (todo1 ++ todo2) strip w =
  (rig_loop bias_symbols todo1 strip ≫= rig_loop bias_symbols todo2) w.
Proof.
  revert strip w. induction todo1 as [|b todo1 IH]; intros strip w; simpl.
  - reflexivity.
  - rewrite !bind_run. destruct (rig_insert bias_symbols strip b w) as [[s1|e] w1]; [|done].
    rewrite IH. by rewrite bind_run.
Qed.

Lemma rig_ok (bias_symbols : option (list string)) (strip : list string) (w : world) :
  ∃ strip' w', rig bias_symbols strip w = (Ok strip', w') ∧
               length strip' = length strip ∧ heap w' = heap w.
Proof.
  destruct bias_symbols as [[|b bs]|]; [by exists strip, w| |by exists strip, w].
  apply rig_loop_ok.
Qed.

(** ** Sampling *)

Lemma bisect_loop_total (fuel : nat) (a : list num) (x : float) (lo hi : nat) :
  lo ≤ hi -> hi ≤ length a -> hi - lo ≤ fuel ->
  ∃ i, bisect_loop fuel a x lo hi = Some (Ok i) ∧ lo ≤ i ≤ hi.
Proof.
  revert lo hi. induction fuel as [|fuel IH]; intros lo hi Hle Hhi Hfuel;
    cbn -[Nat.div Nat.ltb].
  - assert (lo = hi) as -> by lia. rewrite Nat.ltb_irrefl. exists hi. split; [done|lia].
  - destruct (lo <? hi) eqn:Hlt.
    + apply Nat.ltb_lt in Hlt.
      pose proof (Nat.div_mod_eq (lo + hi) 2) as Hdm.
      pose proof (Nat.mod_upper_bound (lo + hi) 2 ltac:(lia)) as Hmod.
      set (mid := (lo + hi) / 2) in *.
      assert (lo ≤ mid < hi) as [Hlo Hmid] by lia.
      destruct (lookup_lt_is_Some_2 a mid ltac:(lia)) as [c ->].
      destruct (float_lt_num x c).
      * destruct (IH lo mid) as (i & -> & ?); [lia..|]. exists i. split; [done|lia].
      * destruct (IH (mid + 1) hi) as (i & -> & ?); [lia..|]. exists i. split; [done|lia].
    + exists lo. split; [done|]. apply Nat.ltb_ge in Hlt. lia.
Qed.

(** [hi - lo] rounds are enough: the search returns an index in [lo, hi]
    and reads inside the list. *)
Lemma bisect_total (a : list num) (x : float) (hi : nat) :
  hi ≤ length a -> ∃ i, bisect a x 0 hi = Ok i ∧ i ≤ hi.
Proof.
  intros Hhi. unfold bisect.
  destruct (bisect_loop_total (hi - 0) a x 0 hi) as (i & -> & ?); [lia..|].
  exists i. split; [done|lia].
Qed.

Lemma accumulate_from_length (acc : num) (weights cum : list num) :
  accumulate_from acc weights = Ok cum -> length cum = length weights.
Proof.
  revert acc cum. induction weights as [|v weights IH]; intros acc cum; simpl.
  - by intros [= <-].
  - destruct (num_add acc v) as [s|e]; simpl; [|done].
    destruct (accumulate_from s weights) as [rest|e] eqn:E; simpl; [|done].
    intros [= <-]. simpl. f_equal. by eapply IH.
Qed.

Lemma accumulate_length (weights cum : list num) :
  accumulate weights = Ok cum -> length cum = length weights.
Proof.
  destruct weights as [|v weights]; simpl.
  - by intros [= <-].
  - destruct (accumulate_from v weights) as [rest|e] eqn:E; simpl; [|done].
    intros [= <-]. simpl. f_equal. by eapply accumulate_from_length.
Qed.

Lemma random_run (w : world) :
  ∃ u, random w = (Ok u, World (heap w) (tail (rng w))).
Proof. unfold random. rewrite bind_run, next_raw_run. by eexists. Qed.

Lemma draw_samples_ok (population : list string) (cum_weights : list num)
    (total : float) (hi k : nat) (w : world) :
  hi < length population -> hi ≤ length cum_weights ->
  ∃ strip w', draw_samples population cum_weights total hi k w = (Ok strip, w') ∧
              length strip = k ∧ Forall (λ s, s ∈ population) strip ∧
              heap w' = heap w.
Proof.
  intros Hpop Hcum. revert w. induction k as [|k IH]; intros w; simpl.
  - exists [], w. by repeat split.
  - destruct (random_run w) as [u Hu].
    destruct (bisect_total cum_weights (u * total)%float hi Hcum) as (i & Hi & Hle).
    destruct (lookup_lt_is_Some_2 population i ltac:(lia)) as [s Hs].
    destruct (IH (World (heap w) (tail (rng w)))) as (rest & w' & Hrest & Hlen & Hall & Hheap).
    exists (s :: rest), w'.
    run. rewrite Hu. run. rewrite Hi. run. rewrite Hs. run. rewrite Hrest.
    repeat split; [simpl; by f_equal| |done].
    constructor; [by eapply list_elem_of_lookup_2|done].
Qed.

(** With a positive and finite total, [random.choices] returns [k] members
    of the population. *)
Lemma random_choices_ok (d : wdict) (total : float) (k : nat) (w : world) :
  table_total d = Ok total -> (total <=? 0)%float = false -> is_finite total = true ->
  ∃ strip w', random_choices (map fst d) (map snd d) k w = (Ok strip, w') ∧
              length strip = k ∧ Forall (λ s, s ∈ map fst d) strip ∧
              heap w' = heap w.
Proof.
  unfold table_total, random_choices. intros Htot Hpos Hfin.
  destruct (accumulate (map snd d)) as [cum|e] eqn:Hacc; simpl in Htot; [|done].
  apply accumulate_length in Hacc. rewrite length_map in Hacc.
  run. rewrite length_map, Hacc, Nat.eqb_refl. cbn [negb]. run.
  rewrite Htot. run. rewrite Hpos, Hfin. cbn [negb]. cbv iota.
  assert (0 < length d) as Hn.
  { unfold total_of in Htot. destruct cum; [done|]. simpl in Hacc. lia. }
  destruct (draw_samples_ok (map fst d) cum total (length d - 1) k w)
    as (strip & w' & ? & ? & ? & ?); [rewrite length_map; lia|lia|].
  by exists strip, w'.
Qed.

(** ** Dict objects in the store *)

Lemma deref_run (r : ref) (d : wdict) (w : world) :
  heap w !! r = Some d -> deref r w = (Ok d, w).
Proof. unfold deref. by intros ->. Qed.

Lemma deref_dangling (r : ref) (w : world) :
  heap w !! r = None -> deref r w = (Raise NameError, w).
Proof. unfold deref. by intros ->. Qed.

Lemma dict_copy_run (r : ref) (d : wdict) (w : world) :
  heap w !! r = Some d ->
  dict_copy r w = (Ok (length (heap w)), World (heap w ++ [d]) (rng w)).
Proof. intros H. unfold dict_copy. run. by rewrite (deref_run _ _ _ H). Qed.

Lemma dict_setitem_run (r : ref) (key : string) (v : num) (d : wdict) (w : world) :
  heap w !! r = Some d ->
  dict_setitem r key v w =
  (Ok tt, World (<[r := dict_set d key v]> (heap w)) (rng w)).
Proof. intros H. unfold dict_setitem. run. by rewrite (deref_run _ _ _ H). Qed.

Lemma dict_keys_run (r : ref) (d : wdict) (w : world) :
  heap w !! r = Some d -> dict_keys r w = (Ok (map fst d), w).
Proof. intros H. unfold dict_keys. run. by rewrite (deref_run _ _ _ H). Qed.

Lemma dict_values_run (r : ref) (d : wdict) (w : world) :
  heap w !! r = Some d -> dict_values r w = (Ok (map snd d), w).
Proof. intros H. unfold dict_values. run. by rewrite (deref_run _ _ _ H). Qed.

Lemma lookup_snoc_new {A : Type} (l : list A) (x : A) :
  (l ++ [x]) !! length l = Some x.
Proof. by rewrite list_lookup_middle. Qed.

Lemma insert_snoc_new {A : Type} (l : list A) (x y : A) :
  <[length l := y]> (l ++ [x]) = l ++ [y].
Proof.
  replace (length l) with (length l + 0) by lia. by rewrite insert_app_r.
Qed.

(** ** The merging loop *)

Lemma merge_entry_run (merged : ref) (sym : string) (cfg : pyval) (d : wdict) (w : world) :
  heap w !! merged = Some d ->
  merge_entry merged sym cfg w =
  match merge_step d sym cfg with
  | Ok d' => (Ok tt, World (<[merged := d']> (heap w)) (rng w))
  | Raise e => (Raise e, w)
  end.
Proof.
  intros H.
  assert (Hid : (Ok tt, World (<[merged := d]> (heap w)) (rng w)) = (Ok tt, w)).
  { by rewrite list_insert_id, world_eta. }
  unfold merge_entry, merge_step.
  destruct cfg as [| | | | | |c]; try by rewrite Hid.
  destruct (py_float _) as [x|[]]; try by rewrite ?Hid.
  destruct (x <? 0)%float; [by rewrite Hid|].
  by apply dict_setitem_run.
Qed.

Lemma for_each_merge_run (merged : ref) (items : list (string * pyval))
    (d : wdict) (w : world) :
  heap w !! merged = Some d ->
  for_each items (λ '(sym, cfg), merge_entry merged sym cfg) w =
  ((merge_all d items).1,
   World (<[merged := (merge_all d items).2]> (heap w)) (rng w)).
Proof.
  revert d w. induction items as [|[sym cfg] items IH]; intros d w H; simpl.
  - by rewrite list_insert_id, world_eta.
  - run. rewrite (merge_entry_run _ _ _ _ _ H).
    destruct (merge_step d sym cfg) as [d'|e]; simpl.
    + rewrite (IH d'); simpl.
      * by rewrite list_insert_insert_eq.
      * apply list_lookup_insert_eq. by eapply lookup_lt_Some.
    + by rewrite list_insert_id, world_eta.
Qed.

(** ** [load_symbol_weights], step by step *)

Lemma load_fallback_run (symbol_weights_json : source) (d0 : wdict) (w : world) :
  heap w !! DEFAULT_WEIGHTS = Some d0 ->
  (symbol_weights_json = Missing ∨ ∃ e, symbol_weights_json = Broken e) ->
  load_symbol_weights symbol_weights_json w =
  (Ok (length (heap w)), World (heap w ++ [d0]) (rng w)).
Proof.
  intros H [->|[e ->]]; simpl; by apply dict_copy_run.
Qed.

Lemma load_doc_run (data : pyval) (d0 : wdict) (w : world) :
  heap w !! DEFAULT_WEIGHTS = Some d0 ->
  load_symbol_weights (Doc data) w =
  match py_get (or_empty_dict data) "symbols" (PDict []) with
  | Raise e => (Raise e, w)
  | Ok symbols =>
      match py_items symbols with
      | Raise e => (Raise e, World (heap w ++ [d0]) (rng w))
      | Ok items =>
          let d := (merge_all d0 items).2 in
          let w1 := World (heap w ++ [d]) (rng w) in
          match (merge_all d0 items).1 with
          | Raise e => (Raise e, w1)
          | Ok _ =>
              match sum_floats 0 (map snd d) with
              | Raise e => (Raise e, w1)
              | Ok total =>
                  if (total <=? 0)%float
                  then (Ok (S (length (heap w))), World (heap w ++ [d; d0]) (rng w))
                  else (Ok (length (heap w)), w1)
              end
          end
      end
  end.
Proof.
  intros H. unfold load_symbol_weights. run.
  destruct (py_get _ _ _) as [symbols|e]; [|done]. run.
  rewrite (dict_copy_run _ _ _ H). run.
  destruct (py_items symbols) as [items|e]; [|done]. run.
  rewrite (for_each_merge_run _ _ d0); [|apply lookup_snoc_new].
  cbn [heap rng]. rewrite insert_snoc_new.
  destruct (merge_all d0 items) as [[[]|e] d]; cbn [fst snd]; [|done].
  run. rewrite (dict_values_run _ d); [|apply lookup_snoc_new]. run.
  destruct (sum_floats 0 (map snd d)) as [total|e]; [|done]. run.
  destruct (total <=? 0)%float; [|done].
  rewrite (dict_copy_run _ d0); cbn [heap rng].
  - rewrite length_app, Nat.add_1_r. by rewrite <- app_assoc.
  - apply lookup_app_l_Some. done.
Qed.

Lemma preserved_refl (w : world) : preserved w w.
Proof. by intros r _. Qed.

Lemma preserved_snoc (w : world) (l : list wdict) (g : list N) :
  preserved w (World (heap w ++ l) g).
Proof. intros r Hr. simpl. by apply lookup_app_l. Qed.

(** What [load_symbol_weights] does to the store, however it ends: the
    objects that existed are untouched, the generator is not used, and a
    returned reference is to a new object. *)
Lemma load_symbol_weights_frame (symbol_weights_json : source) (w : world) :
  preserved w (load_symbol_weights symbol_weights_json w).2 ∧
  rng (load_symbol_weights symbol_weights_json w).2 = rng w ∧
  ∀ r, (load_symbol_weights symbol_weights_json w).1 = Ok r ->
       length (heap w) ≤ r ∧ is_Some (heap (load_symbol_weights symbol_weights_json w).2 !! r).
Proof.
  destruct (heap w !! DEFAULT_WEIGHTS) as [d0|] eqn:H.
  - destruct symbol_weights_json as [|e|data].
    + rewrite (load_fallback_run _ d0); [|done|by left]. cbn [fst snd heap rng].
      split; [apply preserved_snoc|]. split; [done|].
      intros r [= <-]. split; [done|]. rewrite lookup_snoc_new. by eexists.
    + rewrite (load_fallback_run _ d0); [|done|by right; eexists]. cbn [fst snd heap rng].
      split; [apply preserved_snoc|]. split; [done|].
      intros r [= <-]. split; [done|]. rewrite lookup_snoc_new. by eexists.
    + rewrite (load_doc_run _ d0); [|done].
      destruct (py_get _ _ _) as [symbols|e]; [|by split; [apply preserved_refl|]].
      destruct (py_items symbols) as [items|e]; [|by split; [apply preserved_snoc|]].
      cbv zeta.
      destruct (merge_all d0 items) as [[[]|e] d]; cbn [fst snd];
        [|by split; [apply preserved_snoc|]].
      destruct (sum_floats 0 (map snd d)) as [total|e];
        [|by split; [apply preserved_snoc|]].
      destruct (total <=? 0)%float; cbn [fst snd heap rng].
      * split; [apply preserved_snoc|]. split; [done|].
        intros r [= <-]. split; [lia|].
        replace (heap w ++ [d; d0]) with ((heap w ++ [d]) ++ [d0]) by by rewrite <- app_assoc.
        replace (S (length (heap w))) with (length (heap w ++ [d]))
          by (rewrite length_app; simpl; lia).
        rewrite lookup_snoc_new. by eexists.
      * split; [apply preserved_snoc|]. split; [done|].
        intros r [= <-]. split; [done|]. rewrite lookup_snoc_new. by eexists.
  - assert (Hc : dict_copy DEFAULT_WEIGHTS w = (Raise NameError, w)).
    { unfold dict_copy. run. by rewrite (deref_dangling _ _ H). }
    destruct symbol_weights_json as [|e|data]; simpl; rewrite ?Hc;
      try by split; [apply preserved_refl|].
    run. destruct (py_get _ _ _) as [symbols|e]; run; rewrite ?Hc;
      by split; [apply preserved_refl|].
Qed.

(** ** Entries of a dict *)

Lemma dict_lookup_set_eq {V : Type} (d : list (string * V)) (key : string) (v : V) :
  dict_lookup (dict_set d key v) key = Some v.
Proof.
  induction d as [|[k x] d IH]; simpl.
  - by rewrite String.eqb_refl.
  - destruct (String.eqb k key) eqn:E; simpl; by rewrite E.
Qed.

Lemma dict_lookup_set_ne {V : Type} (d : list (string * V)) (key key' : string) (v : V) :
  key ≠ key' -> dict_lookup (dict_set d key v) key' = dict_lookup d key'.
Proof.
  intros Hne. induction d as [|[k x] d IH]; simpl.
  - by apply String.eqb_neq in Hne as ->.
  - destruct (String.eqb k key) eqn:E; simpl; [|by rewrite IH].
    apply String.eqb_eq in E as ->.
    by apply String.eqb_neq in Hne as ->.
Qed.

Lemma dict_set_keys {V : Type} (d : list (string * V)) (key : string) (v : V) :
  is_Some (dict_lookup d key) -> map fst (dict_set d key v) = map fst d.
Proof.
  induction d as [|[k x] d IH]; simpl.
  - by intros [? ?].
  - destruct (String.eqb k key) eqn:E; simpl; [done|]. intros H. by rewrite IH.
Qed.

Lemma dict_set_length_ge {V : Type} (d : list (string * V)) (key : string) (v : V) :
  length d ≤ length (dict_set d key v).
Proof.
  induction d as [|[k x] d IH]; simpl; [lia|].
  destruct (String.eqb k key); simpl; lia.
Qed.

Lemma dict_lookup_elem {V : Type} (d : list (string * V)) (key : string) (v : V) :
  dict_lookup d key = Some v -> (key, v) ∈ d.
Proof.
  induction d as [|[k x] d IH]; simpl; [done|].
  destruct (String.eqb_spec k key) as [->|Hne].
  - intros [= ->]. by left.
  - intros H. right. by apply IH.
Qed.

Lemma dict_lookup_keys {V : Type} (d : list (string * V)) (key : string) :
  key ∈ map fst d ↔ is_Some (dict_lookup d key).
Proof.
  induction d as [|[k x] d IH]; simpl.
  - split; [by intros ?%elem_of_nil|by intros [? ?]].
  - rewrite elem_of_cons, IH. destruct (String.eqb_spec k key) as [->|Hne].
    + split; [by eexists|by left].
    + split; [intros [?|?]; [congruence|done]|by right].
Qed.

(** ** The bomb multiplier *)

Lemma scale_weight_run (r : ref) (sym : string) (bm : float) (d : wdict) (w : world) :
  heap w !! r = Some d ->
  scale_weight r sym bm w =
  match scale_step d sym bm with
  | Ok d' => (Ok tt, World (<[r := d']> (heap w)) (rng w))
  | Raise e => (Raise e, w)
  end.
Proof.
  intros H. unfold scale_weight, scale_step, dict_contains, dict_getitem. run.
  rewrite (deref_run _ _ _ H). run.
  destruct (dict_lookup d sym) as [v|] eqn:E.
  - rewrite bool_decide_eq_true_2 by by eexists. run.
    rewrite (deref_run _ _ _ H). run. rewrite E. run.
    destruct (num_float v) as [x|e]; simpl; [|done]. run.
    by apply dict_setitem_run.
  - rewrite bool_decide_eq_false_2 by by intros [? ?]. run.
    by rewrite list_insert_id, world_eta.
Qed.

Lemma apply_bomb_multiplier_run (r : ref) (bomb_multiplier : pyval) (d : wdict) (w : world) :
  heap w !! r = Some d ->
  apply_bomb_multiplier r bomb_multiplier w =
  ((bomb_scaled d bomb_multiplier).1,
   World (<[r := (bomb_scaled d bomb_multiplier).2]> (heap w)) (rng w)).
Proof.
  intros H. unfold apply_bomb_multiplier, bomb_scaled. run.
  assert (Hid : World (<[r := d]> (heap w)) (rng w) = w)
    by by rewrite list_insert_id, world_eta.
  destruct (coerce_multiplier bomb_multiplier) as [bm|e]; cbn [fst snd]; [|by rewrite Hid].
  destruct (bm =? 1)%float; cbn [negb fst snd]; run; [by rewrite Hid|].
  rewrite (scale_weight_run _ _ _ _ _ H).
  destruct (scale_step d "bomb_1" bm) as [d1|e]; cbn [fst snd]; [|by rewrite Hid].
  rewrite (scale_weight_run _ _ _ d1); cbn [heap rng].
  - destruct (scale_step d1 "bomb_atom" bm) as [d2|e]; cbn [fst snd]; [|done].
    by rewrite list_insert_insert_eq.
  - apply list_lookup_insert_eq. by eapply lookup_lt_Some.
Qed.

(** ** Computations that do not touch the store *)

Lemma keeps_heap_bind {A B : Type} (m : M A) (k : A -> M B) :
  keeps_heap m -> (∀ a, keeps_heap (k a)) -> keeps_heap (m ≫= k).
Proof.
  intros Hm Hk w. rewrite bind_run. specialize (Hm w).
  destruct (m w) as [[a|e] w1]; simpl in *; [|done].
  by rewrite Hk.
Qed.

Lemma keeps_heap_ret {A : Type} (a : A) : keeps_heap (mret (M := M) a).
Proof. by intros w. Qed.

Lemma keeps_heap_lift {A : Type} (x : outcome A) : keeps_heap (lift x).
Proof. by intros w. Qed.

Lemma keeps_heap_raise {A : Type} (e : exn) : keeps_heap (raise (A := A) e).
Proof. by intros w. Qed.

Lemma keeps_heap_random : keeps_heap random.
Proof. intros w. destruct (random_run w) as [u ->]. done. Qed.

Lemma keeps_heap_draw_samples (population : list string) (cum_weights : list num)
    (total : float) (hi k : nat) :
  keeps_heap (draw_samples population cum_weights total hi k).
Proof.
  induction k as [|k IH]; simpl; [apply keeps_heap_ret|].
  apply keeps_heap_bind; [apply keeps_heap_random|intros u].
  apply keeps_heap_bind; [apply keeps_heap_lift|intros i].
  apply keeps_heap_bind; [apply keeps_heap_lift|intros s].
  apply keeps_heap_bind; [apply IH|intros rest]. apply keeps_heap_ret.
Qed.

Lemma keeps_heap_random_choices (population : list string) (weights : list num) (k : nat) :
  keeps_heap (random_choices population weights k).
Proof.
  unfold random_choices.
  apply keeps_heap_bind; [apply keeps_heap_lift|intros cum].
  destruct (negb _); [apply keeps_heap_raise|].
  apply keeps_heap_bind; [apply keeps_heap_lift|intros total].
  destruct (total <=? 0)%float; [apply keeps_heap_raise|].
  destruct (negb _); [apply keeps_heap_raise|].
  apply keeps_heap_draw_samples.
Qed.

Lemma keeps_heap_rig (bias_symbols : option (list string)) (strip : list string) :
  keeps_heap (rig bias_symbols strip).
Proof.
  intros w. destruct (rig_ok bias_symbols strip w) as (s & w' & -> & _ & ?). done.
Qed.

(** ** [generate_weighted_strip], step by step *)

(** Once the table is loaded, what is left is the adjustment of the bomb
    weights, the draw and the rigging pass. *)
Lemma generate_run (symbol_weights_json : source) (length : nat)
    (bias_symbols : option (list string)) (bomb_multiplier : pyval)
    (w w1 : world) (r : ref) (d : wdict) :
  load_symbol_weights symbol_weights_json w = (Ok r, w1) ->
  heap w1 !! r = Some d ->
  generate_weighted_strip symbol_weights_json length bias_symbols bomb_multiplier w =
  let d' := (bomb_scaled d bomb_multiplier).2 in
  let w2 := World (<[r := d']> (heap w1)) (rng w1) in
  match (bomb_scaled d bomb_multiplier).1 with
  | Raise e => (Raise e, w2)
  | Ok _ => (random_choices (map fst d') (map snd d') length ≫= rig bias_symbols) w2
  end.
Proof.
  intros Hload Hd. unfold generate_weighted_strip. run.
  rewrite Hload. run. rewrite (apply_bomb_multiplier_run _ _ d) by done.
  cbv zeta. set (d' := (bomb_scaled d bomb_multiplier).2).
  destruct (bomb_scaled d bomb_multiplier).1 as [[]|e]; [|done].
  assert (Hd' : heap (World (<[r := d']> (heap w1)) (rng w1)) !! r = Some d').
  { apply list_lookup_insert_eq. by eapply lookup_lt_Some. }
  run. rewrite (dict_keys_run _ _ _ Hd'). run. rewrite (dict_values_run _ _ _ Hd'). run.
  done.
Qed.

(** What [generate_weighted_strip] does to the store, however it ends. *)
Lemma generate_weighted_strip_frame (symbol_weights_json : source) (length : nat)
    (bias_symbols : option (list string)) (bomb_multiplier : pyval) (w : world) :
  preserved w
    (generate_weighted_strip symbol_weights_json length bias_symbols bomb_multiplier w).2.
Proof.
  unfold generate_weighted_strip. rewrite bind_run.
  destruct (load_symbol_weights_frame symbol_weights_json w) as (Hpres & _ & Hfresh).
  destruct (load_symbol_weights symbol_weights_json w) as [[r|e] w1]; [|done].
  cbn [fst snd] in *. destruct (Hfresh r eq_refl) as [Hr [d Hd]].
  run. rewrite (apply_bomb_multiplier_run _ _ d) by done.
  set (d' := (bomb_scaled d bomb_multiplier).2).
  set (w2 := World (<[r := d']> (heap w1)) (rng w1)).
  assert (Hw2 : preserved w w2).
  { intros r' Hr'. unfold w2. cbn [heap].
    rewrite list_lookup_insert_ne by lia. by apply Hpres. }
  destruct (bomb_scaled d bomb_multiplier).1 as [[]|e]; [|done].
  assert (Hd' : heap w2 !! r = Some d').
  { apply list_lookup_insert_eq. by eapply lookup_lt_Some. }
  run. rewrite (dict_keys_run _ _ _ Hd'). run. rewrite (dict_values_run _ _ _ Hd'). run.
  pose proof (keeps_heap_bind _ _
    (keeps_heap_random_choices (map fst d') (map snd d') length)
    (keeps_heap_rig bias_symbols) w2) as Hk.
  rewrite bind_run in Hk.
  intros r' Hr'. rewrite Hk. by apply Hw2.
Qed.

(** ** Computations that depend on the generator alone *)

Lemma rng_only_bind {A B : Type} (m : M A) (k : A -> M B) :
  rng_only m -> (∀ a, rng_only (k a)) -> rng_only (m ≫= k).
Proof.
  intros Hm Hk w1 w2 Hw. rewrite !bind_run.
  destruct (Hm w1 w2 Hw) as [H1 H2].
  destruct (m w1) as [[a|e] w1'], (m w2) as [[a'|e'] w2']; simpl in *; simplify_eq.
  - by apply Hk.
  - done.
Qed.

Lemma rng_only_ret {A : Type} (a : A) : rng_only (mret (M := M) a).
Proof. by intros w1 w2 Hw. Qed.

Lemma rng_only_lift {A : Type} (x : outcome A) : rng_only (lift x).
Proof. by intros w1 w2 Hw. Qed.

Lemma rng_only_raise {A : Type} (e : exn) : rng_only (raise (A := A) e).
Proof. by intros w1 w2 Hw. Qed.

Lemma rng_only_next_raw : rng_only next_raw.
Proof. intros w1 w2 Hw. rewrite !next_raw_run. simpl. by rewrite Hw. Qed.

Lemma rng_only_random : rng_only random.
Proof.
  unfold random. apply rng_only_bind; [apply rng_only_next_raw|intros r].
  apply rng_only_ret.
Qed.

Lemma rng_only_random_choice {A : Type} (seq : list A) : rng_only (random_choice seq).
Proof.
  unfold random_choice. destruct seq as [|a seq']; [apply rng_only_raise|].
  apply rng_only_bind; [apply rng_only_next_raw|intros r].
  destruct (_ !! _); [apply rng_only_ret|apply rng_only_raise].
Qed.

Lemma rng_only_draw_samples (population : list string) (cum_weights : list num)
    (total : float) (hi k : nat) :
  rng_only (draw_samples population cum_weights total hi k).
Proof.
  induction k as [|k IH]; simpl; [apply rng_only_ret|].
  apply rng_only_bind; [apply rng_only_random|intros u].
  apply rng_only_bind; [apply rng_only_lift|intros i].
  apply rng_only_bind; [apply rng_only_lift|intros s].
  apply rng_only_bind; [apply IH|intros rest]. apply rng_only_ret.
Qed.

Lemma rng_only_random_choices (population : list string) (weights : list num) (k : nat) :
  rng_only (random_choices population weights k).
Proof.
  unfold random_choices.
  apply rng_only_bind; [apply rng_only_lift|intros cum].
  destruct (negb _); [apply rng_only_raise|].
  apply rng_only_bind; [apply rng_only_lift|intros total].
  destruct (total <=? 0)%float; [apply rng_only_raise|].
  destruct (negb _); [apply rng_only_raise|].
  apply rng_only_draw_samples.
Qed.

Lemma rng_only_rig_insert (bias_symbols strip : list string) (bias_sym : string) :
  rng_only (rig_insert bias_symbols strip bias_sym).
Proof.
  unfold rig_insert. destruct (available_from 0 bias_symbols strip) as [|j l];
    [apply rng_only_ret|].
  apply rng_only_bind; [apply rng_only_random_choice|intros i]. apply rng_only_lift.
Qed.

Lemma rng_only_rig_loop (bias_symbols todo strip : list string) :
  rng_only (rig_loop bias_symbols todo strip).
Proof.
  revert strip. induction todo as [|b todo IH]; intros strip; simpl;
    [apply rng_only_ret|].
  apply rng_only_bind; [apply rng_only_rig_insert|intros s]. apply IH.
Qed.

Lemma rng_only_rig (bias_symbols : option (list string)) (strip : list string) :
  rng_only (rig bias_symbols strip).
Proof.
  destruct bias_symbols as [[|b bs]|]; try apply rng_only_ret. apply rng_only_rig_loop.
Qed.

(** What a call returns is decided by the entries of the table that
    [load_symbol_weights] hands over and by the draws. *)
Lemma generate_outcome (symbol_weights_json : source) (length : nat)
    (bias_symbols : option (list string)) (bomb_multiplier : pyval)
    (w w1 : world) (r : ref) (d : wdict) :
  load_symbol_weights symbol_weights_json w = (Ok r, w1) ->
  heap w1 !! r = Some d ->
  (generate_weighted_strip symbol_weights_json length bias_symbols bomb_multiplier w).1 =
  strip_from_table d length bias_symbols bomb_multiplier (rng w).
Proof.
  intros Hload Hd. rewrite (generate_run _ _ _ _ _ _ _ _ Hload Hd).
  unfold strip_from_table. cbv zeta.
  destruct (bomb_scaled d bomb_multiplier).1 as [[]|e]; [|done].
  pose proof (load_symbol_weights_frame symbol_weights_json w) as (_ & Hrng & _).
  rewrite Hload in Hrng. cbn [snd] in Hrng.
  eapply (rng_only_bind _ _ (rng_only_random_choices _ _ _) (rng_only_rig _)).
  done.
Qed.

(** ** Comparisons of floats *)

Lemma float_pos_not_le (t : float) :
  (0 <? t)%float = true -> (t <=? 0)%float = false.
Proof.
  rewrite FloatAxioms.ltb_spec, FloatAxioms.leb_spec. change (Prim2SF 0) with (S754_zero false).
  by destruct (Prim2SF t) as [s|s| |s m e]; try destruct s.
Qed.

Lemma float_nonneg_not_lt (t : float) :
  (0 <=? t)%float = true -> (t <? 0)%float = false.
Proof.
  rewrite FloatAxioms.ltb_spec, FloatAxioms.leb_spec. change (Prim2SF 0) with (S754_zero false).
  by destruct (Prim2SF t) as [s|s| |s m e]; try destruct s.
Qed.

(** ** A whole call *)

(** With a table whose adjusted total is positive and finite, a call goes
    through: the draw gives [length] keys of the table and the rigging pass
    keeps the length. *)
Lemma generate_ok (symbol_weights_json : source) (length : nat)
    (bias_symbols : option (list string)) (bomb_multiplier : pyval)
    (w w1 : world) (r : ref) (d d' : wdict) (total : float) :
  load_symbol_weights symbol_weights_json w = (Ok r, w1) ->
  heap w1 !! r = Some d ->
  bomb_scaled d bomb_multiplier = (Ok tt, d') ->
  table_total d' = Ok total -> (total <=? 0)%float = false -> is_finite total = true ->
  ∃ strip0 w2 strip w',
    Forall (λ s, s ∈ map fst d') strip0 ∧ List.length strip0 = length ∧
    rig bias_symbols strip0 w2 = (Ok strip, w') ∧
    List.length strip = length ∧
    generate_weighted_strip symbol_weights_json length bias_symbols bomb_multiplier w
      = (Ok strip, w').
Proof.
  intros Hload Hd Hbomb Htot Hpos Hfin.
  rewrite (generate_run _ _ _ _ _ _ _ _ Hload Hd), Hbomb. cbn [fst snd]. cbv zeta.
  set (w2 := World _ _).
  destruct (random_choices_ok d' total length w2 Htot Hpos Hfin)
    as (strip0 & w3 & Hdraw & Hlen & Hall & _).
  destruct (rig_ok bias_symbols strip0 w3) as (strip & w' & Hrig & Hlen' & _).
  exists strip0, w3, strip, w'. rewrite bind_run, Hdraw, Hrig.
  repeat split; try done. congruence.
Qed.

Lemma bomb_scaled_default (d : wdict) (bomb_multiplier : pyval) :
  coerce_multiplier bomb_multiplier = Ok 1%float ->
  bomb_scaled d bomb_multiplier = (Ok tt, d).
Proof. unfold bomb_scaled. by intros ->. Qed.

(** ** What the guards of [load_symbol_weights] establish *)

Lemma dict_set_Forall (P : num -> Prop) (d : wdict) (key : string) (v : num) :
  Forall P (map snd d) -> P v -> Forall P (map snd (dict_set d key v)).
Proof.
  intros Hd Hv. induction d as [|[k x] d IH]; simpl.
  - by constructor.
  - apply Forall_cons in Hd as [Hx Hd].
    destruct (String.eqb k key); simpl; constructor; auto.
Qed.

Lemma merge_step_guarded (d d' : wdict) (sym : string) (cfg : pyval) :
  Forall weight_guarded (map snd d) -> merge_step d sym cfg = Ok d' ->
  Forall weight_guarded (map snd d').
Proof.
  intros Hd. unfold merge_step.
  destruct cfg as [| | | | | |c]; try by intros [= <-].
  destruct (py_float _) as [x|[]] eqn:E; try done; try by intros [= <-].
  destruct (x <? 0)%float eqn:Hx; intros [= <-]; [done|].
  apply dict_set_Forall; [done|]. by exists x.
Qed.

Lemma merge_all_guarded (d : wdict) (items : list (string * pyval)) :
  Forall weight_guarded (map snd d) ->
  Forall weight_guarded (map snd (merge_all d items).2).
Proof.
  revert d. induction items as [|[sym cfg] items IH]; intros d Hd; simpl; [done|].
  destruct (merge_step d sym cfg) as [d'|e] eqn:E; [|done].
  apply IH. by eapply merge_step_guarded.
Qed.

Lemma default_table_guarded : table_guarded default_table.
Proof.
  split.
  - repeat constructor; by eexists.
  - by eexists.
Qed.

(** Whatever document is decoded, a table that is returned has passed both
    guards. *)
Lemma load_guards (symbol_weights_json : source) (w w1 : world) (r : ref) :
  defaults_intact w ->
  load_symbol_weights symbol_weights_json w = (Ok r, w1) ->
  ∃ d, heap w1 !! r = Some d ∧ table_guarded d.
Proof.
  intros H. destruct symbol_weights_json as [|e|data].
  - rewrite (load_fallback_run _ _ _ H) by by left. intros [= <- <-].
    exists default_table. split; [apply lookup_snoc_new|apply default_table_guarded].
  - rewrite (load_fallback_run _ _ _ H) by by right; eexists. intros [= <- <-].
    exists default_table. split; [apply lookup_snoc_new|apply default_table_guarded].
  - rewrite (load_doc_run _ _ _ H).
    destruct (py_get _ _ _) as [symbols|e]; [|done].
    destruct (py_items symbols) as [items|e]; [|done]. cbv zeta.
    pose proof (merge_all_guarded default_table items (proj1 default_table_guarded)) as Hg.
    destruct (merge_all default_table items) as [[[]|e] d]; cbn [fst snd] in *; [|done].
    destruct (sum_floats 0 (map snd d)) as [total|e] eqn:Hsum; [|done].
    destruct (total <=? 0)%float eqn:Hle; intros [= <- <-]; cbn [heap].
    + exists default_table. split; [|apply default_table_guarded].
      replace (heap w ++ [d; default_table]) with ((heap w ++ [d]) ++ [default_table])
        by by rewrite <- app_assoc.
      replace (S (length (heap w))) with (length (heap w ++ [d]))
        by (rewrite length_app; simpl; lia).
      apply lookup_snoc_new.
    + exists d. split; [apply lookup_snoc_new|]. split; [done|]. by exists total.
Qed.

(** ** A document of zero weights *)







(** ** What the conversions raise *)

Lemma float_of_str_raises (s : string) (e : exn) :
  float_of_str s = Raise e -> e = ValueError.
Proof.
  unfold float_of_str. destruct (split_sign _) as [neg body].
  destruct (_ || _); [done|]. destruct (String.eqb _ "nan"); [done|].
  destruct (decimal_of body) as [[m x]|]; [done|]. by intros [= <-].
Qed.

Lemma int_of_str_raises (s : string) (e : exn) :
  int_of_str s = Raise e -> e = ValueError.
Proof.
  unfold int_of_str. destruct (split_sign _) as [neg body].
  destruct (digit_run body 0 0 false) as [[[v n] [|c rest]]|];
    try destruct (int_max_str_digits <? n)%Z; try done; by intros [= <-].
Qed.

Lemma py_float_raises (x : pyval) (e : exn) :
  py_float x = Raise e -> e = TypeError ∨ e = ValueError ∨ e = OverflowError.
Proof.
  destruct x; simpl; try (intros [= <-]; by auto); try done.
  - unfold float_of_int. destruct (is_infinity _); [|done]. intros [= <-]. by auto.
  - intros ?%float_of_str_raises. by auto.
Qed.

(** * The claims *)

(** C1 (the code departs from it). The claim: when [bias_symbols] has at
    most [length] entries, all distinct, the returned strip contains each of
    them. The docstring promises one insertion per listed symbol, but a slot
    that the random draw filled with a bias symbol is not eligible either:
    with [bias_symbols = ["gem_1", "bomb_1"]], [length = 6] and six draws
    that all give [gem_1], no position is eligible, both insertions are
    skipped and the strip holds no [bomb_1]. *)
Theorem bias_symbol_left_out :
  let bias_symbols := ["gem_1"; "bomb_1"] in
  ∃ strip w',
    generate_weighted_strip Missing 6 (Some bias_symbols) (PFloat 1) (boot all_gem_draws)
      = (Ok strip, w') ∧
    length bias_symbols ≤ 6 ∧ NoDup bias_symbols ∧
    "bomb_1" ∈ bias_symbols ∧ "bomb_1" ∉ strip.
Proof.
  eexists _, _. split; [by vm_compute|]. cbv zeta.
  split; [simpl; lia|].
  split; [apply (bool_decide_unpack _); by vm_compute|].
  split; apply (bool_decide_unpack _); by vm_compute.
Qed.

(** What [get_reel_strip_length] returns where it returns: 6 when the file
    is absent, when the key is missing, when the value is the string "abc"
    or is null; [max(3, int(v))] for a number [v], so 3 for 1. *)
Lemma reel_strip_length_cases :
  get_reel_strip_length Missing = Ok 6%Z ∧
  get_reel_strip_length (Doc (PDict [("reel_count", PInt 5)])) = Ok 6%Z ∧
  get_reel_strip_length (Doc (PDict [("reel_strip_length", PStr "abc")])) = Ok 6%Z ∧
  get_reel_strip_length (Doc (PDict [("reel_strip_length", PNone)])) = Ok 6%Z ∧
  get_reel_strip_length (Doc (PDict [("reel_strip_length", PInt 1)])) = Ok 3%Z ∧
  (∀ v, get_reel_strip_length (Doc (PDict [("reel_strip_length", PInt v)]))
        = Ok (Z.max 3 v)) ∧
  (∀ f v, int_of_float f = Ok v ->
          get_reel_strip_length (Doc (PDict [("reel_strip_length", PFloat f)]))
          = Ok (Z.max 3 v)).
Proof.
  repeat split; try done.
  intros f v Hf. unfold get_reel_strip_length. simpl. by rewrite Hf.
Qed.

(** C3 (the code departs from it). The claim: whatever the state of the
    configuration file, absent, unreadable or malformed among them,
    [get_reel_strip_length] returns 6 without raising. [load_config] catches
    [FileNotFoundError] only, so a file that cannot be read or decoded makes
    the call raise, where [load_symbol_weights] catches every exception and
    falls back on the same input. *)
Theorem unreadable_config_raises (e : exn) :
  get_reel_strip_length (Broken e) = Raise e ∧
  (load_symbol_weights (Broken e) (boot [])).1 = Ok 1.
Proof. by split. Qed.

(** C4 (the code departs from it). The claim: every weight of a returned
    table is a non-negative number and their sum is strictly positive. A
    weight that coerces to NaN passes both guards, since [nan < 0] and
    [nan <= 0] are false: for [{"symbols": {"wild": {"weight": "nan"}}}]
    the returned table maps [wild] to NaN, which is not non-negative, its
    sum is NaN, which is not positive, and [random.choices] then raises, the
    exception the second guard is there to avoid. *)
Theorem nan_weight_is_kept :
  ∃ r w' d total,
    load_symbol_weights (Doc nan_document) (boot []) = (Ok r, w') ∧
    heap w' !! r = Some d ∧
    dict_lookup d "wild" = Some (NFloat nan) ∧
    (0 <=? nan)%float = false ∧
    sum_floats 0 (map snd d) = Ok total ∧
    (0 <? total)%float = false ∧
    (generate_weighted_strip (Doc nan_document) 6 None (PFloat 1) (boot [])).1
      = Raise ValueError.
Proof. eexists _, _, _, _. by vm_compute. Qed.

(** C6, as the claim states it, fails: the [int] -10^400 is negative, yet it
    is not normalized to 1.0: [float] raises [OverflowError], which the
    handler of lines 93-94 does not name, and the call ends with it. And
    the text [nan], which is not a number, is not normalized either: it is
    neither negative nor equal to 1.0, so the bomb weights are multiplied
    by it and the call ends in the [ValueError] of [random.choices]. *)
Lemma huge_multiplier_not_normalized :
  let w := World [default_table; default_table] [] in
  ((- 10 ^ 400 < 0)%Z ∧
   coerce_multiplier (PInt (- 10 ^ 400)) ≠ Ok 1%float ∧
   apply_bomb_multiplier 1 (PInt (- 10 ^ 400)) w = (Raise OverflowError, w) ∧
   (generate_weighted_strip Missing 6 None (PInt (- 10 ^ 400)) (boot [])).1
     = Raise OverflowError) ∧
  (py_float (PStr "nan") = Ok nan ∧ is_nan nan = true ∧
   coerce_multiplier (PStr "nan") ≠ Ok 1%float ∧
   apply_bomb_multiplier 1 (PStr "nan") w ≠ (Ok tt, w) ∧
   (generate_weighted_strip Missing 6 None (PStr "nan") (boot [])).1 = Raise ValueError).
Proof.
  split.
  - split; [done|]. split; [by vm_compute|]. split; by vm_compute.
  - split; [by vm_compute|]. split; [done|]. split; [by vm_compute|]. split; by vm_compute.
Qed.

(** C6 (amended). [float] returns a value for the multiplier or raises
    [TypeError], [ValueError] or [OverflowError]. A multiplier on which it
    raises [TypeError] or [ValueError], or a negative one, is normalized to
    1.0 and no weight changes; a multiplier equal to 1.0 changes no weight;
    every other value, which is a non-negative number other than 1.0 or
    NaN, multiplies the weights of [bomb_1] and [bomb_atom], where the
    table has them, and leaves every other weight, and the keys, as they
    are. An [int] beyond the doubles, negative or not, is not normalized:
    the [OverflowError] propagates and no weight changes. *)
Theorem bomb_multiplier_adjustment (r : ref) (bomb_multiplier : pyval)
    (d : wdict) (w : world) :
  heap w !! r = Some d ->
  Forall (λ v, ∃ x, num_float v = Ok x) (map snd d) ->
  (py_float bomb_multiplier = Raise TypeError ∨
   py_float bomb_multiplier = Raise ValueError ∨
   py_float bomb_multiplier = Raise OverflowError ∨
   ∃ f, py_float bomb_multiplier = Ok f ∧
        ((f <? 0)%float = true ∨ (f =? 1)%float = true ∨
         ((f <? 0)%float = false ∧ (f =? 1)%float = false))) ∧
  ((py_float bomb_multiplier = Raise TypeError ∨
    py_float bomb_multiplier = Raise ValueError ∨
    ∃ f, py_float bomb_multiplier = Ok f ∧ (f <? 0)%float = true) ->
   coerce_multiplier bomb_multiplier = Ok 1%float ∧
   apply_bomb_multiplier r bomb_multiplier w = (Ok tt, w)) ∧
  (∀ bm, py_float bomb_multiplier = Ok bm -> (bm =? 1)%float = true ->
   apply_bomb_multiplier r bomb_multiplier w = (Ok tt, w)) ∧
  (∀ bm, py_float bomb_multiplier = Ok bm ->
         (bm <? 0)%float = false -> (bm =? 1)%float = false ->
   ∃ d', apply_bomb_multiplier r bomb_multiplier w
           = (Ok tt, World (<[r := d']> (heap w)) (rng w)) ∧
         map fst d' = map fst d ∧
         ∀ k v, dict_lookup d k = Some v ->
                if bool_decide (k = "bomb_1" ∨ k = "bomb_atom")
                then ∃ x, num_float v = Ok x ∧ dict_lookup d' k = Some (NFloat (x * bm))
                else dict_lookup d' k = Some v) ∧
  (py_float bomb_multiplier = Raise OverflowError ->
   coerce_multiplier bomb_multiplier = Raise OverflowError ∧
   apply_bomb_multiplier r bomb_multiplier w = (Raise OverflowError, w)).
Proof.
  intros Hd Hall.
  assert (Hconv : ∀ k v, dict_lookup d k = Some v -> ∃ x, num_float v = Ok x).
  { intros k v Hk. rewrite Forall_forall in Hall. apply Hall.
    apply list_elem_of_fmap. exists (k, v). split; [done|]. by apply dict_lookup_elem. }
  assert (Hid : World (<[r := d]> (heap w)) (rng w) = w)
    by by rewrite list_insert_id, world_eta.
  split; [|split; [|split; [|split]]].
  - destruct (py_float bomb_multiplier) as [f|e] eqn:E.
    + right. right. right. exists f. split; [done|].
      destruct (f <? 0)%float; [by left|]. destruct (f =? 1)%float; auto.
    + destruct (py_float_raises _ _ E) as [-> | [-> | ->]]; auto.
  - intros Hbad.
    assert (Hc : coerce_multiplier bomb_multiplier = Ok 1%float).
    { unfold coerce_multiplier.
      destruct Hbad as [-> | [-> | (f & -> & Hneg)]]; simpl; [done|done|by rewrite Hneg]. }
    split; [done|].
    rewrite (apply_bomb_multiplier_run _ _ _ _ Hd), (bomb_scaled_default _ _ Hc).
    cbn [fst snd]. by rewrite Hid.
  - intros bm Hbm Hone.
    rewrite (apply_bomb_multiplier_run _ _ _ _ Hd). unfold bomb_scaled, coerce_multiplier.
    rewrite Hbm. cbn [except_type_value mbind outcome_bind].
    destruct (bm <? 0)%float; [change (1 =? 1)%float with true|rewrite Hone];
      cbn [fst snd]; by rewrite Hid.
  - intros bm Hbm Hnonneg Hne.
    rewrite (apply_bomb_multiplier_run _ _ _ _ Hd). unfold bomb_scaled, coerce_multiplier.
    rewrite Hbm. cbn [except_type_value mbind outcome_bind].
    rewrite Hnonneg, Hne.
    assert (Hstep : ∀ t sym, (∀ k v, dict_lookup t k = Some v -> ∃ x, num_float v = Ok x) ->
              ∃ t', scale_step t sym bm = Ok t' ∧ map fst t' = map fst t ∧
                    ∀ k v, dict_lookup t k = Some v ->
                      if bool_decide (k = sym)
                      then ∃ x, num_float v = Ok x ∧ dict_lookup t' k = Some (NFloat (x * bm))
                      else dict_lookup t' k = Some v).
    { intros t sym Ht. unfold scale_step.
      destruct (dict_lookup t sym) as [v0|] eqn:E.
      - destruct (Ht _ _ E) as [x0 Hx0]. rewrite Hx0. eexists. split; [done|].
        split; [by apply dict_set_keys|].
        intros k v Hk. case_bool_decide as Hks.
        + subst k. simplify_eq. exists x0. split; [done|apply dict_lookup_set_eq].
        + rewrite dict_lookup_set_ne by done. done.
      - exists t. repeat split; try done.
        intros k v Hk. case_bool_decide as Hks; [congruence|done]. }
    destruct (Hstep d "bomb_1" Hconv) as (d1 & -> & Hkeys1 & Hd1).
    assert (Hconv1 : ∀ k v, dict_lookup d1 k = Some v -> ∃ x, num_float v = Ok x).
    { intros k v Hk. destruct (dict_lookup d k) as [v0|] eqn:E.
      - specialize (Hd1 _ _ E). case_bool_decide.
        + destruct Hd1 as (x & _ & Hx). rewrite Hx in Hk. simplify_eq. by eexists.
        + rewrite Hd1 in Hk. simplify_eq. by eapply Hconv.
      - assert (is_Some (dict_lookup d k)) as [? ?]; [|congruence].
        apply dict_lookup_keys. rewrite <- Hkeys1. apply dict_lookup_keys. by eexists. }
    destruct (Hstep d1 "bomb_atom" Hconv1) as (d2 & -> & Hkeys2 & Hd2).
    cbn [fst snd]. exists d2. split; [done|]. split; [congruence|].
    intros k v Hk. specialize (Hd1 _ _ Hk).
    destruct (decide (k = "bomb_1")) as [->|Hne1].
    + rewrite bool_decide_eq_true_2 in Hd1 by done. destruct Hd1 as (x & Hx & Hl).
      rewrite bool_decide_eq_true_2 by by left.
      specialize (Hd2 _ _ Hl). rewrite bool_decide_eq_false_2 in Hd2 by done.
      by exists x.
    + rewrite bool_decide_eq_false_2 in Hd1 by done.
      specialize (Hd2 _ _ Hd1). case_bool_decide as Hatom.
      * rewrite bool_decide_eq_true_2 by by right. done.
      * rewrite bool_decide_eq_false_2 by (intros [?|?]; done). done.
  - intros Hover.
    assert (Hc : coerce_multiplier bomb_multiplier = Raise OverflowError).
    { unfold coerce_multiplier. by rewrite Hover. }
    split; [done|].
    rewrite (apply_bomb_multiplier_run _ _ _ _ Hd). unfold bomb_scaled. rewrite Hc.
    cbn [fst snd]. by rewrite Hid.
Qed.

Lemma bomb_multiplier_adjustment_witness :
  let w := World [default_table; default_table] [] in
  (coerce_multiplier (PStr "high") = Ok 1%float ∧
   apply_bomb_multiplier 1 (PStr "high") w = (Ok tt, w)) ∧
  apply_bomb_multiplier 1 (PInt 1) w = (Ok tt, w) ∧
  (∃ d', apply_bomb_multiplier 1 (PFloat 2) w
           = (Ok tt, World (<[1 := d']> (heap w)) (rng w)) ∧
         map fst d' = map fst default_table ∧
         ∀ k v, dict_lookup default_table k = Some v ->
                if bool_decide (k = "bomb_1" ∨ k = "bomb_atom")
                then ∃ x, num_float v = Ok x ∧ dict_lookup d' k = Some (NFloat (x * 2))
                else dict_lookup d' k = Some v) ∧
  (∃ d', apply_bomb_multiplier 1 (PStr "nan") w
           = (Ok tt, World (<[1 := d']> (heap w)) (rng w)) ∧
         map fst d' = map fst default_table ∧
         ∀ k v, dict_lookup default_table k = Some v ->
                if bool_decide (k = "bomb_1" ∨ k = "bomb_atom")
                then ∃ x, num_float v = Ok x ∧ dict_lookup d' k = Some (NFloat (x * nan))
                else dict_lookup d' k = Some v) ∧
  (coerce_multiplier (PInt (10 ^ 400)) = Raise OverflowError ∧
   apply_bomb_multiplier 1 (PInt (10 ^ 400)) w = (Raise OverflowError, w)).
Proof.
  assert (Hall : Forall (λ v, ∃ x, num_float v = Ok x) (map snd default_table))
    by (repeat constructor; by eexists).
  pose (w := World [default_table; default_table] []).
  split; [|split; [|split; [|split]]].
  - apply (proj1 (proj2 (bomb_multiplier_adjustment 1 (PStr "high") default_table w
                           eq_refl Hall))).
    right. left. reflexivity.
  - apply (proj1 (proj2 (proj2 (bomb_multiplier_adjustment 1 (PInt 1) default_table w
                                  eq_refl Hall))) 1%float); reflexivity.
  - apply (proj1 (proj2 (proj2 (proj2 (bomb_multiplier_adjustment 1 (PFloat 2)
                                         default_table w eq_refl Hall)))) 2%float);
      reflexivity.
  - apply (proj1 (proj2 (proj2 (proj2 (bomb_multiplier_adjustment 1 (PStr "nan")
                                         default_table w eq_refl Hall)))) nan);
      reflexivity.
  - apply (proj2 (proj2 (proj2 (proj2 (bomb_multiplier_adjustment 1 (PInt (10 ^ 400))
                                         default_table w eq_refl Hall))))).
    by vm_compute.
Defined.

(** C7. Whatever the list of bias symbols, longer than the strip or not,
    the rigging pass ends without an exception, [IndexError] included, and
    keeps the length of the strip; an insertion that finds no eligible
    position leaves the strip and the generator as they are; and a call
    whose draw goes through returns exactly [length] entries. *)
Theorem rigging_pass_is_safe :
  (∀ bias_symbols strip w,
     ∃ strip' w', rig bias_symbols strip w = (Ok strip', w') ∧
                  length strip' = length strip) ∧
  (∀ bias_symbols strip bias_sym w,
     available_from 0 bias_symbols strip = [] ->
     rig_insert bias_symbols strip bias_sym w = (Ok strip, w)) ∧
  (∀ symbol_weights_json n bias_symbols bomb_multiplier w w1 r d d' total,
     load_symbol_weights symbol_weights_json w = (Ok r, w1) ->
     heap w1 !! r = Some d ->
     bomb_scaled d bomb_multiplier = (Ok tt, d') ->
     table_total d' = Ok total -> (0 <? total)%float = true -> is_finite total = true ->
     ∃ strip w',
       generate_weighted_strip symbol_weights_json n bias_symbols bomb_multiplier w
         = (Ok strip, w') ∧
       length strip = n).
Proof.
  split; [|split].
  - intros bias_symbols strip w.
    destruct (rig_ok bias_symbols strip w) as (strip' & w' & ? & ? & _).
    by exists strip', w'.
  - intros bias_symbols strip bias_sym w Hnil. unfold rig_insert. by rewrite Hnil.
  - intros src n bias_symbols bmv w w1 r d d' total Hload Hd Hbomb Htot Hpos Hfin.
    destruct (generate_ok src n bias_symbols bmv w w1 r d d' total)
      as (strip0 & w2 & strip & w' & _ & _ & _ & Hlen & Hgen);
      [done|done|done|done|by apply float_pos_not_le|done|].
    by exists strip, w'.
Qed.

Lemma rigging_pass_is_safe_witness :
  (∃ strip' w',
     rig (Some ["a"; "b"; "c"; "d"; "e"]) ["coin_1"; "gem_1"; "a"] (boot [5; 3; 8]%N)
       = (Ok strip', w') ∧
     length strip' = 3) ∧
  rig_insert ["a"; "b"] ["a"; "b"; "a"] "b" (boot [7]%N) = (Ok ["a"; "b"; "a"], boot [7]%N) ∧
  (∃ strip w',
     generate_weighted_strip Missing 3 (Some ["a"; "b"; "c"; "d"; "e"]) (PFloat 0)
       (boot [1; 2; 3; 4; 5; 6; 7; 8]%N) = (Ok strip, w') ∧
     length strip = 3).
Proof.
  split; [|split].
  - apply (proj1 rigging_pass_is_safe).
  - apply (proj1 (proj2 rigging_pass_is_safe)). reflexivity.
  - apply (proj2 (proj2 rigging_pass_is_safe) Missing 3 (Some ["a"; "b"; "c"; "d"; "e"])
             (PFloat 0) (boot [1; 2; 3; 4; 5; 6; 7; 8]%N)
             (World [default_table; default_table] [1; 2; 3; 4; 5; 6; 7; 8]%N)
             1 default_table
             (dict_set (dict_set default_table "bomb_1" (NFloat 0)) "bomb_atom" (NFloat 0))
             75%float);
      reflexivity.
Defined.

(** C8. The position that a round of the rigging pass overwrites never
    holds a member of [bias_symbols]; so a position that holds one, from the
    draw or from an earlier insertion of the pass, holds it to the end. *)
Theorem bias_slots_are_stable :
  (∀ bias_symbols strip w replace_idx w',
     random_choice (available_from 0 bias_symbols strip) w = (Ok replace_idx, w') ->
     ∃ s, strip !! replace_idx = Some s ∧ s ∉ bias_symbols) ∧
  (∀ bias_symbols strip w strip' w' i s,
     rig (Some bias_symbols) strip w = (Ok strip', w') ->
     strip !! i = Some s -> s ∈ bias_symbols ->
     strip' !! i = Some s) ∧
  (∀ bias_symbols strip bias_sym todo w strip1 w1 strip' w' i,
     bias_sym ∈ bias_symbols ->
     rig_insert bias_symbols strip bias_sym w = (Ok strip1, w1) ->
     strip1 !! i = Some bias_sym ->
     rig_loop bias_symbols todo strip1 w1 = (Ok strip', w') ->
     strip' !! i = Some bias_sym).
Proof.
  split; [|split].
  - intros bias_symbols strip w idx w' Hrun.
    destruct (available_from 0 bias_symbols strip) as [|j l] eqn:E; [done|].
    destruct (random_choice_run (j :: l) w) as (i & x & Hx & Hrun'); [done|].
    rewrite Hrun' in Hrun. simplify_eq.
    assert (Hin : idx ∈ available_from 0 bias_symbols strip).
    { rewrite E. by eapply list_elem_of_lookup_2. }
    apply available_from_spec in Hin as (s & _ & Hs & Hn).
    rewrite Nat.sub_0_r in Hs. by exists s.
  - intros bias_symbols strip w strip' w' i s Hrun Hi Hs.
    destruct bias_symbols as [|b bs]; [by apply elem_of_nil in Hs|].
    by eapply rig_loop_stable.
  - intros bias_symbols strip bias_sym todo w strip1 w1 strip' w' i Hin _ Hi Hrun.
    by eapply rig_loop_stable.
Qed.

Lemma bias_slots_are_stable_witness :
  (∃ s, ["coin_1"; "gem_1"; "coin_pile"] !! 2 = Some s ∧ s ∉ ["gem_1"; "bomb_1"]) ∧
  ["bomb_1"; "gem_1"; "gem_1"] !! 1 = Some "gem_1" ∧
  ["coin_1"; "gem_1"; "bomb_1"] !! 1 = Some "gem_1".
Proof.
  split; [|split].
  - apply (proj1 bias_slots_are_stable ["gem_1"; "bomb_1"] ["coin_1"; "gem_1"; "coin_pile"]
             (boot [1]%N) 2 (boot [])).
    reflexivity.
  - apply (proj1 (proj2 bias_slots_are_stable) ["gem_1"; "bomb_1"]
             ["coin_1"; "gem_1"; "coin_pile"] (boot [1; 0]%N)
             ["bomb_1"; "gem_1"; "gem_1"] (boot []) 1 "gem_1");
      [reflexivity|reflexivity|].
    apply (bool_decide_unpack _). exact I.
  - apply (proj2 (proj2 bias_slots_are_stable) ["gem_1"; "bomb_1"]
             ["coin_1"; "coin_1"; "coin_pile"] "gem_1" ["bomb_1"] (boot [1; 1]%N)
             ["coin_1"; "gem_1"; "coin_pile"] (boot [1]%N)
             ["coin_1"; "gem_1"; "bomb_1"] (boot []) 1);
      [|reflexivity|reflexivity|reflexivity].
    apply (bool_decide_unpack _). exact I.
Defined.

(** With [DEFAULT_WEIGHTS] unbound nothing is ever allocated or assigned. *)
Lemma load_symbol_weights_dangling (symbol_weights_json : source) (w : world) :
  heap w !! DEFAULT_WEIGHTS = None ->
  ∃ e, load_symbol_weights symbol_weights_json w = (Raise e, w).
Proof.
  intros H.
  assert (Hc : dict_copy DEFAULT_WEIGHTS w = (Raise NameError, w)).
  { unfold dict_copy. run. by rewrite (deref_dangling _ _ H). }
  destruct symbol_weights_json as [|e|data]; simpl; rewrite ?Hc; try by eexists.
  run. destruct (py_get _ _ _) as [symbols|e]; run; rewrite ?Hc; by eexists.
Qed.

(** C9. Neither [load_symbol_weights] nor [generate_weighted_strip] changes
    the dict that [DEFAULT_WEIGHTS] names, or any other dict that existed
    before the call: they assign only into the copies they allocate. This
    holds however the call ends, so the next call finds the same defaults. *)
Theorem calls_leave_defaults_alone (symbol_weights_json : source) (length : nat)
    (bias_symbols : option (list string)) (bomb_multiplier : pyval) (w : world) :
  let w1 := (load_symbol_weights symbol_weights_json w).2 in
  let w2 := (generate_weighted_strip symbol_weights_json length bias_symbols
               bomb_multiplier w).2 in
  preserved w w1 ∧ heap w1 !! DEFAULT_WEIGHTS = heap w !! DEFAULT_WEIGHTS ∧
  preserved w w2 ∧ heap w2 !! DEFAULT_WEIGHTS = heap w !! DEFAULT_WEIGHTS.
Proof.
  cbv zeta.
  pose proof (load_symbol_weights_frame symbol_weights_json w) as (H1 & _ & _).
  pose proof (generate_weighted_strip_frame symbol_weights_json length bias_symbols
                bomb_multiplier w) as H2.
  destruct (heap w !! DEFAULT_WEIGHTS) as [d0|] eqn:H.
  - assert (DEFAULT_WEIGHTS < List.length (heap w)) as Hlt by by eapply lookup_lt_Some.
    repeat split; try done.
    + etrans; [by apply H1|done].
    + etrans; [by apply H2|done].
  - destruct (load_symbol_weights_dangling symbol_weights_json w H) as [e He].
    unfold generate_weighted_strip in *. rewrite bind_run in *. rewrite He in *.
    by repeat split.
Qed.

(** C10. The rigging pass never looks at the weight table: a bias symbol
    is written into the strip whenever its round finds an eligible position,
    whether or not it is a key of the table. So with one bias symbol that is
    not a key, every call whose draw goes through returns a strip that
    contains it. *)
Theorem unknown_bias_symbol_is_inserted :
  (∀ bias_symbols strip bias_sym w,
     (∃ i s, strip !! i = Some s ∧ s ∉ bias_symbols) ->
     ∃ strip' w' replace_idx,
       rig_insert bias_symbols strip bias_sym w = (Ok strip', w') ∧
       strip' !! replace_idx = Some bias_sym) ∧
  (∀ bias_symbols todo1 bias_sym todo2 strip w strip1 w1,
     bias_sym ∈ bias_symbols ->
     rig_loop bias_symbols todo1 strip w = (Ok strip1, w1) ->
     (∃ i s, strip1 !! i = Some s ∧ s ∉ bias_symbols) ->
     ∃ strip' w',
       rig_loop bias_symbols (todo1 ++ bias_sym :: todo2) strip w = (Ok strip', w') ∧
       bias_sym ∈ strip') ∧
  (∀ symbol_weights_json n bias_sym w w1 r d total,
     load_symbol_weights symbol_weights_json w = (Ok r, w1) ->
     heap w1 !! r = Some d ->
     table_total d = Ok total -> (0 <? total)%float = true -> is_finite total = true ->
     0 < n -> bias_sym ∉ map fst d ->
     ∃ strip w',
       generate_weighted_strip symbol_weights_json n (Some [bias_sym]) (PFloat 1) w
         = (Ok strip, w') ∧
       bias_sym ∈ strip).
Proof.
  assert (Hstep : ∀ bias_symbols strip bias_sym w,
     (∃ i s, strip !! i = Some s ∧ s ∉ bias_symbols) ->
     ∃ strip' w' replace_idx,
       rig_insert bias_symbols strip bias_sym w = (Ok strip', w') ∧
       strip' !! replace_idx = Some bias_sym).
  { intros bias_symbols strip bias_sym w (i & s & Hi & Hs).
    destruct (rig_insert_run bias_symbols strip bias_sym w)
      as [[Hnil _]|(idx & s0 & _ & Hidx & _ & _ & Hrun)].
    - apply available_from_nil in Hnil. rewrite Forall_lookup in Hnil.
      by apply Hnil in Hi.
    - eexists _, _, idx. split; [done|].
      apply list_lookup_insert_eq. by eapply lookup_lt_Some. }
  split; [done|]. split.
  { intros bias_symbols todo1 bias_sym todo2 strip w strip1 w1 Hin Hrun1 Helig.
    destruct (Hstep bias_symbols strip1 bias_sym w1 Helig)
      as (strip2 & w2 & idx & Hrun2 & Hidx).
    destruct (rig_loop_ok bias_symbols todo2 strip2 w2) as (strip' & w' & Hrun3 & _).
    exists strip', w'. rewrite rig_loop_app, bind_run, Hrun1.
    cbn [rig_loop]. rewrite bind_run, Hrun2. split; [done|].
    eapply list_elem_of_lookup_2. by eapply rig_loop_stable. }
  intros src n bias_sym w w1 r d total Hload Hd Htot Hpos Hfin Hn Hnew.
  destruct (generate_ok src n (Some [bias_sym]) (PFloat 1) w w1 r d d total)
    as (strip0 & w2 & strip & w' & Hall & Hlen & Hrig & _ & Hgen);
    [done|done|done|done|by apply float_pos_not_le|done|].
  exists strip, w'. split; [done|].
  unfold rig, rig_loop in Hrig. rewrite bind_run in Hrig.
  destruct strip0 as [|s0 strip0]; [simpl in Hlen; lia|].
  destruct (Hstep [bias_sym] (s0 :: strip0) bias_sym w2) as (strip1 & w3 & idx & Hrun & Hidx).
  { exists 0, s0. split; [done|]. apply Forall_cons in Hall as [Hs0 _].
    intros ->%list_elem_of_singleton. done. }
  rewrite Hrun, ret_run in Hrig. simplify_eq. by eapply list_elem_of_lookup_2.
Qed.

Lemma unknown_bias_symbol_is_inserted_witness :
  (∃ strip' w' replace_idx,
     rig_insert ["joker"] ["coin_1"; "gem_1"] "joker" (boot [1]%N) = (Ok strip', w') ∧
     strip' !! replace_idx = Some "joker") ∧
  (∃ strip' w',
     rig_loop ["gem_1"; "joker"] (["gem_1"] ++ "joker" :: []) ["coin_1"; "coin_pile"]
       (boot [0; 0]%N) = (Ok strip', w') ∧
     "joker" ∈ strip') ∧
  (∃ strip w',
     generate_weighted_strip Missing 3 (Some ["joker"]) (PFloat 1) (boot [1; 2; 3; 4]%N)
       = (Ok strip, w') ∧
     "joker" ∈ strip).
Proof.
  split; [|split].
  - apply (proj1 unknown_bias_symbol_is_inserted).
    exists 0, "coin_1". split; [reflexivity|].
    apply (bool_decide_unpack _). exact I.
  - apply (proj1 (proj2 unknown_bias_symbol_is_inserted) ["gem_1"; "joker"] ["gem_1"]
             "joker" [] ["coin_1"; "coin_pile"] (boot [0; 0]%N)
             ["gem_1"; "coin_pile"] (boot [0]%N)).
    + apply (bool_decide_unpack _). exact I.
    + reflexivity.
    + exists 1, "coin_pile". split; [reflexivity|].
      apply (bool_decide_unpack _). exact I.
  - apply (proj2 (proj2 unknown_bias_symbol_is_inserted) Missing 3 "joker" (boot [1; 2; 3; 4]%N)
             (World [default_table; default_table] [1; 2; 3; 4]%N) 1 default_table 95%float);
      [reflexivity|reflexivity|reflexivity|reflexivity|reflexivity|lia|].
    apply (bool_decide_unpack _). exact I.
Defined.




(** * Further properties *)

(** ** Floats *)

Lemma float_class (x : float) :
  is_nan x = match Prim2SF x with S754_nan => true | _ => false end ∧
  is_infinity x = match Prim2SF x with S754_infinity _ => true | _ => false end.
Proof.
  unfold is_nan, is_infinity.
  rewrite !FloatAxioms.eqb_spec, FloatAxioms.abs_spec.
  change (Prim2SF infinity) with (S754_infinity false).
  destruct (Prim2SF x) as [s|s| |s m e]; [by destruct s|by destruct s|done|].
  unfold SFeqb, SFcompare, SFabs.
  rewrite Z.compare_refl, Pos.compare_cont_refl. by destruct s.
Qed.

Lemma is_finite_class (x : float) :
  is_finite x = match Prim2SF x with
                | S754_zero _ | S754_finite _ _ _ => true
                | _ => false
                end.
Proof.
  unfold is_finite. destruct (float_class x) as [-> ->].
  by destruct (Prim2SF x).
Qed.

Lemma float_not_lt_cases (x : float) :
  (x <? 0)%float = false -> is_nan x = true ∨ (0 <=? x)%float = true.
Proof.
  destruct (float_class x) as [-> _].
  rewrite FloatAxioms.ltb_spec, FloatAxioms.leb_spec.
  change (Prim2SF 0) with (S754_zero false).
  destruct (Prim2SF x) as [s|s| |s m e]; try destruct s; auto; done.
Qed.

Lemma float_not_le_cases (x : float) :
  (x <=? 0)%float = false -> is_nan x = true ∨ (0 <? x)%float = true.
Proof.
  destruct (float_class x) as [-> _].
  rewrite FloatAxioms.ltb_spec, FloatAxioms.leb_spec.
  change (Prim2SF 0) with (S754_zero false).
  destruct (Prim2SF x) as [s|s| |s m e]; try destruct s; auto; done.
Qed.

(** A sum with a term that is not finite is not finite. *)
Lemma add_not_finite (a b : float) :
  is_finite a = false ∨ is_finite b = false -> is_finite (a + b) = false.
Proof.
  rewrite !is_finite_class, FloatAxioms.add_spec. unfold SF64add, SFadd.
  intros [H|H]; destruct (Prim2SF a) as [[]|[]| |sa ma ea];
    destruct (Prim2SF b) as [[]|[]| |sb mb eb]; done.
Qed.

(** A product by a factor that is not finite is not finite. *)
Lemma mul_not_finite (a b : float) :
  is_finite b = false -> is_finite (a * b) = false.
Proof.
  rewrite !is_finite_class, FloatAxioms.mul_spec. unfold SF64mul, SFmul.
  intros H; destruct (Prim2SF a) as [[]|[]| |sa ma ea];
    destruct (Prim2SF b) as [[]|[]| |sb mb eb]; done.
Qed.

Lemma not_finite_not_lt_cases (x : float) :
  is_finite x = false -> (x <? 0)%float = false ->
  (x =? 1)%float = false.
Proof.
  rewrite is_finite_class, FloatAxioms.ltb_spec, FloatAxioms.eqb_spec.
  change (Prim2SF 1) with (S754_finite false 4503599627370496 (-52)).
  by destruct (Prim2SF x) as [[]|[]| |s m e].
Qed.

(** ** The table as a function of the file *)

Lemma defaults_intact_snoc (w : world) (l : list wdict) (g : list N) :
  defaults_intact w -> defaults_intact (World (heap w ++ l) g).
Proof. intros H. unfold defaults_intact. simpl. by apply lookup_app_l_Some. Qed.

Lemma lookup_snoc_second {A : Type} (l : list A) (x y : A) :
  (l ++ [x; y]) !! S (length l) = Some y.
Proof.
  replace (l ++ [x; y]) with ((l ++ [x]) ++ [y]) by by rewrite <- app_assoc.
  replace (S (length l)) with (length (l ++ [x])) by (rewrite length_app; simpl; lia).
  apply lookup_snoc_new.
Qed.

(** [load_symbol_weights] computes [loaded_table]: the same exception, or a
    new object with those entries, whatever else the store holds. *)
Lemma load_symbol_weights_table (symbol_weights_json : source) (w : world) :
  defaults_intact w ->
  match loaded_table symbol_weights_json with
  | Ok d => ∃ r w1, load_symbol_weights symbol_weights_json w = (Ok r, w1) ∧
                    heap w1 !! r = Some d ∧ defaults_intact w1 ∧ rng w1 = rng w
  | Raise e => ∃ w1, load_symbol_weights symbol_weights_json w = (Raise e, w1) ∧
                     defaults_intact w1 ∧ rng w1 = rng w
  end.
Proof.
  intros H. destruct symbol_weights_json as [|e|data]; cbn [loaded_table].
  - eexists _, _. rewrite (load_fallback_run _ _ _ H) by by left.
    split; [done|]. split; [apply lookup_snoc_new|]. by split; [apply defaults_intact_snoc|].
  - eexists _, _. rewrite (load_fallback_run _ _ _ H) by (right; by eexists).
    split; [done|]. split; [apply lookup_snoc_new|]. by split; [apply defaults_intact_snoc|].
  - rewrite (load_doc_run _ _ _ H).
    destruct (py_get _ _ _) as [symbols|e]; simpl; [|by eexists].
    destruct (py_items symbols) as [items|e]; simpl;
      [|eexists; split; [done|]; by split; [apply defaults_intact_snoc|]].
    destruct (merge_all default_table items) as [[[]|e] d]; simpl;
      [|eexists; split; [done|]; by split; [apply defaults_intact_snoc|]].
    destruct (sum_floats 0 (map snd d)) as [total|e]; simpl;
      [|eexists; split; [done|]; by split; [apply defaults_intact_snoc|]].
    destruct (total <=? 0)%float; eexists _, _; (split; [done|]).
    + split; [apply lookup_snoc_second|]. by split; [apply defaults_intact_snoc|].
    + split; [apply lookup_snoc_new|]. by split; [apply defaults_intact_snoc|].
Qed.

Lemma load_symbol_weights_inv (symbol_weights_json : source) (w w1 : world)
    (r : ref) (d : wdict) :
  defaults_intact w ->
  load_symbol_weights symbol_weights_json w = (Ok r, w1) ->
  heap w1 !! r = Some d ->
  loaded_table symbol_weights_json = Ok d.
Proof.
  intros H Hload Hd. pose proof (load_symbol_weights_table symbol_weights_json w H) as Ht.
  destruct (loaded_table symbol_weights_json) as [d'|e].
  - destruct Ht as (r' & w1' & Hload' & Hd' & _). congruence.
  - destruct Ht as (w1' & Hload' & _). congruence.
Qed.

(** ** Keys of the merged table *)

Lemma dict_set_keys_prefix {V : Type} (d : list (string * V)) (key : string) (v : V) :
  map fst d `prefix_of` map fst (dict_set d key v).
Proof.
  induction d as [|[k x] d IH]; simpl.
  - apply prefix_nil.
  - destruct (String.eqb k key); simpl; [done|]. by apply prefix_cons.
Qed.

Lemma merge_step_keys_prefix (d d' : wdict) (sym : string) (cfg : pyval) :
  merge_step d sym cfg = Ok d' -> map fst d `prefix_of` map fst d'.
Proof.
  unfold merge_step. destruct cfg as [| | | | | |c]; try by intros [= <-].
  destruct (py_float _) as [x|[]]; try done; try by intros [= <-].
  destruct (x <? 0)%float; intros [= <-]; [done|]. apply dict_set_keys_prefix.
Qed.

Lemma merge_all_keys_prefix (d : wdict) (items : list (string * pyval)) :
  map fst d `prefix_of` map fst (merge_all d items).2.
Proof.
  revert d. induction items as [|[sym cfg] items IH]; intros d; simpl; [done|].
  destruct (merge_step d sym cfg) as [d'|e] eqn:E; [|done].
  etrans; [by eapply merge_step_keys_prefix|]. apply IH.
Qed.

Lemma loaded_table_keys (symbol_weights_json : source) (d : wdict) :
  loaded_table symbol_weights_json = Ok d ->
  map fst default_table `prefix_of` map fst d.
Proof.
  destruct symbol_weights_json as [|e|data]; simpl; try by intros [= <-].
  destruct (py_get _ _ _) as [symbols|e]; simpl; [|done].
  destruct (py_items symbols) as [items|e]; simpl; [|done].
  pose proof (merge_all_keys_prefix default_table items) as Hp.
  destruct (merge_all default_table items) as [[[]|e] d1]; simpl in *; [|done].
  destruct (sum_floats 0 (map snd d1)) as [total|e]; simpl; [|done].
  destruct (total <=? 0)%float; by intros [= <-].
Qed.

(** X1. Every table that [load_symbol_weights] returns starts with the nine
    default symbols, in their order; symbols that the file adds come after
    them. *)
Theorem loaded_keys_start_with_defaults (symbol_weights_json : source)
    (w w1 : world) (r : ref) (d : wdict) :
  defaults_intact w ->
  load_symbol_weights symbol_weights_json w = (Ok r, w1) ->
  heap w1 !! r = Some d ->
  map fst default_table `prefix_of` map fst d.
Proof.
  intros H Hload Hd. eapply loaded_table_keys. by eapply load_symbol_weights_inv.
Qed.

Lemma loaded_keys_start_with_defaults_witness :
  map fst default_table `prefix_of`
    map fst (dict_set (dict_set default_table "coin_1" (NFloat 40)) "wild" (NFloat 2.5)).
Proof.
  apply (loaded_keys_start_with_defaults (Doc override_document) (boot [])
           (World [default_table;
                   dict_set (dict_set default_table "coin_1" (NFloat 40)) "wild" (NFloat 2.5)]
                  []) 1); reflexivity.
Defined.

(** X2. What [load_symbol_weights] returns is decided by the file alone:
    started in any two states of the program in which [DEFAULT_WEIGHTS] is
    intact, it raises the same exception or returns tables with the same
    entries. *)
Theorem load_depends_on_file_only (symbol_weights_json : source) (w w' : world) :
  defaults_intact w -> defaults_intact w' ->
  (∀ r w1, load_symbol_weights symbol_weights_json w = (Ok r, w1) ->
           ∃ r' w1', load_symbol_weights symbol_weights_json w' = (Ok r', w1') ∧
                     heap w1' !! r' = heap w1 !! r) ∧
  (∀ e, (load_symbol_weights symbol_weights_json w).1 = Raise e ->
        (load_symbol_weights symbol_weights_json w').1 = Raise e).
Proof.
  intros H H'.
  pose proof (load_symbol_weights_table symbol_weights_json w H) as Ht.
  pose proof (load_symbol_weights_table symbol_weights_json w' H') as Ht'.
  destruct (loaded_table symbol_weights_json) as [d|e0].
  - destruct Ht as (r & w1 & Hl & Hd & _), Ht' as (r' & w1' & Hl' & Hd' & _). split.
    + intros r0 w0 Hl0. rewrite Hl in Hl0. simplify_eq. exists r', w1'. by rewrite Hd, Hd'.
    + intros e He. by rewrite Hl in He.
  - destruct Ht as (w1 & Hl & _), Ht' as (w1' & Hl' & _). split.
    + intros r0 w0 Hl0. by rewrite Hl in Hl0.
    + intros e He. rewrite Hl in He. rewrite Hl'. done.
Qed.

Lemma load_depends_on_file_only_witness :
  (∀ r w1, load_symbol_weights (Doc override_document) (boot [1; 2]%N) = (Ok r, w1) ->
           ∃ r' w1',
             load_symbol_weights (Doc override_document)
               (World [default_table; []; default_table] [7]%N) = (Ok r', w1') ∧
             heap w1' !! r' = heap w1 !! r) ∧
  (∀ e, (load_symbol_weights (Doc override_document) (boot [1; 2]%N)).1 = Raise e ->
        (load_symbol_weights (Doc override_document)
           (World [default_table; []; default_table] [7]%N)).1 = Raise e).
Proof.
  apply (load_depends_on_file_only (Doc override_document) (boot [1; 2]%N)
           (World [default_table; []; default_table] [7]%N)); reflexivity.
Defined.

(** X3. In a table that [load_symbol_weights] returns every weight is a
    float that is NaN or at least zero, and the sum that the second guard
    tests is NaN or above zero: NaN is the only value that gets past the two
    guards without being a non-negative weight. *)
Theorem loaded_weights_nan_or_nonnegative (symbol_weights_json : source)
    (w w1 : world) (r : ref) (d : wdict) :
  defaults_intact w ->
  load_symbol_weights symbol_weights_json w = (Ok r, w1) ->
  heap w1 !! r = Some d ->
  Forall (λ v, ∃ f, num_float v = Ok f ∧ (is_nan f = true ∨ (0 <=? f)%float = true))
         (map snd d) ∧
  ∃ total, sum_floats 0 (map snd d) = Ok total ∧
           (is_nan total = true ∨ (0 <? total)%float = true).
Proof.
  intros H Hload Hd.
  destruct (load_guards _ _ _ _ H Hload) as (d' & Hd' & Hall & total & Hsum & Hle).
  simplify_eq. split.
  - eapply Forall_impl; [exact Hall|]. intros v (f & Hf & Hlt).
    exists f. split; [done|]. by apply float_not_lt_cases.
  - exists total. split; [done|]. by apply float_not_le_cases.
Qed.

Lemma loaded_weights_nan_or_nonnegative_witness :
  let d := dict_set default_table "wild" (NFloat nan) in
  Forall (λ v, ∃ f, num_float v = Ok f ∧ (is_nan f = true ∨ (0 <=? f)%float = true))
         (map snd d) ∧
  ∃ total, sum_floats 0 (map snd d) = Ok total ∧
           (is_nan total = true ∨ (0 <? total)%float = true).
Proof.
  apply (loaded_weights_nan_or_nonnegative (Doc nan_document) (boot [])
           (World [default_table; dict_set default_table "wild" (NFloat nan)] []) 1);
    reflexivity.
Defined.

(** ** Documents of the wrong shape *)

(** X4. [load_symbol_weights] does not fall back on a decoded document of
    the wrong shape: a document that is not an object and not empty (a
    non-empty list or string, a non-zero number, [true]) and a document
    whose ["symbols"] is not an object (a list, a number, [null]) make it
    raise [AttributeError]. *)
Theorem load_raises_on_wrong_shape (data : pyval) (w : world) :
  defaults_intact w ->
  (truthy data = true -> (∀ top, data ≠ PDict top) ->
   load_symbol_weights (Doc data) w = (Raise AttributeError, w)) ∧
  (∀ top, data = PDict top ->
          (∀ items, dict_get top "symbols" (PDict []) ≠ PDict items) ->
          (load_symbol_weights (Doc data) w).1 = Raise AttributeError).
Proof.
  intros H. rewrite (load_doc_run _ _ _ H). split.
  - intros Ht Hshape. unfold or_empty_dict. rewrite Ht.
    destruct data; try done. by destruct (Hshape d).
  - intros top -> Hsym.
    assert (or_empty_dict (PDict top) = PDict top) as ->.
    { destruct top; [|done]. by destruct (Hsym []). }
    cbn [py_get]. destruct (dict_get top "symbols" (PDict [])) eqn:E; try done.
    by destruct (Hsym d).
Qed.

Lemma load_raises_on_wrong_shape_witness :
  load_symbol_weights (Doc (PList [PInt 1; PInt 2])) (boot [4]%N)
    = (Raise AttributeError, boot [4]%N) ∧
  (load_symbol_weights (Doc (PDict [("symbols", PNone)])) (boot [4]%N)).1
    = Raise AttributeError.
Proof.
  split.
  - apply (proj1 (load_raises_on_wrong_shape (PList [PInt 1; PInt 2]) (boot [4]%N) eq_refl));
      [reflexivity|discriminate].
  - apply (proj2 (load_raises_on_wrong_shape (PDict [("symbols", PNone)]) (boot [4]%N)
                    eq_refl) [("symbols", PNone)]); [reflexivity|discriminate].
Defined.

Lemma merge_all_fits (d : wdict) (items : list (string * pyval)) :
  Forall (λ item, entry_fits item.2) items -> (merge_all d items).1 = Ok tt.
Proof.
  revert d. induction items as [|[sym cfg] items IH]; intros d Hall; simpl; [done|].
  apply Forall_cons in Hall as [Hfit Hall]. cbn [snd] in Hfit.
  assert (∃ d', merge_step d sym cfg = Ok d') as [d' ->]; [|by apply IH].
  unfold merge_step. destruct cfg as [| | | | | |c]; try by eexists.
  simpl in Hfit. destruct (py_float _) as [x|e] eqn:E; [by eexists|].
  apply py_float_raises in E as [->|[->| ->]]; [by eexists|by eexists|done].
Qed.

Lemma sum_floats_convertible (acc : float) (vals : list num) :
  Forall (λ v, ∃ f, num_float v = Ok f) vals -> ∃ total, sum_floats acc vals = Ok total.
Proof.
  intros Hall. revert acc. induction Hall as [|v vals [f Hf] _ IH]; intros acc; simpl.
  - by eexists.
  - rewrite Hf. simpl. apply IH.
Qed.

(** X5. [load_symbol_weights] returns a table, without raising, for every
    document that is an object (or is empty) with an object under
    ["symbols"] (or without the key), provided no weight is an integer too
    large for a float: entries of any other kind are passed over. *)
Theorem load_returns_on_well_shaped (data : pyval) (items : list (string * pyval))
    (w : world) :
  defaults_intact w ->
  py_get (or_empty_dict data) "symbols" (PDict []) = Ok (PDict items) ->
  Forall (λ item, entry_fits item.2) items ->
  ∃ r w1 d, load_symbol_weights (Doc data) w = (Ok r, w1) ∧ heap w1 !! r = Some d.
Proof.
  intros H Hsym Hfit.
  pose proof (load_symbol_weights_table (Doc data) w H) as Ht.
  cbn [loaded_table] in Ht. rewrite Hsym in Ht. simpl in Ht.
  pose proof (merge_all_fits default_table items Hfit) as Hok.
  pose proof (merge_all_guarded default_table items (proj1 default_table_guarded)) as Hg.
  destruct (merge_all default_table items) as [res d]. simpl in Hok, Hg. subst res.
  destruct (sum_floats_convertible 0 (map snd d)) as [total Hsum].
  { eapply Forall_impl; [exact Hg|]. intros v (f & Hf & _). by exists f. }
  rewrite Hsum in Ht. simpl in Ht. destruct Ht as (r & w1 & Hl & Hd & _).
  by eexists _, _, _.
Qed.

Lemma load_returns_on_well_shaped_witness :
  ∃ r w1 d, load_symbol_weights (Doc override_document) (boot [9]%N) = (Ok r, w1) ∧
            heap w1 !! r = Some d.
Proof.
  apply (load_returns_on_well_shaped override_document
           [("coin_1", PDict [("weight", PInt 40)]);
            ("wild", PDict [("probability", PFloat 2.5)]);
            ("gem_1", PDict [("weight", PInt (-1))]);
            ("bomb_1", PInt 7)] (boot [9]%N)).
  - reflexivity.
  - reflexivity.
  - repeat constructor; discriminate.
Defined.

(** ** Entries that are merged and entries that are passed over *)

Lemma merge_all_app (d : wdict) (items1 items2 : list (string * pyval)) :
  merge_all d (items1 ++ items2) =
  match merge_all d items1 with
  | (Ok _, d1) => merge_all d1 items2
  | (Raise e, d1) => (Raise e, d1)
  end.
Proof.
  revert d. induction items1 as [|[sym cfg] items1 IH]; intros d; simpl; [done|].
  destruct (merge_step d sym cfg) as [d'|e]; [apply IH|done].
Qed.

Lemma merge_step_rejected (d : wdict) (sym : string) (cfg : pyval) :
  entry_rejected cfg -> merge_step d sym cfg = Ok d.
Proof.
  unfold entry_rejected, merge_step. destruct cfg as [| | | | | |c]; try done.
  intros [-> | [-> | (f & -> & ->)]]; done.
Qed.

Lemma merge_all_rejected (d : wdict) (items : list (string * pyval)) :
  Forall (λ item, entry_rejected item.2) items -> merge_all d items = (Ok tt, d).
Proof.
  induction 1 as [|[sym cfg] items Hrej _ IH]; simpl; [done|].
  by rewrite (merge_step_rejected _ _ _ Hrej).
Qed.

Lemma merge_step_lookup_other (d d' : wdict) (sym key : string) (cfg : pyval) :
  merge_step d sym cfg = Ok d' -> sym ≠ key -> dict_lookup d' key = dict_lookup d key.
Proof.
  unfold merge_step. destruct cfg as [| | | | | |c]; try by intros [= <-].
  destruct (py_float _) as [x|[]]; try done; try by intros [= <-].
  destruct (x <? 0)%float; intros [= <-] Hne; [done|]. by apply dict_lookup_set_ne.
Qed.

Lemma merge_all_lookup_other (d : wdict) (items : list (string * pyval)) (key : string) :
  key ∉ map fst items ->
  dict_lookup (merge_all d items).2 key = dict_lookup d key.
Proof.
  revert d. induction items as [|[sym cfg] items IH]; intros d Hkey; simpl; [done|].
  apply not_elem_of_cons in Hkey as [Hne Hkey]. cbn [fst] in Hne.
  destruct (merge_step d sym cfg) as [d'|e] eqn:E; [|done].
  rewrite (IH _ Hkey). by eapply merge_step_lookup_other.
Qed.

(** X6. Bad entries do not abort the load and do not change the table: when
    every entry under ["symbols"] is one that the loop passes over (a value
    that is not an object, a weight that [float] rejects, a negative
    weight), the table returned has the entries of the default one. *)
Theorem rejected_entries_leave_defaults (data : pyval) (items : list (string * pyval))
    (w : world) :
  defaults_intact w ->
  py_get (or_empty_dict data) "symbols" (PDict []) = Ok (PDict items) ->
  Forall (λ item, entry_rejected item.2) items ->
  returns_defaults (Doc data) w.
Proof.
  intros H Hsym Hrej.
  pose proof (load_symbol_weights_table (Doc data) w H) as Ht.
  cbn [loaded_table] in Ht. rewrite Hsym in Ht. simpl in Ht.
  rewrite (merge_all_rejected _ _ Hrej) in Ht. simpl in Ht.
  destruct Ht as (r & w1 & Hl & Hd & _). by exists r, w1.
Qed.

Lemma rejected_entries_leave_defaults_witness :
  returns_defaults
    (Doc (PDict [("symbols", PDict [("coin_1", PStr "many");
                                    ("gem_1", PDict [("weight", PInt (-3))]);
                                    ("wild", PDict [("weight", PStr "a lot")]);
                                    ("bomb_1", PDict [("probability", PNone);
                                                      ("weight", PInt 9)])])]))
    (boot [2]%N).
Proof.
  apply (rejected_entries_leave_defaults _
           [("coin_1", PStr "many");
            ("gem_1", PDict [("weight", PInt (-3))]);
            ("wild", PDict [("weight", PStr "a lot")]);
            ("bomb_1", PDict [("probability", PNone); ("weight", PInt 9)])]).
  - reflexivity.
  - reflexivity.
  - apply List.Forall_cons; [exact I|].
    apply List.Forall_cons; [right; right; exists (-3)%float; split; reflexivity|].
    apply List.Forall_cons; [right; left; reflexivity|].
    apply List.Forall_cons; [left; reflexivity|]. apply List.Forall_nil.
Defined.

(** X7. In the table that [load_symbol_weights] returns for a document, a
    symbol that the document does not name keeps its default weight (and a
    new symbol stays absent); and where the last entry for a symbol carries
    a weight that [float] accepts and that does not test negative, the
    symbol has that weight, unless the whole table fell back to the
    defaults. *)
Theorem loaded_weight_lookup (data : pyval) (items : list (string * pyval))
    (w w1 : world) (r : ref) (d : wdict) :
  defaults_intact w ->
  py_get (or_empty_dict data) "symbols" (PDict []) = Ok (PDict items) ->
  load_symbol_weights (Doc data) w = (Ok r, w1) ->
  heap w1 !! r = Some d ->
  (∀ key, key ∉ map fst items -> dict_lookup d key = dict_lookup default_table key) ∧
  (∀ before sym c after f,
     items = before ++ (sym, PDict c) :: after -> sym ∉ map fst after ->
     py_float (dict_get c "probability" (dict_get c "weight" PNone)) = Ok f ->
     (f <? 0)%float = false ->
     dict_lookup d sym = Some (NFloat f) ∨ d = default_table).
Proof.
  intros H Hsym Hload Hd.
  pose proof (load_symbol_weights_inv _ _ _ _ _ H Hload Hd) as Ht.
  cbn [loaded_table] in Ht. rewrite Hsym in Ht. simpl in Ht.
  destruct (merge_all default_table items) as [[[]|e] m] eqn:Hm; [|done].
  destruct (sum_floats 0 (map snd m)) as [total|e]; [|done]. simpl in Ht.
  assert (Hcase : d = default_table ∨ d = m).
  { destruct (total <=? 0)%float; simplify_eq; auto. }
  split.
  - intros key Hkey. destruct Hcase as [->| ->]; [done|].
    pose proof (merge_all_lookup_other default_table items key Hkey) as Hl.
    by rewrite Hm in Hl.
  - intros before sym c after f -> Hafter Hf Hneg.
    destruct Hcase as [->| ->]; [by right|left].
    rewrite merge_all_app in Hm.
    destruct (merge_all default_table before) as [[[]|e] d1]; [|done].
    simpl in Hm. unfold merge_step in Hm. rewrite Hf, Hneg in Hm.
    pose proof (merge_all_lookup_other (dict_set d1 sym (NFloat f)) after sym Hafter) as Hl.
    rewrite Hm in Hl. simpl in Hl. by rewrite Hl, dict_lookup_set_eq.
Qed.

Lemma loaded_weight_lookup_witness :
  let d := dict_set (dict_set default_table "coin_1" (NFloat 40)) "wild" (NFloat 2.5) in
  (∀ key, key ∉ ["coin_1"; "wild"; "gem_1"; "bomb_1"] ->
          dict_lookup d key = dict_lookup default_table key) ∧
  (dict_lookup d "wild" = Some (NFloat 2.5) ∨ d = default_table).
Proof.
  pose proof (loaded_weight_lookup override_document
           [("coin_1", PDict [("weight", PInt 40)]);
            ("wild", PDict [("probability", PFloat 2.5)]);
            ("gem_1", PDict [("weight", PInt (-1))]);
            ("bomb_1", PInt 7)] (boot [])
           (World [default_table;
                   dict_set (dict_set default_table "coin_1" (NFloat 40)) "wild" (NFloat 2.5)]
                  []) 1 _ eq_refl eq_refl eq_refl eq_refl) as [Hother Hlast].
  split; [exact Hother|].
  apply (Hlast [("coin_1", PDict [("weight", PInt 40)])] "wild"
               [("probability", PFloat 2.5)]
               [("gem_1", PDict [("weight", PInt (-1))]); ("bomb_1", PInt 7)] 2.5%float);
    [reflexivity| |reflexivity|reflexivity].
  apply (bool_decide_unpack _). exact I.
Defined.

(** ** The configured strip length *)

Lemma int_of_float_raises (f : float) (e : exn) :
  int_of_float f = Raise e ->
  e = ValueError ∨ (e = OverflowError ∧ is_infinity f = true).
Proof.
  unfold int_of_float. destruct (float_class f) as [_ ->].
  destruct (Prim2SF f) as [s|s| |s m x]; try done; intros [= <-]; auto.
Qed.

(** X8. [get_reel_strip_length] has four outcomes: a length of at least 3;
    the exception that reading or decoding [config.json] raised;
    [AttributeError] for a decoded document that is not an object and not
    empty; [OverflowError] for a configured value that is an infinite float.
    Every other configured value, of whatever type, gives a length. *)
Theorem reel_strip_length_outcomes (config_json : source) :
  (∃ n, get_reel_strip_length config_json = Ok n ∧ (3 ≤ n)%Z) ∨
  (∃ e, config_json = Broken e ∧ get_reel_strip_length config_json = Raise e) ∨
  (∃ data, config_json = Doc data ∧ truthy data = true ∧ (∀ d, data ≠ PDict d) ∧
           get_reel_strip_length config_json = Raise AttributeError) ∨
  (∃ d f, config_json = Doc (PDict d) ∧
          dict_get d "reel_strip_length" (PInt 6) = PFloat f ∧ is_infinity f = true ∧
          get_reel_strip_length config_json = Raise OverflowError).
Proof.
  assert (Hval : ∀ v, (∃ n, (length ← except_type_value (py_int v) 6%Z;
                             Ok (Z.max 3 length)) = Ok n ∧ (3 ≤ n)%Z) ∨
                      (∃ f, v = PFloat f ∧ is_infinity f = true ∧
                            (length ← except_type_value (py_int v) 6%Z;
                             Ok (Z.max 3 length)) = Raise OverflowError)).
  { intros v. destruct v as [|b|z|f|s|l|d]; simpl;
      try (left; eexists; split; [done|lia]).
    - destruct (int_of_float f) as [n|e] eqn:E; simpl.
      + left. eexists. split; [done|lia].
      + apply int_of_float_raises in E as [->|[-> Hinf]]; simpl.
        * left. eexists. split; [done|lia].
        * right. by exists f.
    - destruct (int_of_str s) as [n|e] eqn:E; simpl.
      + left. eexists. split; [done|lia].
      + apply int_of_str_raises in E as ->. simpl. left. eexists. split; [done|lia]. }
  destruct config_json as [|e|data]; unfold get_reel_strip_length; simpl.
  - left. eexists. split; [done|lia].
  - right. left. by exists e.
  - destruct data as [|b|z|f|s|l|d]; unfold or_empty_dict; simpl.
    + left. eexists. split; [done|lia].
    + destruct b; simpl; [|left; eexists; split; [done|lia]].
      right. right. left. eexists. by repeat split.
    + destruct (z =? 0)%Z eqn:E; simpl; [left; eexists; split; [done|lia]|].
      right. right. left. eexists. repeat split; try done. simpl. by rewrite E.
    + destruct (f =? 0)%float eqn:E; simpl; [left; eexists; split; [done|lia]|].
      right. right. left. eexists. repeat split; try done. simpl. by rewrite E.
    + destruct (String.eqb s "") eqn:E; simpl; [left; eexists; split; [done|lia]|].
      right. right. left. eexists. repeat split; try done. simpl. by rewrite E.
    + destruct l; simpl; [left; eexists; split; [done|lia]|].
      right. right. left. eexists. by repeat split.
    + assert (Hd : (if match d with [] => false | _ :: _ => true end
                    then PDict d else PDict []) = PDict d) by by destruct d.
      rewrite Hd. simpl.
      destruct (Hval (dict_get d "reel_strip_length" (PInt 6))) as [Hok|(f & Hf & Hinf & Hr)].
      * by left.
      * right. right. right. exists d, f. by rewrite Hf in *.
Qed.

(** ** Counting the eligible positions *)

Lemma drop_tail {A : Type} (n : nat) (l : list A) : drop n (tail l) = drop (S n) l.
Proof. destruct l; simpl; [by rewrite drop_nil|done]. Qed.

Lemma available_from_insert (bias_symbols strip : list string) (i0 idx : nat)
    (s b : string) :
  strip !! idx = Some s -> s ∉ bias_symbols -> b ∈ bias_symbols ->
  S (length (available_from i0 bias_symbols (<[idx := b]> strip)))
  = length (available_from i0 bias_symbols strip).
Proof.
  intros Hidx Hs Hb. revert i0 idx Hidx.
  induction strip as [|x strip IH]; intros i0 idx Hidx; [done|].
  destruct idx as [|idx]; simpl in *.
  - simplify_eq. by rewrite bool_decide_eq_true_2, bool_decide_eq_false_2.
  - case_bool_decide; simpl; by rewrite (IH (S i0) idx Hidx).
Qed.

Lemma rig_loop_nothing_eligible (bias_symbols todo strip : list string) (w : world) :
  available_from 0 bias_symbols strip = [] ->
  rig_loop bias_symbols todo strip w = (Ok strip, w).
Proof.
  intros Hnil. induction todo as [|b todo IH]; simpl; [done|].
  rewrite bind_run. unfold rig_insert. rewrite Hnil. by rewrite ret_run.
Qed.

(** The pass inserts as many symbols as there are eligible positions, at
    most one per listed symbol, and draws once per insertion. *)
Lemma rig_loop_count (bias_symbols todo strip : list string) (w : world) :
  Forall (λ b, b ∈ bias_symbols) todo ->
  ∃ strip' w',
    rig_loop bias_symbols todo strip w = (Ok strip', w') ∧
    rng w' = drop (length todo `min` eligible bias_symbols strip) (rng w) ∧
    eligible bias_symbols strip' = eligible bias_symbols strip - length todo ∧
    (length todo ≤ eligible bias_symbols strip -> Forall (λ b, b ∈ strip') todo).
Proof.
  intros Htodo. revert strip w.
  induction Htodo as [|b todo Hb _ IH]; intros strip w.
  - exists strip, w. simpl. rewrite Nat.sub_0_r. by repeat split.
  - cbn [rig_loop]. rewrite bind_run.
    destruct (rig_insert_run bias_symbols strip b w)
      as [[Hnil Hrun]|(idx & s & _ & Hidx & Hs & _ & Hrun)]; rewrite Hrun.
    + rewrite (rig_loop_nothing_eligible _ _ _ _ Hnil).
      exists strip, w. unfold eligible. rewrite Hnil. simpl.
      repeat split; try done. lia.
    + pose proof (available_from_insert bias_symbols strip 0 idx s b Hidx Hs Hb) as Hcount.
      destruct (IH (<[idx := b]> strip) (World (heap w) (tail (rng w))))
        as (strip' & w' & Hloop & Hrng & Helig & Hall).
      exists strip', w'. unfold eligible in *. cbn [rng] in Hrng.
      split; [done|]. split; [|split].
      * rewrite Hrng, drop_tail. f_equal. cbn [length]. lia.
      * cbn [length]. lia.
      * cbn [length]. intros Hle. constructor; [|apply Hall; lia].
        eapply list_elem_of_lookup_2.
        eapply (rig_loop_stable _ _ _ _ _ _ idx b Hloop); [|done].
        apply list_lookup_insert_eq. by eapply lookup_lt_Some.
Qed.

(** X9. The rigging pass keeps its promise exactly when the draw leaves it
    room: if the strip has at least as many positions holding no bias
    symbol as [bias_symbols] has entries, every bias symbol is in the
    returned strip (repeated entries included, each using a position). *)
Theorem rigging_inserts_all_when_room (b : string) (bs strip : list string) (w : world) :
  length (b :: bs) ≤ eligible (b :: bs) strip ->
  ∃ strip' w',
    rig (Some (b :: bs)) strip w = (Ok strip', w') ∧
    Forall (λ s, s ∈ strip') (b :: bs) ∧
    eligible (b :: bs) strip' = eligible (b :: bs) strip - length (b :: bs).
Proof.
  intros Hroom.
  destruct (rig_loop_count (b :: bs) (b :: bs) strip w)
    as (strip' & w' & Hloop & _ & Helig & Hall).
  { by apply Forall_forall. }
  exists strip', w'. split; [done|]. split; [by apply Hall|done].
Qed.

Lemma rigging_inserts_all_when_room_witness :
  ∃ strip' w',
    rig (Some ["gem_1"; "bomb_1"]) ["gem_1"; "coin_1"; "coin_pile"; "gem_1"] (boot [0; 0]%N)
      = (Ok strip', w') ∧
    Forall (λ s, s ∈ strip') ["gem_1"; "bomb_1"] ∧
    eligible ["gem_1"; "bomb_1"] strip'
      = eligible ["gem_1"; "bomb_1"] ["gem_1"; "coin_1"; "coin_pile"; "gem_1"] - 2.
Proof.
  apply (rigging_inserts_all_when_room "gem_1" ["bomb_1"]
           ["gem_1"; "coin_1"; "coin_pile"; "gem_1"] (boot [0; 0]%N)).
  vm_compute. lia.
Defined.

(** X10. The rigging pass draws from the generator once per insertion and
    not at all for an insertion it skips: it uses up as many draws as the
    smaller of the number of bias symbols and the number of eligible
    positions. *)
Theorem rigging_draws_once_per_insertion (bias_symbols : option (list string))
    (strip : list string) (w : world) :
  ∃ strip' w',
    rig bias_symbols strip w = (Ok strip', w') ∧
    rng w' = drop (match bias_symbols with
                   | Some bs => length bs `min` eligible bs strip
                   | None => 0
                   end) (rng w).
Proof.
  destruct bias_symbols as [[|b bs]|]; try by exists strip, w.
  destruct (rig_loop_count (b :: bs) (b :: bs) strip w)
    as (strip' & w' & Hloop & Hrng & _).
  { by apply Forall_forall. }
  by exists strip', w'.
Qed.

Lemma rig_loop_local (bs todo strip strip' : list string) (w w' : world) (i : nat) :
  rig_loop bs todo strip w = (Ok strip', w') ->
  strip' !! i = strip !! i ∨
  ∃ s b, strip !! i = Some s ∧ (s ∉ bs) ∧ strip' !! i = Some b ∧ b ∈ todo.
Proof.
  revert strip strip' w w'. induction todo as [|b todo IH]; intros strip strip' w w'.
  - simpl. rewrite ret_run. intros [= <- <-]. by left.
  - cbn [rig_loop]. rewrite bind_run.
    destruct (rig_insert_run bs strip b w)
      as [[Hnil Hrun]|(idx & s & _ & Hidx & Hs & _ & Hrun)]; rewrite Hrun; intros Hrest.
    + destruct (IH _ _ _ _ Hrest) as [?|(s & b' & ? & ? & ? & ?)]; [by left|].
      right. exists s, b'. repeat split; try done. by right.
    + destruct (decide (i = idx)) as [->|Hne].
      * right. destruct (IH _ _ _ _ Hrest) as [Heq|(s1 & b' & _ & _ & Hb' & Hin)].
        -- exists s, b. repeat split; try done; [|by left].
           rewrite Heq. apply list_lookup_insert_eq. by eapply lookup_lt_Some.
        -- exists s, b'. repeat split; try done. by right.
      * destruct (IH _ _ _ _ Hrest) as [Heq|(s1 & b' & Hs1 & Hn1 & Hb' & Hin)].
        -- left. by rewrite Heq, list_lookup_insert_ne.
        -- right. rewrite list_lookup_insert_ne in Hs1 by done.
           exists s1, b'. repeat split; try done. by right.
Qed.

(** X11. The rigging pass touches nothing else: at every position the
    returned strip holds what the draw put there, or the draw had put a
    symbol outside [bias_symbols] there and the position now holds one of
    the bias symbols. *)
Theorem rigging_changes_only_eligible_slots (bias_symbols : option (list string))
    (strip strip' : list string) (w w' : world) (i : nat) :
  rig bias_symbols strip w = (Ok strip', w') ->
  strip' !! i = strip !! i ∨
  ∃ bs s b, bias_symbols = Some bs ∧ strip !! i = Some s ∧ (s ∉ bs) ∧
            strip' !! i = Some b ∧ b ∈ bs.
Proof.
  destruct bias_symbols as [[|b bs]|]; cbn [rig].
  - rewrite ret_run. intros [= <- <-]. by left.
  - intros Hrun.
    destruct (rig_loop_local _ _ _ _ _ _ i Hrun) as [?|(s & b' & ? & ? & ? & ?)]; [by left|].
    right. by exists (b :: bs), s, b'.
  - rewrite ret_run. intros [= <- <-]. by left.
Qed.

Lemma rigging_changes_only_eligible_slots_witness :
  ["gem_1"; "gem_1"; "bomb_1"; "gem_1"] !! 2
    = ["gem_1"; "coin_1"; "coin_pile"; "gem_1"] !! 2 ∨
  ∃ bs s b, Some ["gem_1"; "bomb_1"] = Some bs ∧
            ["gem_1"; "coin_1"; "coin_pile"; "gem_1"] !! 2 = Some s ∧ (s ∉ bs) ∧
            ["gem_1"; "gem_1"; "bomb_1"; "gem_1"] !! 2 = Some b ∧ b ∈ bs.
Proof.
  apply (rigging_changes_only_eligible_slots (Some ["gem_1"; "bomb_1"])
           ["gem_1"; "coin_1"; "coin_pile"; "gem_1"]
           ["gem_1"; "gem_1"; "bomb_1"; "gem_1"] (boot [0; 0]%N) (boot []) 2).
  reflexivity.
Defined.

(** ** Draws used by a call *)

Lemma draw_samples_draws (population : list string) (cum_weights : list num)
    (total : float) (hi k : nat) (w w' : world) (strip : list string) :
  draw_samples population cum_weights total hi k w = (Ok strip, w') ->
  rng w' = drop k (rng w).
Proof.
  revert w w' strip. induction k as [|k IH]; intros w w' strip; simpl.
  - rewrite ret_run. by intros [= <- <-].
  - rewrite bind_run. destruct (random_run w) as [u ->]. run.
    destruct (bisect _ _ _ _) as [i|e]; [|done]. run.
    destruct (population !! i) as [s|]; [|done]. run.
    destruct (draw_samples _ _ _ _ k _) as [[rest|e] w1] eqn:E; [|done].
    intros [= <- <-]. rewrite (IH _ _ _ E). cbn [rng]. apply drop_tail.
Qed.

Lemma random_choices_draws (population : list string) (weights : list num) (k : nat)
    (w w' : world) (strip : list string) :
  random_choices population weights k w = (Ok strip, w') -> rng w' = drop k (rng w).
Proof.
  unfold random_choices. run.
  destruct (accumulate weights) as [cum|e]; [|done]. run.
  destruct (negb _); [done|]. run.
  destruct (total_of cum) as [total|e]; [|done]. run.
  destruct (total <=? 0)%float; [done|]. destruct (negb _); [done|].
  apply draw_samples_draws.
Qed.

Lemma defaults_intact_preserved (w w' : world) :
  defaults_intact w -> preserved w w' -> defaults_intact w'.
Proof.
  unfold defaults_intact. intros H Hp. rewrite Hp; [done|]. by eapply lookup_lt_Some.
Qed.

(** A call on a table whose adjusted total is positive and finite: the draw
    uses [length] draws and gives keys of the adjusted table, the rigging
    pass runs on that strip, and the defaults are left intact. *)
Lemma generate_steps (symbol_weights_json : source) (length : nat)
    (bias_symbols : option (list string)) (bomb_multiplier : pyval)
    (w : world) (d d' : wdict) (total : float) :
  defaults_intact w ->
  loaded_table symbol_weights_json = Ok d ->
  bomb_scaled d bomb_multiplier = (Ok tt, d') ->
  table_total d' = Ok total -> (total <=? 0)%float = false -> is_finite total = true ->
  ∃ strip0 w2 strip w',
    Forall (λ s, s ∈ map fst d') strip0 ∧ List.length strip0 = length ∧
    rng w2 = drop length (rng w) ∧
    rig bias_symbols strip0 w2 = (Ok strip, w') ∧
    List.length strip = length ∧
    generate_weighted_strip symbol_weights_json length bias_symbols bomb_multiplier w
      = (Ok strip, w') ∧
    defaults_intact w'.
Proof.
  intros H Ht Hbomb Htot Hpos Hfin.
  pose proof (load_symbol_weights_table symbol_weights_json w H) as Hl.
  rewrite Ht in Hl. destruct Hl as (r & w1 & Hload & Hd & _ & Hrng).
  pose proof (generate_weighted_strip_frame symbol_weights_json length bias_symbols
                bomb_multiplier w) as Hframe.
  rewrite (generate_run _ _ _ _ _ _ _ _ Hload Hd), Hbomb in *. cbn [fst snd] in *.
  cbv zeta in *. set (w2 := World _ _) in *.
  destruct (random_choices_ok d' total length w2 Htot Hpos Hfin)
    as (strip0 & w3 & Hdraw & Hlen & Hall & _).
  destruct (rig_ok bias_symbols strip0 w3) as (strip & w' & Hrig & Hlen' & _).
  rewrite bind_run, Hdraw, Hrig in *. cbn [snd] in Hframe.
  exists strip0, w3, strip, w'. repeat split; try done.
  - rewrite (random_choices_draws _ _ _ _ _ _ Hdraw). unfold w2. cbn [rng]. by rewrite Hrng.
  - congruence.
  - by eapply defaults_intact_preserved.
Qed.

(** X12. A call without bias symbols on a table whose total is positive and
    finite uses exactly [length] draws of the generator, and what it returns
    is decided by the table and those draws. *)
Theorem unbiased_call_uses_length_draws (symbol_weights_json : source) (length : nat)
    (bomb_multiplier : pyval) (w w1 : world) (r : ref) (d d' : wdict) (total : float) :
  defaults_intact w ->
  load_symbol_weights symbol_weights_json w = (Ok r, w1) ->
  heap w1 !! r = Some d ->
  bomb_scaled d bomb_multiplier = (Ok tt, d') ->
  table_total d' = Ok total -> (0 <? total)%float = true -> is_finite total = true ->
  ∃ strip w',
    generate_weighted_strip symbol_weights_json length None bomb_multiplier w
      = (Ok strip, w') ∧
    rng w' = drop length (rng w) ∧
    strip_from_table d length None bomb_multiplier (rng w) = Ok strip.
Proof.
  intros H Hload Hd Hbomb Htot Hpos Hfin.
  pose proof (load_symbol_weights_inv _ _ _ _ _ H Hload Hd) as Ht.
  destruct (generate_steps symbol_weights_json length None bomb_multiplier w d d' total)
    as (strip0 & w2 & strip & w' & _ & _ & Hrng & Hrig & _ & Hgen & _);
    [done|done|done|done|by apply float_pos_not_le|done|].
  cbn [rig] in Hrig. rewrite ret_run in Hrig. simplify_eq.
  exists strip, w'. split; [done|]. split; [done|].
  rewrite <- (generate_outcome _ length None bomb_multiplier _ _ _ _ Hload Hd).
  by rewrite Hgen.
Qed.

Lemma unbiased_call_uses_length_draws_witness :
  ∃ strip w',
    generate_weighted_strip Missing 3 None (PFloat 2) (boot [1; 2; 3; 4; 5]%N)
      = (Ok strip, w') ∧
    rng w' = drop 3 (rng (boot [1; 2; 3; 4; 5]%N)) ∧
    strip_from_table default_table 3 None (PFloat 2) (rng (boot [1; 2; 3; 4; 5]%N))
      = Ok strip.
Proof.
  apply (unbiased_call_uses_length_draws Missing 3 (PFloat 2) (boot [1; 2; 3; 4; 5]%N)
           (World [default_table; default_table] [1; 2; 3; 4; 5]%N) 1 default_table
           (dict_set (dict_set default_table "bomb_1" (NFloat 30)) "bomb_atom" (NFloat 10))
           115%float); reflexivity.
Defined.

(** ** Calls that fail *)

Lemma random_choices_bad_total (d : wdict) (total : float) (k : nat) (w : world) :
  table_total d = Ok total ->
  (total <=? 0)%float = true ∨ is_finite total = false ->
  random_choices (map fst d) (map snd d) k w = (Raise ValueError, w).
Proof.
  intros Htot Hbad. unfold table_total in Htot. unfold random_choices. run.
  destruct (accumulate (map snd d)) as [cum|e] eqn:Hacc; simpl in Htot; [|done]. run.
  apply accumulate_length in Hacc. rewrite !length_map in *. rewrite Hacc, Nat.eqb_refl.
  cbn [negb]. run. rewrite Htot. run.
  destruct (total <=? 0)%float; [done|]. destruct Hbad as [?| ->]; done.
Qed.

(** X13. The fallback of [load_symbol_weights] does not cover what the bomb
    multiplier does afterwards: whenever the total of the adjusted weights
    is not above zero or is not finite, the call raises [ValueError]. A
    multiplier of 0 on a table in which only the bomb symbols have weight is
    such a case. *)
Theorem call_fails_on_bad_total (symbol_weights_json : source) (length : nat)
    (bias_symbols : option (list string)) (bomb_multiplier : pyval)
    (w w1 : world) (r : ref) (d d' : wdict) (total : float) :
  load_symbol_weights symbol_weights_json w = (Ok r, w1) ->
  heap w1 !! r = Some d ->
  bomb_scaled d bomb_multiplier = (Ok tt, d') ->
  table_total d' = Ok total ->
  (total <=? 0)%float = true ∨ is_finite total = false ->
  (generate_weighted_strip symbol_weights_json length bias_symbols bomb_multiplier w).1
    = Raise ValueError.
Proof.
  intros Hload Hd Hbomb Htot Hbad.
  rewrite (generate_run _ _ _ _ _ _ _ _ Hload Hd), Hbomb. cbn [fst snd]. cbv zeta.
  rewrite bind_run. by rewrite (random_choices_bad_total _ _ _ _ Htot Hbad).
Qed.

Lemma call_fails_on_bad_total_witness :
  (generate_weighted_strip (Doc bombs_only_document) 6 None (PFloat 0) (boot [1; 2]%N)).1
    = Raise ValueError.
Proof.
  apply (call_fails_on_bad_total (Doc bombs_only_document) 6 None (PFloat 0) (boot [1; 2]%N)
           (World [default_table;
                   [("coin_1", NFloat 0); ("coin_stack", NFloat 0); ("coin_pile", NFloat 0);
                    ("gem_1", NFloat 0); ("gem_many", NFloat 0); ("bomb_1", NInt 15);
                    ("bomb_atom", NInt 5); ("card_item", NFloat 0);
                    ("random_item", NFloat 0)]] [1; 2]%N) 1
           [("coin_1", NFloat 0); ("coin_stack", NFloat 0); ("coin_pile", NFloat 0);
            ("gem_1", NFloat 0); ("gem_many", NFloat 0); ("bomb_1", NInt 15);
            ("bomb_atom", NInt 5); ("card_item", NFloat 0); ("random_item", NFloat 0)]
           [("coin_1", NFloat 0); ("coin_stack", NFloat 0); ("coin_pile", NFloat 0);
            ("gem_1", NFloat 0); ("gem_many", NFloat 0); ("bomb_1", NFloat 0);
            ("bomb_atom", NFloat 0); ("card_item", NFloat 0); ("random_item", NFloat 0)]
           0%float); try reflexivity.
  left. reflexivity.
Defined.

(** ** Integer weights of a loaded table *)

Lemma float_of_int_small (z : Z) :
  (0 <= z <= 250)%Z -> ∃ f, float_of_int z = Ok f.
Proof.
  intros Hz.
  assert (Hall : forallb (λ n, match float_of_int (Z.of_nat n) with
                               | Ok _ => true
                               | Raise _ => false
                               end) (seq 0 251) = true) by by vm_compute.
  rewrite forallb_forall in Hall. specialize (Hall (Z.to_nat z)).
  rewrite Z2Nat.id in Hall by lia.
  destruct (float_of_int z) as [f|e]; [by eexists|].
  discriminate Hall. apply in_seq. lia.
Qed.

Lemma default_sized_float (v : num) : default_sized v -> ∃ f, num_float v = Ok f.
Proof.
  destruct v as [z|f]; simpl; [|by eexists]. intros Hz. apply float_of_int_small. lia.
Qed.

Lemma dict_set_count_ints (d : wdict) (key : string) (f : float) :
  count_ints (map snd (dict_set d key (NFloat f))) ≤ count_ints (map snd d).
Proof.
  induction d as [|[k [z|x]] d IH]; simpl; [lia| |];
    destruct (String.eqb k key); simpl; lia.
Qed.

Lemma merge_all_ints (d : wdict) (items : list (string * pyval)) :
  Forall default_sized (map snd d) ->
  Forall default_sized (map snd (merge_all d items).2) ∧
  count_ints (map snd (merge_all d items).2) ≤ count_ints (map snd d).
Proof.
  revert d. induction items as [|[sym cfg] items IH]; intros d Hd; simpl; [done|].
  destruct (merge_step d sym cfg) as [d'|e] eqn:E; [|done].
  assert (Forall default_sized (map snd d') ∧
          count_ints (map snd d') ≤ count_ints (map snd d)) as [Hd' Hc].
  { unfold merge_step in E. destruct cfg as [| | | | | |c]; try by simplify_eq.
    destruct (py_float _) as [x|[]]; try done; try by simplify_eq.
    destruct (x <? 0)%float; simplify_eq; [done|].
    split; [by apply dict_set_Forall|apply dict_set_count_ints]. }
  destruct (IH d' Hd') as [? ?]. split; [done|lia].
Qed.

Lemma default_table_ints :
  Forall default_sized (map snd default_table) ∧ count_ints (map snd default_table) ≤ 9.
Proof. split; [|simpl; lia]. repeat constructor; simpl; lia. Qed.

Lemma loaded_table_ints (symbol_weights_json : source) (d : wdict) :
  loaded_table symbol_weights_json = Ok d ->
  Forall default_sized (map snd d) ∧ count_ints (map snd d) ≤ 9.
Proof.
  destruct symbol_weights_json as [|e|data]; cbn [loaded_table];
    try (intros [= <-]; apply default_table_ints).
  destruct (py_get _ _ _) as [symbols|e]; simpl; [|done].
  destruct (py_items symbols) as [items|e]; simpl; [|done].
  pose proof (merge_all_ints default_table items (proj1 default_table_ints)) as [Hs Hc].
  destruct (merge_all default_table items) as [[[]|e] d1]; simpl in *; [|done].
  destruct (sum_floats 0 (map snd d1)) as [total|e]; simpl; [|done].
  destruct (total <=? 0)%float; intros [= <-]; [apply default_table_ints|].
  split; [done|]. pose proof (proj2 default_table_ints). lia.
Qed.

Lemma last_of_Forall {A : Type} (P : A -> Prop) (l : list A) :
  l ≠ [] -> Forall P l -> ∃ c, last l = Some c ∧ P c.
Proof.
  intros Hne Hall. destruct (last l) as [c|] eqn:El.
  - exists c. split; [done|]. rewrite Forall_forall in Hall. apply Hall.
    by eapply last_Some_elem_of.
  - by apply last_None in El.
Qed.

(** Accumulating the weights of such a table never overflows, and every
    partial sum can be turned into a float. *)
Lemma accumulate_from_ints (acc : num) (weights : list num) :
  Forall default_sized weights ->
  match acc with
  | NInt a => (0 <= a)%Z ∧ (a + 25 * Z.of_nat (count_ints weights) <= 250)%Z
  | NFloat _ => True
  end ->
  ∃ cum, accumulate_from acc weights = Ok cum ∧
         Forall (λ c, ∃ f, num_float c = Ok f) cum.
Proof.
  intros Hall. revert acc. induction Hall as [|v weights Hv _ IH]; intros acc Hacc; simpl.
  - by eexists.
  - destruct acc as [a|x], v as [z|y]; simpl in *.
    + destruct (IH (NInt (a + z)%Z)) as (cum & -> & Hcum); [lia|]. eexists. split; [done|].
      constructor; [|done]. apply float_of_int_small. lia.
    + destruct (float_of_int_small a) as [fa ->]; [lia|]. simpl.
      destruct (IH (NFloat (fa + y))) as (cum & -> & Hcum); [done|]. eexists. split; [done|].
      constructor; [by eexists|done].
    + destruct (float_of_int_small z) as [fz ->]; [lia|]. simpl.
      destruct (IH (NFloat (x + fz))) as (cum & -> & Hcum); [done|]. eexists. split; [done|].
      constructor; [by eexists|done].
    + destruct (IH (NFloat (x + y))) as (cum & -> & Hcum); [done|]. eexists. split; [done|].
      constructor; [by eexists|done].
Qed.

Lemma accumulate_ints (weights : list num) :
  Forall default_sized weights -> count_ints weights ≤ 9 ->
  ∃ cum, accumulate weights = Ok cum ∧ Forall (λ c, ∃ f, num_float c = Ok f) cum.
Proof.
  intros Hall Hc. destruct Hall as [|v weights Hv Hall]; simpl; [by eexists|].
  destruct (accumulate_from_ints v weights Hall) as (cum & -> & Hcum).
  - destruct v as [z|f]; simpl in *; [lia|done].
  - eexists. split; [done|]. constructor; [by apply default_sized_float|done].
Qed.

(** The total of such a table is computed without an exception, provided
    the table is not empty. *)
Lemma table_total_ints (d : wdict) :
  Forall default_sized (map snd d) -> count_ints (map snd d) ≤ 9 -> d ≠ [] ->
  ∃ total, table_total d = Ok total.
Proof.
  intros Hall Hc Hne. unfold table_total.
  destruct (accumulate_ints _ Hall Hc) as (cum & Hcum & Hconv). rewrite Hcum. simpl.
  assert (Hcum' : cum ≠ []).
  { apply accumulate_length in Hcum. rewrite length_map in Hcum.
    destruct cum; [|done]. by destruct d. }
  destruct (last_of_Forall _ cum Hcum' Hconv) as (c & Hl & f & Hf).
  unfold total_of. rewrite Hl, Hf. by eexists.
Qed.

(** ** Weights that are not finite *)

Lemma num_add_not_finite (a b s : num) :
  num_add a b = Ok s -> not_finite_weight a ∨ not_finite_weight b -> not_finite_weight s.
Proof.
  intros Hadd Hnf.
  assert (∃ x y, s = NFloat (x + y) ∧ (is_finite x = false ∨ is_finite y = false))
    as (x & y & -> & Hxy).
  { destruct Hnf as [(f & -> & Hf)|(f & -> & Hf)]; unfold num_add in Hadd.
    - simpl in Hadd. destruct (num_float b) as [y|e]; simpl in Hadd; [|done].
      simplify_eq. exists f, y. auto.
    - destruct a as [z|x]; simpl in Hadd.
      + destruct (float_of_int z) as [x|e]; simpl in Hadd; [|done].
        simplify_eq. exists x, f. simpl. auto.
      + simplify_eq. exists x, f. auto. }
  exists (x + y)%float. split; [done|]. by apply add_not_finite.
Qed.

Lemma accumulate_from_not_finite (acc : num) (weights cum : list num) :
  accumulate_from acc weights = Ok cum ->
  (not_finite_weight acc -> Forall not_finite_weight cum) ∧
  (Exists not_finite_weight weights -> ∃ c, last cum = Some c ∧ not_finite_weight c).
Proof.
  revert acc cum. induction weights as [|v weights IH]; intros acc cum; simpl.
  - intros [= <-]. split; [done|]. by intros ?%Exists_nil.
  - destruct (num_add acc v) as [s|e] eqn:Hs; simpl; [|done].
    destruct (accumulate_from s weights) as [rest|e] eqn:Hrest; simpl; [|done].
    intros [= <-]. destruct (IH _ _ Hrest) as [IH1 IH2]. split.
    + intros Hacc. assert (not_finite_weight s) by (eapply num_add_not_finite; eauto).
      constructor; auto.
    + intros [Hv|Hex]%Exists_cons.
      * assert (Hns : not_finite_weight s) by (eapply num_add_not_finite; eauto).
        apply last_of_Forall; [done|]. constructor; auto.
      * destruct (IH2 Hex) as (c & Hc & Hnf). exists c. split; [|done].
        rewrite last_cons. by rewrite Hc.
Qed.

Lemma table_total_not_finite (d : wdict) :
  Forall default_sized (map snd d) -> count_ints (map snd d) ≤ 9 ->
  Exists not_finite_weight (map snd d) ->
  ∃ total, table_total d = Ok total ∧ is_finite total = false.
Proof.
  intros Hall Hc Hex. unfold table_total.
  destruct (accumulate_ints _ Hall Hc) as (cum & Hcum & _). rewrite Hcum. simpl.
  assert (∃ c, last cum = Some c ∧ not_finite_weight c) as (c & Hl & f & -> & Hf).
  { destruct (map snd d) as [|v weights]; [by apply Exists_nil in Hex|].
    simpl in Hcum. destruct (accumulate_from v weights) as [rest|e] eqn:Hrest; [|done].
    simpl in Hcum. simplify_eq.
    destruct (accumulate_from_not_finite _ _ _ Hrest) as [H1 H2].
    apply Exists_cons in Hex as [Hv|Hex].
    - apply last_of_Forall; [done|]. constructor; auto.
    - destruct (H2 Hex) as (c & Hc' & Hnf). exists c. split; [|done].
      by rewrite last_cons, Hc'. }
  unfold total_of. rewrite Hl. simpl. eexists. split; [done|].
  apply add_not_finite. by left.
Qed.

(** ** The multiplier on a loaded table *)

Lemma scale_step_ints (d : wdict) (sym : string) (bm : float) :
  Forall default_sized (map snd d) ->
  ∃ d', scale_step d sym bm = Ok d' ∧
        Forall default_sized (map snd d') ∧
        count_ints (map snd d') ≤ count_ints (map snd d) ∧
        map fst d' = map fst d ∧
        (is_Some (dict_lookup d sym) ->
         ∃ x, dict_lookup d' sym = Some (NFloat (x * bm))) ∧
        (∀ key, key ≠ sym -> dict_lookup d' key = dict_lookup d key).
Proof.
  intros Hall. unfold scale_step. destruct (dict_lookup d sym) as [v|] eqn:E.
  - assert (default_sized v) as Hv.
    { rewrite Forall_forall in Hall. apply Hall. apply list_elem_of_fmap.
      exists (sym, v). split; [done|]. by apply dict_lookup_elem. }
    destruct (default_sized_float v Hv) as [x ->]. simpl. eexists. split; [done|].
    split; [by apply dict_set_Forall|]. split; [apply dict_set_count_ints|].
    split; [apply dict_set_keys; by rewrite E|]. split.
    + intros _. exists x. apply dict_lookup_set_eq.
    + intros key Hne. by apply dict_lookup_set_ne.
  - exists d. repeat split; done.
Qed.

Lemma bomb_scaled_float (d : wdict) (bm : float) :
  Forall default_sized (map snd d) -> count_ints (map snd d) ≤ 9 ->
  ∃ d', bomb_scaled d (PFloat bm) = (Ok tt, d') ∧
        Forall default_sized (map snd d') ∧ count_ints (map snd d') ≤ 9 ∧
        map fst d' = map fst d ∧
        (is_finite bm = false -> (bm <? 0)%float = false ->
         is_Some (dict_lookup d "bomb_atom") ->
         Exists not_finite_weight (map snd d')).
Proof.
  intros Hall Hc. unfold bomb_scaled, coerce_multiplier. simpl.
  destruct (bm <? 0)%float eqn:Hneg.
  - exists d. repeat split; try done.
  - destruct (bm =? 1)%float eqn:Hone.
    + exists d. repeat split; try done. intros Hnf _ _.
      by rewrite (not_finite_not_lt_cases bm Hnf Hneg) in Hone.
    + destruct (scale_step_ints d "bomb_1" bm Hall)
        as (d1 & -> & Hall1 & Hc1 & Hk1 & _ & Ho1).
      destruct (scale_step_ints d1 "bomb_atom" bm Hall1)
        as (d2 & -> & Hall2 & Hc2 & Hk2 & Hb2 & _).
      exists d2. split; [done|]. split; [done|]. split; [lia|]. split; [congruence|].
      intros Hnf _ Hatom. rewrite <- (Ho1 "bomb_atom") in Hatom by done.
      destruct (Hb2 Hatom) as [x Hx]. apply Exists_exists.
      exists (NFloat (x * bm)). split.
      * apply list_elem_of_fmap. exists ("bomb_atom", NFloat (x * bm)).
        split; [done|]. by apply dict_lookup_elem.
      * eexists. split; [done|]. by apply mul_not_finite.
Qed.

Lemma loaded_table_has_bomb_atom (symbol_weights_json : source) (d : wdict) :
  loaded_table symbol_weights_json = Ok d -> is_Some (dict_lookup d "bomb_atom").
Proof.
  intros Ht. apply dict_lookup_keys.
  destruct (loaded_table_keys _ _ Ht) as [k ->]. apply elem_of_app. left.
  apply (bool_decide_unpack _). by vm_compute.
Qed.

(** ** The total weight of a table *)

Lemma same_number_refl (a : float) : same_number a a.
Proof. by left. Qed.

Lemma same_number_trans (a b c : float) :
  same_number a b -> same_number b c -> same_number a c.
Proof.
  intros [Hab|(s & s' & Ha & Hb)] [Hbc|(t & t' & Hb' & Hc)].
  - left. congruence.
  - right. exists t, t'. split; congruence.
  - right. exists s, s'. split; congruence.
  - right. by exists s, t'.
Qed.

Lemma same_number_add (a b y : float) :
  same_number a b -> same_number (a + y) (b + y).
Proof.
  unfold same_number. rewrite !FloatAxioms.add_spec.
  intros [->|(s & s' & -> & ->)]; [by left|].
  destruct (Prim2SF y) as [sy|sy| |sy m e]; simpl.
  - right. destruct s, s', sy; simpl; eauto.
  - by left.
  - by left.
  - by left.
Qed.

Lemma same_number_zero_add (x : float) : same_number x (0 + x).
Proof.
  unfold same_number. rewrite FloatAxioms.add_spec.
  change (Prim2SF 0) with (S754_zero false).
  destruct (Prim2SF x) as [s|s| |s m e]; simpl.
  - right. destruct s; simpl; eauto.
  - by left.
  - by left.
  - by left.
Qed.

Lemma same_number_add_zero (x : float) : same_number (x + 0) x.
Proof.
  unfold same_number. rewrite FloatAxioms.add_spec.
  change (Prim2SF 0) with (S754_zero false).
  destruct (Prim2SF x) as [s|s| |s m e]; simpl.
  - right. destruct s; simpl; eauto.
  - by left.
  - by left.
  - by left.
Qed.

Lemma same_number_tests (a b : float) :
  same_number a b ->
  (0 <? a)%float = (0 <? b)%float ∧ (a <=? 0)%float = (b <=? 0)%float ∧
  is_finite a = is_finite b.
Proof.
  rewrite !FloatAxioms.ltb_spec, !FloatAxioms.leb_spec, !is_finite_class.
  change (Prim2SF 0) with (S754_zero false).
  intros [Hab|(s & s' & Ha & Hb)].
  - by rewrite Hab.
  - rewrite Ha, Hb. done.
Qed.

Lemma eqb_same_number (a b : float) : (a =? b)%float = true -> same_number a b.
Proof.
  rewrite FloatAxioms.eqb_spec. unfold same_number, SFeqb, SFcompare.
  destruct (Prim2SF a) as [s|s| |s m e], (Prim2SF b) as [s'|s'| |s' m' e'];
    try done; try (by destruct s); try (by destruct s'); try (by right; eauto).
  - destruct s, s'; try done; by left.
  - destruct s, s'; try done;
      (destruct (Z.compare_spec e e') as [->| |]; [|done..]);
      change (PosDef.Pos.compare_cont Eq m m') with (Pos.compare m m');
      destruct (Pos.compare_spec m m') as [->| |]; try done; by left.
Qed.

Lemma num_float_value (v : num) (x : float) : num_float v = Ok x -> x = weight_value v.
Proof.
  destruct v as [z|f]; simpl; [|by intros [= <-]].
  unfold float_of_int. cbv zeta. destruct (is_infinity _); [done|]. by intros [= <-].
Qed.

(** Sums of the integer weights of a table are exact in floating point. *)
Lemma small_int_sum (a z : Z) :
  (0 <= a <= 250)%Z -> (0 <= z <= 25)%Z ->
  same_number (weight_value (NInt (a + z)))
              (weight_value (NInt a) + weight_value (NInt z)).
Proof.
  intros Ha Hz. apply eqb_same_number.
  assert (Hall : forallb (λ i, forallb (λ j,
            (weight_value (NInt (Z.of_nat i + Z.of_nat j)) =?
             weight_value (NInt (Z.of_nat i)) + weight_value (NInt (Z.of_nat j)))%float)
            (seq 0 26)) (seq 0 251) = true) by by vm_compute.
  rewrite forallb_forall in Hall.
  assert (Hin : In (Z.to_nat a) (seq 0 251)) by (apply in_seq; lia).
  specialize (Hall _ Hin). rewrite forallb_forall in Hall.
  specialize (Hall (Z.to_nat z)). rewrite !Z2Nat.id in Hall by lia.
  apply Hall. apply in_seq. lia.
Qed.

Lemma num_add_total (acc v : num) (facc : float) :
  default_sized v ->
  match acc with
  | NInt a => (0 <= a <= 250)%Z
  | NFloat _ => True
  end ->
  same_number (weight_value acc) facc ->
  ∃ s, num_add acc v = Ok s ∧
       same_number (weight_value s) (facc + weight_value v) ∧
       match acc, v with
       | NInt a, NInt z => s = NInt (a + z)
       | _, _ => ∃ f, s = NFloat f
       end.
Proof.
  intros Hv Hacc Hsame. destruct acc as [a|x], v as [z|y]; simpl in Hv.
  - exists (NInt (a + z)). split; [done|]. split; [|done].
    eapply same_number_trans; [by apply small_int_sum|]. by apply same_number_add.
  - unfold num_add. cbn [num_float].
    destruct (float_of_int_small a) as [fa Hfa]; [lia|]. rewrite Hfa. simpl.
    eexists. split; [done|]. split; [|by eexists].
    apply (num_float_value (NInt a)) in Hfa as ->. by apply same_number_add.
  - unfold num_add. cbn [num_float].
    destruct (float_of_int_small z) as [fz Hfz]; [lia|]. rewrite Hfz. simpl.
    eexists. split; [done|]. split; [|by eexists].
    apply (num_float_value (NInt z)) in Hfz as ->. by apply same_number_add.
  - eexists. split; [done|]. split; [|by eexists]. by apply same_number_add.
Qed.

(** [itertools.accumulate] ends on the sum of the weights. *)
Lemma accumulate_from_total (weights : list num) (acc : num) (facc : float) :
  Forall default_sized weights ->
  match acc with
  | NInt a => (0 <= a)%Z ∧ (a + 25 * Z.of_nat (count_ints weights) <= 250)%Z
  | NFloat _ => True
  end ->
  same_number (weight_value acc) facc ->
  ∃ cum c, accumulate_from acc weights = Ok cum ∧ last (acc :: cum) = Some c ∧
           (∃ x, num_float c = Ok x) ∧
           same_number (weight_value c)
             (fold_left (λ a v, (a + weight_value v)%float) weights facc).
Proof.
  intros Hall. revert acc facc.
  induction Hall as [|v weights Hv _ IH]; intros acc facc Hacc Hsame.
  - exists [], acc. repeat split; try done.
    destruct acc as [a|x]; simpl in *; [apply float_of_int_small; lia|by eexists].
  - destruct (num_add_total acc v facc) as (s & Hs & Hsame' & Hshape); try done.
    { destruct acc as [a|x]; [|done]. destruct v; simpl in *; lia. }
    destruct (IH s (facc + weight_value v)%float) as (cum & c & Hcum & Hlast & Hx & Hc);
      try done.
    { destruct acc as [a|x], v as [z|y]; simpl in *; [subst s; lia|..];
        by destruct Hshape as [f ->]. }
    exists (s :: cum), c. split; [|split; [exact Hlast|done]].
    cbn [accumulate_from]. rewrite Hs. simpl. by rewrite Hcum.
Qed.

(** The total that [random.choices] tests is the total weight of the
    table. *)
Lemma table_total_weight (d : wdict) :
  Forall default_sized (map snd d) -> count_ints (map snd d) ≤ 9 -> d ≠ [] ->
  ∃ total, table_total d = Ok total ∧ same_number total (total_weight d).
Proof.
  intros Hall Hc Hne. unfold table_total, total_weight, accumulate.
  destruct (map snd d) as [|v weights] eqn:E; [by destruct d|].
  apply Forall_cons in Hall as [Hv Hall]. cbn [fold_left].
  destruct (accumulate_from_total weights v (0 + weight_value v)%float Hall)
    as (cum & c & Hcum & Hlast & [x Hx] & Hsame).
  { destruct v as [z|f]; simpl in *; [lia|done]. }
  { apply same_number_zero_add. }
  rewrite Hcum. simpl. unfold total_of.
  assert (last (v :: cum) = Some c) as -> by done.
  rewrite Hx. simpl. eexists. split; [done|].
  eapply same_number_trans; [apply same_number_add_zero|].
  by rewrite (num_float_value _ _ Hx).
Qed.

Lemma bomb_scaled_ints (d d' : wdict) (bomb_multiplier : pyval) :
  Forall default_sized (map snd d) -> count_ints (map snd d) ≤ 9 ->
  bomb_scaled d bomb_multiplier = (Ok tt, d') ->
  Forall default_sized (map snd d') ∧ count_ints (map snd d') ≤ 9 ∧
  map fst d' = map fst d.
Proof.
  intros Hall Hc. unfold bomb_scaled.
  destruct (coerce_multiplier bomb_multiplier) as [bm|e]; [|done].
  destruct (bm =? 1)%float; [by intros [= <-]|].
  destruct (scale_step_ints d "bomb_1" bm Hall) as (d1 & -> & Hall1 & Hc1 & Hk1 & _).
  destruct (scale_step_ints d1 "bomb_atom" bm Hall1) as (d2 & -> & Hall2 & Hc2 & Hk2 & _).
  intros [= <-]. split; [done|]. split; [lia|congruence].
Qed.

(** C5, as the claim states it, fails. A table of finite, non-negative
    weights with a positive total is not enough: with two weights of 2^1023
    the total is positive and overflows to infinity, and [random.choices]
    raises [ValueError]. And the total of the table is not the one that
    counts: the table that leaves weight to the two bomb symbols only has
    the total 20, and the call with the multiplier 0 raises [ValueError],
    the adjusted total being zero. *)
Lemma positive_total_not_enough :
  (∃ r w1 d,
     load_symbol_weights (Doc huge_document) (boot []) = (Ok r, w1) ∧
     heap w1 !! r = Some d ∧
     Forall (λ v, (0 <=? weight_value v)%float = true ∧ is_finite (weight_value v) = true)
            (map snd d) ∧
     (0 <? total_weight d)%float = true ∧
     (generate_weighted_strip (Doc huge_document) 6 None (PFloat 1) (boot [])).1
       = Raise ValueError) ∧
  (∃ r w1 d,
     load_symbol_weights (Doc bombs_only_document) (boot []) = (Ok r, w1) ∧
     heap w1 !! r = Some d ∧
     (0 <? total_weight d)%float = true ∧ is_finite (total_weight d) = true ∧
     (generate_weighted_strip (Doc bombs_only_document) 6 None (PFloat 0) (boot [])).1
       = Raise ValueError).
Proof.
  split.
  - eexists _, _, _. split; [by vm_compute|]. split; [by vm_compute|].
    split; [|by vm_compute]. repeat constructor.
  - eexists _, _, _. split; [by vm_compute|]. split; [by vm_compute|]. by vm_compute.
Qed.

(** C5 (amended). For a weight table that [load_symbol_weights] returns and
    every multiplier, if the total weight of the table as the multiplier
    has adjusted it is positive and finite, a call without [bias_symbols]
    returns exactly [length] symbols, each of them a key of the table. *)
Theorem unbiased_strip_length_and_keys (symbol_weights_json : source) (length : nat)
    (bomb_multiplier : pyval) (w w1 : world) (r : ref) (d d' : wdict) :
  defaults_intact w ->
  load_symbol_weights symbol_weights_json w = (Ok r, w1) ->
  heap w1 !! r = Some d ->
  bomb_scaled d bomb_multiplier = (Ok tt, d') ->
  (0 <? total_weight d')%float = true -> is_finite (total_weight d') = true ->
  ∃ strip w',
    generate_weighted_strip symbol_weights_json length None bomb_multiplier w
      = (Ok strip, w') ∧
    List.length strip = length ∧
    Forall (λ s, s ∈ map fst d) strip.
Proof.
  intros H Hload Hd Hbomb Hpos Hfin.
  pose proof (load_symbol_weights_inv _ _ _ _ _ H Hload Hd) as Ht.
  destruct (loaded_table_ints _ _ Ht) as [Hall Hc].
  destruct (bomb_scaled_ints _ _ _ Hall Hc Hbomb) as (Hall' & Hc' & Hkeys).
  destruct (table_total_weight d' Hall' Hc') as (total & Htot & Hsame).
  { intros ->. by vm_compute in Hpos. }
  destruct (same_number_tests _ _ Hsame) as (Hlt & _ & Hf).
  destruct (generate_ok symbol_weights_json length None bomb_multiplier w w1 r d d' total)
    as (strip0 & w2 & strip & w' & Hkey & Hlen & Hrig & _ & Hgen); try done.
  { apply float_pos_not_le. by rewrite Hlt. }
  { by rewrite Hf. }
  unfold rig in Hrig. rewrite ret_run in Hrig. simplify_eq.
  exists strip, w'. by rewrite <- Hkeys.
Qed.

Lemma unbiased_strip_length_and_keys_witness :
  ∃ strip w',
    generate_weighted_strip Missing 6 None (PFloat 2) (boot [3; 1; 4]%N) = (Ok strip, w') ∧
    List.length strip = 6 ∧
    Forall (λ s, s ∈ map fst default_table) strip.
Proof.
  apply (unbiased_strip_length_and_keys Missing 6 (PFloat 2) (boot [3; 1; 4]%N)
           (World [default_table; default_table] [3; 1; 4]%N) 1 default_table
           (bomb_scaled default_table (PFloat 2)).2); reflexivity.
Defined.

(** X14. With a multiplier that is a float, which is what the two routes
    pass, a call on a file that [load_symbol_weights] accepts ends in one of
    two ways: it returns a strip of [length] symbols, or it raises
    [ValueError]; it raises exactly when the total of the adjusted weights
    is not above zero or is not finite. *)
Theorem call_returns_or_value_error (symbol_weights_json : source) (length : nat)
    (bias_symbols : option (list string)) (bm : float) (w w1 : world) (r : ref) :
  defaults_intact w ->
  load_symbol_weights symbol_weights_json w = (Ok r, w1) ->
  ∃ d d' total,
    heap w1 !! r = Some d ∧ bomb_scaled d (PFloat bm) = (Ok tt, d') ∧
    table_total d' = Ok total ∧
    if (total <=? 0)%float || negb (is_finite total)
    then (generate_weighted_strip symbol_weights_json length bias_symbols (PFloat bm) w).1
         = Raise ValueError
    else ∃ strip w',
           generate_weighted_strip symbol_weights_json length bias_symbols (PFloat bm) w
             = (Ok strip, w') ∧
           List.length strip = length.
Proof.
  intros H Hload.
  pose proof (load_symbol_weights_table symbol_weights_json w H) as Ht.
  destruct (loaded_table symbol_weights_json) as [d|e] eqn:Hd;
    [|destruct Ht as (? & ? & _); congruence].
  destruct Ht as (r' & w1' & Hload' & Hlook & _). rewrite Hload in Hload'. simplify_eq.
  destruct (loaded_table_ints _ _ Hd) as [Hall Hc].
  destruct (bomb_scaled_float d bm Hall Hc) as (d' & Hbomb & Hall' & Hc' & Hkeys & _).
  destruct (table_total_ints d' Hall' Hc') as [total Htot].
  { intros ->. destruct (loaded_table_has_bomb_atom _ _ Hd) as [v Hv].
    simpl in Hkeys. by destruct d. }
  exists d, d', total. repeat split; try done.
  destruct (total <=? 0)%float eqn:Hle; simpl.
  - rewrite (generate_run _ _ _ _ _ _ _ _ Hload Hlook), Hbomb. cbn [fst snd]. cbv zeta.
    rewrite bind_run. rewrite (random_choices_bad_total _ _ _ _ Htot); [done|by left].
  - destruct (is_finite total) eqn:Hfin; simpl.
    + destruct (generate_ok symbol_weights_json length bias_symbols (PFloat bm)
                  w w1' r' d d' total Hload Hlook Hbomb Htot Hle Hfin)
        as (strip0 & w2 & strip & w' & _ & _ & _ & Hlen & Hgen).
      by exists strip, w'.
    + rewrite (generate_run _ _ _ _ _ _ _ _ Hload Hlook), Hbomb. cbn [fst snd]. cbv zeta.
      rewrite bind_run. rewrite (random_choices_bad_total _ _ _ _ Htot); [done|by right].
Qed.

Lemma call_returns_or_value_error_witness :
  ∃ d d' total,
    [default_table; default_table] !! 1 = Some d ∧
    bomb_scaled d (PFloat 3) = (Ok tt, d') ∧
    table_total d' = Ok total ∧
    if (total <=? 0)%float || negb (is_finite total)
    then (generate_weighted_strip Missing 4 (Some ["gem_1"]) (PFloat 3) (boot [5]%N)).1
         = Raise ValueError
    else ∃ strip w',
           generate_weighted_strip Missing 4 (Some ["gem_1"]) (PFloat 3) (boot [5]%N)
             = (Ok strip, w') ∧
           List.length strip = 4.
Proof.
  apply (call_returns_or_value_error Missing 4 (Some ["gem_1"]) 3%float (boot [5]%N)
           (World [default_table; default_table] [5]%N) 1); reflexivity.
Defined.

(** X15. A multiplier that is NaN or plus infinity makes every call fail:
    whatever table the file gives, the weight of a bomb symbol stops being
    finite, so does the total, and [random.choices] raises [ValueError]. *)
Theorem call_fails_on_nonfinite_multiplier (symbol_weights_json : source) (length : nat)
    (bias_symbols : option (list string)) (bm : float) (w w1 : world) (r : ref) :
  defaults_intact w ->
  load_symbol_weights symbol_weights_json w = (Ok r, w1) ->
  is_finite bm = false -> (bm <? 0)%float = false ->
  (generate_weighted_strip symbol_weights_json length bias_symbols (PFloat bm) w).1
    = Raise ValueError.
Proof.
  intros H Hload Hnf Hneg.
  pose proof (load_symbol_weights_table symbol_weights_json w H) as Ht.
  destruct (loaded_table symbol_weights_json) as [d|e] eqn:Hd;
    [|destruct Ht as (? & ? & _); congruence].
  destruct Ht as (r' & w1' & Hload' & Hlook & _). rewrite Hload in Hload'. simplify_eq.
  destruct (loaded_table_ints _ _ Hd) as [Hall Hc].
  destruct (bomb_scaled_float d bm Hall Hc) as (d' & Hbomb & Hall' & Hc' & _ & Hex).
  destruct (table_total_not_finite d' Hall' Hc') as (total & Htot & Hfin).
  { apply Hex; try done. by eapply loaded_table_has_bomb_atom. }
  rewrite (generate_run _ _ _ _ _ _ _ _ Hload Hlook), Hbomb. cbn [fst snd]. cbv zeta.
  rewrite bind_run. rewrite (random_choices_bad_total _ _ _ _ Htot); [done|by right].
Qed.

Lemma call_fails_on_nonfinite_multiplier_witness :
  (generate_weighted_strip (Doc override_document) 6 None (PFloat nan) (boot [1]%N)).1
    = Raise ValueError ∧
  (generate_weighted_strip Missing 6 (Some ["gem_1"]) (PFloat infinity) (boot [1]%N)).1
    = Raise ValueError.
Proof.
  split.
  - apply (call_fails_on_nonfinite_multiplier (Doc override_document) 6 None nan
             (boot [1]%N)
             (World [default_table;
                     dict_set (dict_set default_table "coin_1" (NFloat 40)) "wild"
                       (NFloat 2.5)] [1]%N) 1); reflexivity.
  - apply (call_fails_on_nonfinite_multiplier Missing 6 (Some ["gem_1"]) infinity
             (boot [1]%N) (World [default_table; default_table] [1]%N) 1); reflexivity.
Defined.

(** ** The routes *)

(** X16. Reading the query parameters [reel_count] and [bomb_multiplier]
    never raises: each always gives a value, which is 3 and 1.0 where the
    parameter is missing or where [int] and [float] reject its text. What
    the rest of the request does with the value is another matter: [nan]
    and [inf] are values of [bomb_multiplier]. *)
Theorem request_parameters_always_parse (reel_count bomb_multiplier : option string) :
  (∃ n, parse_reel_count reel_count = Ok n ∧
        (reel_count = None -> n = 3%Z) ∧
        (∀ s e, reel_count = Some s -> int_of_str s = Raise e -> n = 3%Z)) ∧
  (∃ f, parse_bomb_multiplier bomb_multiplier = Ok f ∧
        (bomb_multiplier = None -> f = 1%float) ∧
        (∀ s e, bomb_multiplier = Some s -> float_of_str s = Raise e -> f = 1%float)).
Proof.
  split.
  - destruct reel_count as [s|]; simpl; [|by exists 3%Z].
    destruct (int_of_str s) as [n|e] eqn:E.
    + exists n. repeat split; try done. intros ? ? [= <-]. by rewrite E.
    + apply int_of_str_raises in E as ->. by exists 3%Z.
  - destruct bomb_multiplier as [s|]; simpl; [|by exists 1%float].
    destruct (float_of_str s) as [f|e] eqn:E.
    + exists f. repeat split; try done. intros ? ? [= <-]. by rewrite E.
    + apply float_of_str_raises in E as ->. by exists 1%float.
Qed.

Lemma request_parameters_always_parse_witness :
  (∃ n, parse_reel_count (Some "five") = Ok n ∧
        (Some "five"%string = None -> n = 3%Z) ∧
        (∀ s e, Some "five"%string = Some s -> int_of_str s = Raise e -> n = 3%Z)) ∧
  (∃ f, parse_bomb_multiplier (Some "2.5") = Ok f ∧
        (Some "2.5"%string = None -> f = 1%float) ∧
        (∀ s e, Some "2.5"%string = Some s -> float_of_str s = Raise e -> f = 1%float)).
Proof.
  apply (request_parameters_always_parse (Some "five"%string) (Some "2.5"%string)).
Defined.

Lemma generate_unbiased_step (symbol_weights_json : source) (length : nat)
    (bomb_multiplier : pyval) (w : world) (d d' : wdict) (total : float) :
  defaults_intact w ->
  loaded_table symbol_weights_json = Ok d ->
  bomb_scaled d bomb_multiplier = (Ok tt, d') ->
  table_total d' = Ok total -> (total <=? 0)%float = false -> is_finite total = true ->
  ∃ strip w',
    generate_weighted_strip symbol_weights_json length None bomb_multiplier w
      = (Ok strip, w') ∧
    List.length strip = length ∧ Forall (λ s, s ∈ map fst d') strip ∧
    strip_from_table d length None bomb_multiplier (rng w) = Ok strip ∧
    rng w' = drop length (rng w) ∧ defaults_intact w'.
Proof.
  intros H Ht Hbomb Htot Hpos Hfin.
  destruct (generate_steps symbol_weights_json length None bomb_multiplier w d d' total)
    as (strip0 & w2 & strip & w' & Hall & Hlen & Hrng & Hrig & _ & Hgen & Hint);
    try done.
  cbn [rig] in Hrig. rewrite ret_run in Hrig. simplify_eq.
  exists strip, w'. repeat split; try done.
  pose proof (load_symbol_weights_table symbol_weights_json w H) as Hl.
  rewrite Ht in Hl. destruct Hl as (r & w1 & Hload & Hd & _).
  rewrite <- (generate_outcome _ (List.length strip) None bomb_multiplier _ _ _ _ Hload Hd).
  by rewrite Hgen.
Qed.

Lemma generate_reels_run (symbol_weights_json : source) (length : nat)
    (bomb_multiplier : pyval) (d d' : wdict) (total : float) (reel_count : nat) (w : world) :
  defaults_intact w ->
  loaded_table symbol_weights_json = Ok d ->
  bomb_scaled d bomb_multiplier = (Ok tt, d') ->
  table_total d' = Ok total -> (total <=? 0)%float = false -> is_finite total = true ->
  ∃ reels w',
    generate_reels symbol_weights_json length bomb_multiplier reel_count w
      = (Ok reels, w') ∧
    List.length reels = reel_count ∧
    (∀ i reel, reels !! i = Some reel ->
       List.length reel = length ∧ Forall (λ s, s ∈ map fst d') reel ∧
       strip_from_table d length None bomb_multiplier (drop (i * length) (rng w))
         = Ok reel) ∧
    rng w' = drop (reel_count * length) (rng w) ∧ defaults_intact w'.
Proof.
  intros H Ht Hbomb Htot Hpos Hfin. revert w H.
  induction reel_count as [|n IH]; intros w H; simpl.
  - exists [], w. repeat split; try done.
  - destruct (generate_unbiased_step symbol_weights_json length bomb_multiplier w d d' total)
      as (reel & w1 & Hgen & Hlen & Hall & Hstrip & Hrng & Hint); try done.
    destruct (IH w1 Hint) as (reels & w' & Hrest & Hlen' & Heach & Hrng' & Hint').
    exists (reel :: reels), w'. rewrite bind_run, Hgen, bind_run, Hrest.
    split; [done|]. split; [simpl; lia|]. split; [|split; [|done]].
    + intros [|i] reel' Hi; simpl in Hi.
      * simplify_eq. by rewrite drop_0.
      * destruct (Heach i reel' Hi) as (? & ? & Hs). repeat split; try done.
        rewrite Hrng, drop_drop in Hs. by replace (S i * length) with (length + i * length) by lia.
    + by rewrite Hrng', Hrng, drop_drop.
Qed.

(** X17. [init_game], where the configuration gives a length and the table
    has a positive and finite total: it returns as many reels as
    [reel_count] says (none for a count under 1, three when the parameter
    is missing or not a number), every reel has the configured length and
    holds keys of the table, the reels are drawn one after the other from
    consecutive blocks of draws, each as a single call would draw it, and
    [DEFAULT_WEIGHTS] is intact afterwards. *)
Theorem init_game_reels (config_json symbol_weights_json : source)
    (reel_count bomb_multiplier : option string) (w w1 : world) (r : ref)
    (strip_length n : Z) (bm total : float) (d d' : wdict) :
  defaults_intact w ->
  get_reel_strip_length config_json = Ok strip_length ->
  parse_reel_count reel_count = Ok n ->
  parse_bomb_multiplier bomb_multiplier = Ok bm ->
  load_symbol_weights symbol_weights_json w = (Ok r, w1) ->
  heap w1 !! r = Some d ->
  bomb_scaled d (PFloat bm) = (Ok tt, d') ->
  table_total d' = Ok total -> (0 <? total)%float = true -> is_finite total = true ->
  ∃ reels w',
    init_game config_json symbol_weights_json reel_count bomb_multiplier w
      = (Ok reels, w') ∧
    length reels = Z.to_nat n ∧
    (∀ i reel, reels !! i = Some reel ->
       length reel = Z.to_nat strip_length ∧ Forall (λ s, s ∈ map fst d') reel ∧
       strip_from_table d (Z.to_nat strip_length) None (PFloat bm)
         (drop (i * Z.to_nat strip_length) (rng w)) = Ok reel) ∧
    rng w' = drop (Z.to_nat n * Z.to_nat strip_length) (rng w) ∧
    defaults_intact w'.
Proof.
  intros H Hlen Hn Hbm Hload Hd Hbomb Htot Hpos Hfin.
  unfold init_game. run. rewrite Hn. run. rewrite Hbm. run. rewrite Hlen. run.
  eapply generate_reels_run; try done.
  - by eapply load_symbol_weights_inv.
  - by apply float_pos_not_le.
Qed.

Lemma init_game_reels_witness :
  ∃ reels w',
    init_game Missing Missing (Some "2") (Some "abc") (boot [1; 2; 3; 4; 5; 6; 7]%N)
      = (Ok reels, w') ∧
    length reels = Z.to_nat 2 ∧
    (∀ i reel, reels !! i = Some reel ->
       length reel = Z.to_nat 6 ∧ Forall (λ s, s ∈ map fst default_table) reel ∧
       strip_from_table default_table (Z.to_nat 6) None (PFloat 1)
         (drop (i * Z.to_nat 6) (rng (boot [1; 2; 3; 4; 5; 6; 7]%N))) = Ok reel) ∧
    rng w' = drop (Z.to_nat 2 * Z.to_nat 6) (rng (boot [1; 2; 3; 4; 5; 6; 7]%N)) ∧
    defaults_intact w'.
Proof.
  apply (init_game_reels Missing Missing (Some "2") (Some "abc")
           (boot [1; 2; 3; 4; 5; 6; 7]%N)
           (World [default_table; default_table] [1; 2; 3; 4; 5; 6; 7]%N) 1
           6 2 1 95 default_table default_table); reflexivity.
Defined.

(** ** The list of bias symbols of a request *)

Lemma py_lstrip_split (l : list ascii) :
  ∃ k, l = k ++ py_lstrip l ∧ Forall (λ c, py_isspace c = true) k.
Proof.
  induction l as [|c l (k & Hk & Hall)]; simpl.
  - by exists [].
  - destruct (py_isspace c) eqn:E.
    + exists (c :: k). split; [simpl; by f_equal|]. by constructor.
    + by exists [].
Qed.

Lemma py_lstrip_head (l : list ascii) :
  match py_lstrip l with [] => True | c :: _ => py_isspace c = false end.
Proof.
  induction l as [|c l IH]; simpl; [done|].
  destruct (py_isspace c) eqn:E; [done|]. by rewrite E.
Qed.

Lemma py_lstrip_fixed (l : list ascii) :
  match l with [] => True | c :: _ => py_isspace c = false end -> py_lstrip l = l.
Proof. destruct l as [|c l]; simpl; [done|]. by intros ->. Qed.

(** [strip] takes white space off both ends and nothing else. *)
Lemma py_strip_split (l : list ascii) :
  ∃ a b, l = a ++ py_strip l ++ b ∧
         Forall (λ c, py_isspace c = true) a ∧ Forall (λ c, py_isspace c = true) b.
Proof.
  unfold py_strip. destruct (py_lstrip_split l) as (a & Ha & Hall).
  destruct (py_lstrip_split (rev (py_lstrip l))) as (k & Hk & Hallk).
  exists a, (rev k). split; [|split; [done|]].
  - rewrite <- rev_app_distr, <- Hk, rev_involutive. done.
  - apply Forall_forall. intros c Hc. rewrite Forall_forall in Hallk. apply Hallk.
    apply list_elem_of_In. apply list_elem_of_In, in_rev in Hc. done.
Qed.

Lemma py_strip_fixed (l : list ascii) : py_strip (py_strip l) = py_strip l.
Proof.
  unfold py_strip at 2 3.
  set (l1 := py_lstrip l). set (l2 := py_lstrip (rev l1)).
  destruct (py_lstrip_split (rev l1)) as (k & Hk & _). fold l2 in Hk.
  assert (Hl1 : l1 = rev l2 ++ rev k).
  { rewrite <- rev_app_distr, <- Hk. by rewrite rev_involutive. }
  assert (Hfix : py_lstrip (rev l2) = rev l2).
  { apply py_lstrip_fixed. pose proof (py_lstrip_head l) as Hh. fold l1 in Hh.
    rewrite Hl1 in Hh. by destruct (rev l2). }
  unfold py_strip. rewrite Hfix, rev_involutive.
  assert (py_lstrip l2 = l2) as ->; [|done].
  apply py_lstrip_fixed. apply py_lstrip_head.
Qed.

Lemma split_on_pieces (sep : ascii) (s : list ascii) :
  split_on sep s ≠ [] ∧ Forall (λ piece, sep ∉ piece) (split_on sep s).
Proof.
  induction s as [|c s [Hne Hall]]; simpl.
  - split; [done|]. repeat constructor. by intros ?%elem_of_nil.
  - destruct (Ascii.eqb_spec c sep) as [->|Hc].
    + split; [done|]. constructor; [by intros ?%elem_of_nil|done].
    + destruct (split_on sep s) as [|piece pieces]; [done|].
      apply Forall_cons in Hall as [Hp Hall]. split; [done|].
      constructor; [|done]. intros [?|?]%elem_of_cons; done.
Qed.

Lemma stripped_pieces_clean (pieces : list (list ascii)) :
  Forall (λ piece, ","%char ∉ piece) pieces ->
  Forall clean_symbol (stripped_pieces pieces).
Proof.
  induction 1 as [|piece pieces Hp _ IH]; cbn [stripped_pieces]; [done|].
  destruct (py_strip piece) as [|c t] eqn:E; [done|].
  constructor; [|done]. unfold clean_symbol. cbv zeta.
  rewrite list_ascii_of_string_of_list_ascii. split; [done|]. split.
  - intros Hin. apply Hp. destruct (py_strip_split piece) as (a & b & -> & _).
    rewrite E. apply elem_of_app. right. apply elem_of_app. by left.
  - rewrite <- E. apply py_strip_fixed.
Qed.

Lemma stripped_pieces_blank (pieces : list (list ascii)) :
  Forall (Forall (λ c, py_isspace c = true)) pieces -> stripped_pieces pieces = [].
Proof.
  induction 1 as [|piece pieces Hp _ IH]; simpl; [done|].
  assert (py_strip piece = []) as ->; [|done].
  destruct (py_strip piece) as [|c t] eqn:E; [done|].
  pose proof (py_strip_fixed piece) as Hf. rewrite E in Hf.
  assert (py_isspace c = true) as Hc.
  { rewrite Forall_forall in Hp. apply Hp.
    destruct (py_strip_split piece) as (a & b & -> & _). rewrite E.
    apply elem_of_app. right. by left. }
  destruct (py_strip_split (c :: t)) as (a & b & Hab & Ha & _). rewrite Hf in Hab.
  pose proof (py_lstrip_head (c :: t)) as Hh.
  unfold py_strip in Hf.
  assert (Hpre : ∃ rest, py_lstrip (c :: t) = c :: t ++ rest).
  { destruct (py_lstrip_split (rev (py_lstrip (c :: t)))) as (k & Hk & _).
    exists (rev k). rewrite <- (rev_involutive (py_lstrip (c :: t))), Hk at 1.
    rewrite rev_app_distr, Hf. done. }
  destruct Hpre as [rest Hrest]. rewrite Hrest in Hh. congruence.
Qed.

Lemma split_on_blank (s : list ascii) :
  Forall (λ c, c = ","%char ∨ py_isspace c = true) s ->
  Forall (Forall (λ c, py_isspace c = true)) (split_on "," s).
Proof.
  induction 1 as [|c s Hc _ IH]; simpl; [by repeat constructor|].
  destruct (Ascii.eqb_spec c ",") as [->|Hne]; [by constructor|].
  destruct Hc as [?|Hc]; [done|].
  destruct (split_on "," s) as [|piece pieces]; [by repeat constructor|].
  apply Forall_cons in IH as [Hp IH]. constructor; [by constructor|done].
Qed.

(** X18. The bias symbols that [generate_reel] reads from its query
    parameter are never empty, hold no comma and have no white space at
    either end; and a parameter made of commas and white space only (the
    empty text among them) gives no bias symbol at all. *)
Theorem bias_symbols_are_clean (bias_symbols_raw : string) :
  Forall clean_symbol (parse_bias_symbols bias_symbols_raw) ∧
  (Forall (λ c, c = ","%char ∨ py_isspace c = true)
          (list_ascii_of_string bias_symbols_raw) ->
   parse_bias_symbols bias_symbols_raw = []).
Proof.
  unfold parse_bias_symbols. split.
  - apply stripped_pieces_clean, split_on_pieces.
  - intros Hblank. by apply stripped_pieces_blank, split_on_blank.
Qed.

Lemma bias_symbols_are_clean_witness :
  Forall clean_symbol (parse_bias_symbols " coin_1, ,gem_1 ,") ∧
  parse_bias_symbols " , ," = [].
Proof.
  split.
  - apply (bias_symbols_are_clean " coin_1, ,gem_1 ,").
  - apply (bias_symbols_are_clean " , ,"). simpl.
    repeat (apply List.Forall_cons; [first [by left | by right]|]). apply List.Forall_nil.
Defined.

Lemma split_on_piece (p rest : list ascii) :
  (","%char ∉ p) -> split_on "," (p ++ ","%char :: rest) = p :: split_on "," rest.
Proof.
  induction p as [|c p IH]; intros Hp; simpl; [done|].
  destruct (Ascii.eqb_spec c ",") as [->|Hne].
  - exfalso. apply Hp. by left.
  - rewrite IH; [done|]. intros ?. apply Hp. by right.
Qed.

Lemma split_on_single (p : list ascii) :
  (","%char ∉ p) -> split_on "," p = [p].
Proof.
  induction p as [|c p IH]; intros Hp; simpl; [done|].
  destruct (Ascii.eqb_spec c ",") as [->|Hne].
  - exfalso. apply Hp. by left.
  - rewrite IH; [done|]. intros ?. apply Hp. by right.
Qed.

Lemma split_on_join (pieces : list (list ascii)) :
  pieces ≠ [] -> Forall (λ piece, ","%char ∉ piece) pieces ->
  split_on "," (join_pieces pieces) = pieces.
Proof.
  intros Hne Hall. induction Hall as [|p pieces Hp Hall IH]; [done|].
  destruct pieces as [|q pieces].
  - simpl. by apply split_on_single.
  - cbn [join_pieces]. rewrite split_on_piece by done. f_equal. by apply IH.
Qed.

Lemma stripped_pieces_of_clean (symbols : list string) :
  Forall clean_symbol symbols ->
  stripped_pieces (map list_ascii_of_string symbols) = symbols.
Proof.
  induction 1 as [|s l (Hne & _ & Hfix) _ IH]; cbn [stripped_pieces map]; [done|].
  rewrite Hfix. destruct (list_ascii_of_string s) as [|c t] eqn:E; [done|].
  rewrite IH, <- E. f_equal. apply string_of_list_ascii_of_string.
Qed.

(** X19. A list of symbols written the way the route expects it, joined by
    commas, is read back unchanged by [generate_reel]: the same symbols in
    the same order, none lost and none added, provided no symbol is empty,
    holds a comma or has white space at either end. *)
Theorem bias_symbols_round_trip (symbols : list string) :
  Forall clean_symbol symbols -> parse_bias_symbols (join_comma symbols) = symbols.
Proof.
  intros Hall. unfold parse_bias_symbols, join_comma.
  rewrite list_ascii_of_string_of_list_ascii.
  destruct symbols as [|s l]; [done|].
  rewrite split_on_join.
  - by apply stripped_pieces_of_clean.
  - done.
  - apply List.Forall_map. eapply Forall_impl; [done|]. by intros ? (_ & ? & _).
Qed.

Lemma bias_symbols_round_trip_witness :
  parse_bias_symbols (join_comma ["coin_1"; "gem_1"]) = ["coin_1"; "gem_1"].
Proof.
  apply (bias_symbols_round_trip ["coin_1"; "gem_1"]).
  repeat constructor; try done; apply (bool_decide_unpack _); by vm_compute.
Defined.

(** ** The strip of one request *)

(** X20. [generate_reel], where the configuration gives a length and the
    table has a positive and finite total: it returns a strip of the
    configured length; every position holds a key of the table or one of
    the bias symbols read from the request; when the request names no bias
    symbol the strip is the plain draw, at the cost of one draw per
    position; and [DEFAULT_WEIGHTS] is intact afterwards. *)
Theorem generate_reel_strip (config_json symbol_weights_json : source)
    (bias_symbols bomb_multiplier : option string) (w : world)
    (strip_length : Z) (bm total : float) (d d' : wdict) :
  defaults_intact w ->
  get_reel_strip_length config_json = Ok strip_length ->
  parse_bomb_multiplier bomb_multiplier = Ok bm ->
  loaded_table symbol_weights_json = Ok d ->
  bomb_scaled d (PFloat bm) = (Ok tt, d') ->
  table_total d' = Ok total -> (0 <? total)%float = true -> is_finite total = true ->
  ∃ strip w',
    generate_reel config_json symbol_weights_json bias_symbols bomb_multiplier w
      = (Ok strip, w') ∧
    length strip = Z.to_nat strip_length ∧
    Forall (λ s, s ∈ map fst d' ∨
                 s ∈ parse_bias_symbols (default ""%string bias_symbols)) strip ∧
    (parse_bias_symbols (default ""%string bias_symbols) = [] ->
     strip_from_table d (Z.to_nat strip_length) None (PFloat bm) (rng w) = Ok strip ∧
     rng w' = drop (Z.to_nat strip_length) (rng w)) ∧
    defaults_intact w'.
Proof.
  intros H Hlen Hbm Ht Hbomb Htot Hpos Hfin.
  unfold generate_reel. cbv zeta. run. rewrite Hbm. run. rewrite Hlen. run.
  set (bs := parse_bias_symbols _).
  destruct (generate_steps symbol_weights_json (Z.to_nat strip_length)
              (match bs with [] => None | _ => Some bs end) (PFloat bm) w d d' total)
    as (strip0 & w2 & strip & w' & Hall & Hlen0 & Hrng & Hrig & Hlen' & Hgen & Hint);
    try done.
  { by apply float_pos_not_le. }
  exists strip, w'. split; [done|]. split; [done|]. split; [|split; [|done]].
  - apply Forall_lookup. intros i s Hs. rewrite Forall_lookup in Hall.
    destruct bs as [|b bs'].
    + cbn [rig] in Hrig. rewrite ret_run in Hrig. simplify_eq. left. by eapply Hall.
    + cbn [rig] in Hrig.
      destruct (rig_loop_local _ _ _ _ _ _ i Hrig) as [Heq|(s0 & b0 & _ & _ & Hb & Hin)].
      * left. rewrite Heq in Hs. by eapply Hall.
      * right. rewrite Hs in Hb. by simplify_eq.
  - intros Hnil. rewrite Hnil in *. cbn [rig] in Hrig. rewrite ret_run in Hrig.
    simplify_eq. split; [|done].
    pose proof (load_symbol_weights_table symbol_weights_json w H) as Hl.
    rewrite Ht in Hl. destruct Hl as (r & w1 & Hload & Hd & _).
    rewrite <- (generate_outcome _ _ None (PFloat bm) _ _ _ _ Hload Hd).
    by rewrite Hgen.
Qed.

Lemma generate_reel_strip_witness :
  ∃ strip w',
    generate_reel Missing Missing (Some " gem_1 ,,bomb_1") None (boot all_gem_draws)
      = (Ok strip, w') ∧
    length strip = Z.to_nat 6 ∧
    Forall (λ s, s ∈ map fst default_table ∨
                 s ∈ parse_bias_symbols (default ""%string (Some " gem_1 ,,bomb_1"%string)))
           strip ∧
    (parse_bias_symbols (default ""%string (Some " gem_1 ,,bomb_1"%string)) = [] ->
     strip_from_table default_table (Z.to_nat 6) None (PFloat 1)
       (rng (boot all_gem_draws)) = Ok strip ∧
     rng w' = drop (Z.to_nat 6) (rng (boot all_gem_draws))) ∧
    defaults_intact w'.
Proof.
  apply (generate_reel_strip Missing Missing (Some " gem_1 ,,bomb_1"%string) None
           (boot all_gem_draws) 6 1 95 default_table default_table); reflexivity.
Defined.

(** X21. [init_game] with a reel count under 1 returns an empty list of
    reels as soon as the configuration gives a length, whatever the weights
    file and the bomb multiplier are: no call is made, no draw is used and
    the store is left as it was. *)
Theorem init_game_without_reels (config_json symbol_weights_json : source)
    (reel_count bomb_multiplier : option string) (n strip_length : Z) (w : world) :
  parse_reel_count reel_count = Ok n -> (n <= 0)%Z ->
  get_reel_strip_length config_json = Ok strip_length ->
  init_game config_json symbol_weights_json reel_count bomb_multiplier w = (Ok [], w).
Proof.
  intros Hn Hle Hlen. unfold init_game. run. rewrite Hn. run.
  destruct (parse_bomb_multiplier bomb_multiplier) as [bm|e] eqn:Hbm.
  - run. rewrite Hlen. run. by replace (Z.to_nat n) with 0 by lia.
  - destruct bomb_multiplier as [s|]; [|done]. simpl in Hbm.
    destruct (float_of_str s) as [f|e'] eqn:E; [done|].
    apply float_of_str_raises in E as ->. done.
Qed.

Lemma init_game_without_reels_witness :
  init_game Missing (Doc override_document) (Some "-2") (Some "nan") (boot [1; 2]%N)
    = (Ok [], boot [1; 2]%N).
Proof.
  apply (init_game_without_reels Missing (Doc override_document) (Some "-2"%string)
           (Some "nan"%string) (-2) 6 (boot [1; 2]%N)); [reflexivity|lia|reflexivity].
Defined.

(** ** The store across requests *)

Lemma preserved_trans (w1 w2 w3 : world) :
  preserved w1 w2 -> preserved w2 w3 -> preserved w1 w3.
Proof.
  intros H12 H23 r Hr. rewrite <- (H12 r Hr). apply H23.
  apply lookup_lt_is_Some. rewrite (H12 r Hr). by apply lookup_lt_is_Some.
Qed.

Lemma generate_reels_frame (symbol_weights_json : source) (length : nat)
    (bomb_multiplier : pyval) (reel_count : nat) (w : world) :
  preserved w
    (generate_reels symbol_weights_json length bomb_multiplier reel_count w).2.
Proof.
  revert w. induction reel_count as [|n IH]; intros w; simpl.
  - apply preserved_refl.
  - rewrite bind_run.
    pose proof (generate_weighted_strip_frame symbol_weights_json length None
                  bomb_multiplier w) as Hf.
    destruct (generate_weighted_strip symbol_weights_json length None bomb_multiplier w)
      as [[reel|e] w1]; [|done].
    cbn [snd] in Hf. rewrite bind_run. pose proof (IH w1) as Hr.
    destruct (generate_reels symbol_weights_json length bomb_multiplier n w1)
      as [[reels|e] w2]; cbn [snd] in *; by eapply preserved_trans.
Qed.

(** X22. Neither route changes an object that existed before the request,
    however the request ends: whatever the parameters, the two files and
    the draws, [init_game] and [generate_reel] only add objects to the
    store. *)
Theorem requests_leave_store_alone (config_json symbol_weights_json : source)
    (reel_count bias_symbols bomb_multiplier : option string) (w : world) :
  preserved w
    (init_game config_json symbol_weights_json reel_count bomb_multiplier w).2 ∧
  preserved w
    (generate_reel config_json symbol_weights_json bias_symbols bomb_multiplier w).2.
Proof.
  split.
  - unfold init_game. run.
    destruct (parse_reel_count reel_count) as [n|e]; [|apply preserved_refl]. run.
    destruct (parse_bomb_multiplier bomb_multiplier) as [bm|e]; [|apply preserved_refl]. run.
    destruct (get_reel_strip_length config_json) as [len|e]; [|apply preserved_refl].
    apply generate_reels_frame.
  - unfold generate_reel. cbv zeta. run.
    destruct (parse_bomb_multiplier bomb_multiplier) as [bm|e]; [|apply preserved_refl]. run.
    destruct (get_reel_strip_length config_json) as [len|e]; [|apply preserved_refl].
    apply generate_weighted_strip_frame.
Qed.

(** ** The list of advertisement videos *)

Lemma map_suffix {A B : Type} (f : A -> B) (e : list B) (l : list A) :
  e `suffix_of` map f l ↔ ∃ stem ext, l = stem ++ ext ∧ map f ext = e.
Proof.
  split.
  - intros [k Hk]. apply map_eq_app in Hk as (stem & ext & -> & _ & <-).
    by exists stem, ext.
  - intros (stem & ext & -> & <-). exists (map f stem). apply map_app.
Qed.

Lemma is_video_spec (f : string) :
  is_video f = true ↔
  ∃ stem ext, list_ascii_of_string f = stem ++ ext ∧ video_extension ext.
Proof.
  unfold is_video, video_extension. cbv zeta.
  rewrite !orb_true_iff, !bool_decide_eq_true, !map_suffix. split.
  - intros [[(stem & ext & ? & He)|(stem & ext & ? & He)]|(stem & ext & ? & He)];
      exists stem, ext; (split; [done|]); rewrite He.
    + by left.
    + right. by left.
    + right. right. by left.
  - intros (stem & ext & ? & He).
    apply elem_of_cons in He as [He|He]; [left; left; by exists stem, ext|].
    apply elem_of_cons in He as [He|He]; [left; right; by exists stem, ext|].
    apply elem_of_cons in He as [He|He]; [right; by exists stem, ext|].
    by apply elem_of_nil in He.
Qed.

(** X23. [get_ad_videos] returns the empty list when the directory is
    absent and fails only where the directory cannot be listed; otherwise
    it returns the names of the listing, in the order of the listing, that
    end with [.mp4], [.webm] or [.ogg] written in any mix of upper and
    lower case, and no other name. *)
Theorem ad_videos_listing (video_dir : directory) :
  match video_dir with
  | NoDirectory => get_ad_videos video_dir = Ok []
  | Unlistable e => get_ad_videos video_dir = Raise e
  | Listing files =>
      ∃ videos, get_ad_videos video_dir = Ok videos ∧
        videos `sublist_of` files ∧
        ∀ f, f ∈ videos ↔
             f ∈ files ∧
             ∃ stem ext, list_ascii_of_string f = stem ++ ext ∧ video_extension ext
  end.
Proof.
  destruct video_dir as [|e|files]; simpl; [done..|].
  eexists. split; [done|]. split; [apply sublist_filter|].
  intros f. rewrite list_elem_of_filter, is_video_spec. tauto.
Qed.
